(** * owid-grapher: sortable data table, COVID data explorer, search indexing

    A shallow embedding of three source files and the properties their
    specification states about them:

    - [charts/DataTable.tsx]            (module [DataTable])
    - [charts/covidDataExplorer/CovidDataExplorer.tsx]
                                        (module [CovidDataExplorer])
    - [scripts/indexToAlgolia.ts]       (module [IndexToAlgolia])

    Conventions.  A JavaScript [undefined] is [None].  A thrown [TypeError]
    is [None] in the result of a computed property.  Finite JavaScript
    numbers are integers ([Z]); only their order and equality are used. *)

From Stdlib Require Import ZArith Lia Bool List Sorted Permutation.
From Stdlib Require Import Ascii String DecimalString OrderedTypeEx.
From stdpp Require Import base option list sorting gmap strings.

Local Open Scope Z_scope.
Local Open Scope string_scope.
Local Open Scope list_scope.

(* ===================================================================== *)
(** * JavaScript values shared by the three files *)
(* ===================================================================== *)

Module JS.

(** A JavaScript [number]. *)
Inductive JSNumber : Set :=
| Finite (z : Z)
| PosInfinity
| NegInfinity
| NaN.

#[global] Instance JSNumber_eq_dec : EqDecision JSNumber.
Proof. solve_decision. Defined.

(** [a < b] on numbers; every comparison with NaN is false. *)
Definition number_lt (a b : JSNumber) : bool :=
  match a, b with
  | NaN, _ | _, NaN => false
  | NegInfinity, NegInfinity => false
  | NegInfinity, _ => true
  | _, NegInfinity => false
  | PosInfinity, _ => false
  | Finite _, PosInfinity => true
  | Finite x, Finite y => (x <? y)%Z
  end.

(** [`${n}`] for a non-negative integer: its decimal digits. *)
Definition decimal (n : nat) : string :=
  NilEmpty.string_of_uint (Nat.to_uint n).

(** [arr[i]] for a numeric index: [undefined] outside [0 .. length-1]. *)
Definition index {A} (arr : list A) (i : Z) : option A :=
  if (i <? 0)%Z then None else arr !! Z.to_nat i.

End JS.

(* ===================================================================== *)
(** * lodash's [orderBy], re-exported by [charts/Util] *)
(* ===================================================================== *)

Module Lodash.

(** The sort criteria this program hands to [orderBy]: strings, finite
    numbers and the two infinities.  They are never [undefined], [null],
    a symbol or NaN, which are the other cases lodash tells apart. *)
Inductive SortKey : Set :=
| KString (s : string)
| KFinite (z : Z)
| KInfinity
| KNegInfinity.

#[global] Instance SortKey_eq_dec : EqDecision SortKey.
Proof. solve_decision. Defined.

(** The sign [compareMultiple] gives a comparison of criteria under
    [orders]. *)
Definition directed (orders : list string) (result : Z) : Z :=
  match orders !! 0%nat with
  | None => result
  | Some order => result * (if decide (order = "desc") then (-1) else 1)
  end.

Section OrderBy.

(** JavaScript's [ToNumber] on strings, used when a string is compared with a
    number; it belongs to the language, so it is a parameter here. *)
Variable ToNumber : string -> JS.JSNumber.

Variable A : Type.

Definition keyToNumber (k : SortKey) : JS.JSNumber :=
  match k with
  | KString s => ToNumber s
  | KFinite z => JS.Finite z
  | KInfinity => JS.PosInfinity
  | KNegInfinity => JS.NegInfinity
  end.

(** [value < other]: two strings are compared by code units, anything else
    as numbers. *)
Definition key_lt (value other : SortKey) : bool :=
  match value, other with
  | KString x, KString y => String.ltb x y
  | _, _ => JS.number_lt (keyToNumber value) (keyToNumber other)
  end.

(** [value > other] *)
Definition key_gt (value other : SortKey) : bool :=
  match value, other with
  | KString x, KString y => String.ltb y x
  | _, _ => JS.number_lt (keyToNumber other) (keyToNumber value)
  end.

(** [compareAscending(value, other)], with the tests on [undefined], [null],
    symbols and NaN left out, as no criterion is one of them. *)
Definition compareAscending (value other : SortKey) : Z :=
  if decide (value <> other) then
    if key_gt value other then 1
    else if key_lt value other then (-1)
    else 0
  else 0.

(** What [baseOrderBy] sorts: the criterion of the one iteratee, the place in
    the collection and the element. *)
Record Entry : Type := {
  criteria : SortKey;
  index : nat;
  value : A
}.

(** [compareMultiple(object, other, orders)] for one criterion. *)
Definition compareMultiple (object other : Entry) (orders : list string) : Z :=
  let result := compareAscending (criteria object) (criteria other) in
  if decide (result <> 0) then
    match orders !! 0%nat with
    | None => result
    | Some order => result * (if decide (order = "desc") then (-1) else 1)
    end
  else Z.of_nat (index object) - Z.of_nat (index other).

(** [comparer] does not put [a] after [b]. *)
Definition inOrder (comparer : Entry -> Entry -> Z) : relation Entry :=
  fun a b => comparer a b <= 0.

#[local] Instance inOrder_dec comparer a b : Decision (inOrder comparer a b).
Proof. unfold inOrder. apply _. Defined.

(** [baseSortBy(array, comparer)]: [array.sort(comparer)], then each entry's
    value.  [Array.prototype.sort] is a merge sort here; every comparer this
    program uses orders two entries of different index strictly, so when it
    is consistent the result does not depend on the algorithm. *)
Definition baseSortBy (array : list Entry) (comparer : Entry -> Entry -> Z)
    : list A :=
  value <$> merge_sort (inOrder comparer) array.

(** [baseOrderBy(collection, iteratees, orders)] for one iteratee. *)
Definition baseOrderBy (collection : list A) (iteratee : A -> SortKey)
    (orders : list string) : list A :=
  let result :=
    imap (fun i v => {| criteria := iteratee v; index := i; value := v |})
         collection in
  baseSortBy result (fun object other => compareMultiple object other orders).

(** Modelled from the spec: [orderBy] of [charts/Util], which is lodash's and
    not part of the data table, is what makes "the table the user sees"
    match "the current sort/selection state": it sorts the collection by the
    iteratee's values in the given order and keeps the order of elements
    that compare equal.  The comparison is lodash's, as given above. *)
Definition orderBy (collection : list A) (iteratee : A -> SortKey)
    (orders : list string) : list A :=
  baseOrderBy collection iteratee orders.

End OrderBy.

Arguments criteria {A} _.
Arguments index {A} _.
Arguments value {A} _.

End Lodash.

(* ===================================================================== *)
(** * charts/DataTableTransform and charts/SortOrder, as DataTable uses them *)
(* ===================================================================== *)

Module SortOrder.

(** Modelled from the spec: [SortOrder] of [charts/SortOrder] is imported by
    the data table and is not part of it; it is the direction in which the
    "sort column" of the table is sorted, and its two values are the strings
    lodash's [orderBy] understands. *)
Inductive SortOrder : Set := asc | desc.

#[global] Instance SortOrder_eq_dec : EqDecision SortOrder.
Proof. solve_decision. Defined.

Definition to_string (o : SortOrder) : string :=
  match o with asc => "asc" | desc => "desc" end.

End SortOrder.

Module DataTableTransform.

(** Modelled from the spec: the column keys of [charts/DataTableTransform]
    ("single value, start/end/change"): [SingleValueKey] has the one key
    [single], [RangeValueKey] the four below, and [ColumnKey] is their
    union.  The key [end] is spelled [end_]. *)
Inductive RangeValueKey : Set := start | end_ | delta | deltaRatio.

Inductive ColumnKey : Set :=
| single
| range (k : RangeValueKey).

#[global] Instance RangeValueKey_eq_dec : EqDecision RangeValueKey.
Proof. solve_decision. Defined.
#[global] Instance ColumnKey_eq_dec : EqDecision ColumnKey.
Proof. solve_decision. Defined.

(** Modelled from the spec: the values of [charts/DataTableTransform], as
    the data table reads them.  [Value.value] is a string or a number, and
    may be absent. *)
Inductive RawValue : Set :=
| VNumber (n : JS.JSNumber)
| VString (s : string).

Record Value : Set := {
  value : option RawValue;
  formattedValue : option string;
  year : option Z
}.

Record RangeValue : Set := {
  rv_start : option Value;
  rv_end : option Value;
  rv_delta : option Value;
  rv_deltaRatio : option Value
}.

(** Modelled from the spec: [DimensionValue = SingleValue | RangeValue] of
    [charts/DataTableTransform] (a "single value" or "start/end/change"),
    told apart by [isSingleValue] and [isRangeValue]. *)
Inductive DimensionValue : Set :=
| SingleValue (v : option Value)
| RangeValueOf (r : RangeValue).

(** [dv[columnKey]] on a range value. *)
Definition rangeField (r : RangeValue) (k : RangeValueKey) : option Value :=
  match k with
  | start => rv_start r
  | end_ => rv_end r
  | delta => rv_delta r
  | deltaRatio => rv_deltaRatio r
  end.

Record DataTableColumn : Set := {
  key : ColumnKey;
  sortable : bool
}.

(** Modelled from the spec: an element of [dimensionsWithValues] of
    [charts/DataTableTransform]: the chart dimension (here its variable id)
    and the "per-dimension display columns". *)
Record Dimension : Set := {
  dimension : Z;
  columns : list DataTableColumn
}.

(** Modelled from the spec: a [DataTableRow] of [charts/DataTableTransform],
    one of the "entity rows": the entity name and its value in each
    dimension, if any. *)
Record DataTableRow : Set := {
  entity : string;
  dimensionValues : list (option DimensionValue)
}.

(** Modelled from the spec: [DataTableTransform], the "pivot of entity rows
    into per-dimension display columns", is imported by the data table and
    is not part of it.  The table reads three of its members: [dimensions],
    [dimensionsWithValues] (one entry per dimension, in the same order) and
    [displayRows]. *)
Record t : Set := {
  dimensionsWithValues : list Dimension;
  displayRows : list DataTableRow
}.

Definition dimensions (transform : t) : list Z :=
  map dimension (dimensionsWithValues transform).

End DataTableTransform.

(* ===================================================================== *)
(** * charts/DataTable.tsx *)
(* ===================================================================== *)

Module DataTable.
Import SortOrder DataTableTransform.

Definition DimensionIndex : Set := Z.

Definition ENTITY_DIM_INDEX : DimensionIndex := (-1)%Z.

Record DataTableSortState : Set := {
  dimIndex : DimensionIndex;
  columnKey : option ColumnKey;
  order : SortOrder
}.

#[global] Instance DataTableSortState_eq_dec : EqDecision DataTableSortState.
Proof. solve_decision. Defined.

Definition DEFAULT_SORT_STATE : DataTableSortState :=
  {| dimIndex := ENTITY_DIM_INDEX; columnKey := None; order := asc |}.

Definition inverseSortOrder (o : SortOrder) : SortOrder :=
  if decide (o = asc) then desc else asc.

(** [availableColumns.includes(columnKey)] *)
Definition includes (available : list ColumnKey) (k : ColumnKey) : bool :=
  bool_decide (k ∈ available).

(** [get sortState()].  [stored] is [this.storedState.sort]; spreading it
    over [DEFAULT_SORT_STATE] gives its own three fields.  Reading [.columns]
    of an absent [dimensionsWithValues[dimIndex]] throws. *)
Definition sortState (transform : DataTableTransform.t)
    (stored : DataTableSortState) : option DataTableSortState :=
  let dimIndex0 := dimIndex stored in
  let columnKey0 := columnKey stored in
  let order0 := order stored in
  let dimIndex1 :=
    Z.min dimIndex0 (Z.of_nat (length (dimensions transform)) - 1) in
  if decide (dimIndex1 <> ENTITY_DIM_INDEX) then
    match JS.index (dimensionsWithValues transform) dimIndex1 with
    | None => None
    | Some dim =>
        let availableColumns := map key (columns dim) in
        let columnKey1 :=
          match columnKey0 with
          | None => head availableColumns
          | Some k =>
              if negb (includes availableColumns k)
              then head availableColumns
              else columnKey0
          end in
        Some {| dimIndex := dimIndex1; columnKey := columnKey1;
                order := order0 |}
    end
  else
    Some {| dimIndex := dimIndex1; columnKey := columnKey0;
            order := order0 |}.

(** [get tableState()] is [{ sort: this.sortState }]. *)
Definition tableState_sort := sortState.

(** The [let value] of the sort-value closure: the value of the row in the
    sorted dimension and column, if it has one. *)
Definition selectedValue (sort : DataTableSortState) (row : DataTableRow)
    : option RawValue :=
  match mjoin (JS.index (dimensionValues row) (dimIndex sort)) with
  | None => None
  | Some (SingleValue v) => v ≫= value
  | Some (RangeValueOf r) =>
      match columnKey sort with
      | Some (range k) => rangeField r k ≫= value
      | _ => None
      end
  end.

(** [order === SortOrder.asc ? Infinity : -Infinity] *)
Definition undefinedLast (o : SortOrder) : Lodash.SortKey :=
  if decide (o = asc) then Lodash.KInfinity else Lodash.KNegInfinity.

(** The function [get sortValueMapper()] returns for the sort state [sort]. *)
Definition sortValueOf (sort : DataTableSortState) (row : DataTableRow)
    : Lodash.SortKey :=
  if decide (dimIndex sort = ENTITY_DIM_INDEX) then
    Lodash.KString (entity row)
  else
    match selectedValue sort row with
    | None => undefinedLast (order sort)
    | Some (VNumber (JS.Finite z)) => Lodash.KFinite z
    | Some (VNumber _) => undefinedLast (order sort)
    | Some (VString s) => Lodash.KString s
    end.

(** [get sortValueMapper()] *)
Definition sortValueMapper (transform : DataTableTransform.t)
    (stored : DataTableSortState) : option (DataTableRow -> Lodash.SortKey) :=
  sortValueOf <$> tableState_sort transform stored.

(** [get displayRows()] *)
Definition displayRows (ToNumber : string -> JS.JSNumber)
    (transform : DataTableTransform.t) (stored : DataTableSortState)
    : option (list DataTableRow) :=
  sort ← tableState_sort transform stored;
  mapper ← sortValueMapper transform stored;
  Some (Lodash.orderBy ToNumber _
          (DataTableTransform.displayRows transform) mapper
          [SortOrder.to_string (order sort)]).

(** [updateSort(dimIndex, columnKey?)]: the new stored sort state.  It reads
    the derived state first, so it throws when that does. *)
Definition updateSort (transform : DataTableTransform.t)
    (stored : DataTableSortState)
    (dimIndex' : DimensionIndex) (columnKey' : option ColumnKey)
    : option DataTableSortState :=
  match tableState_sort transform stored with
  | None => None
  | Some sort =>
      let order' :=
        if bool_decide (dimIndex sort = dimIndex')
           && bool_decide (columnKey sort = columnKey')
        then inverseSortOrder (order sort)
        else asc in
      Some {| dimIndex := dimIndex'; columnKey := columnKey';
              order := order' |}
  end.

(** The three places that call [updateSort]: the entity header, the header of
    dimension [i] and the subheader of column [k] of dimension [i]; [i] is an
    index into [displayDimensions].  The header of a dimension carries
    [dim.sortable] of the display dimension it was made from
    ([displayDimensions] is a member of the transform), and its handler is
    [dim.sortable && this.updateSort(dimIndex, SingleValueKey.single)]. *)
Inductive HeaderClick : Set :=
| ClickEntity
| ClickDimension (i : nat) (sortable : bool)
| ClickSubheader (i : nat) (k : ColumnKey).

Definition onClick (transform : DataTableTransform.t)
    (stored : DataTableSortState) (c : HeaderClick)
    : option DataTableSortState :=
  match c with
  | ClickEntity => updateSort transform stored ENTITY_DIM_INDEX None
  | ClickDimension i sortable =>
      if sortable
      then updateSort transform stored (Z.of_nat i) (Some single)
      else Some stored
  | ClickSubheader i k => updateSort transform stored (Z.of_nat i) (Some k)
  end.

End DataTable.

(* ===================================================================== *)
(** * Vocabulary of the statements about the data table *)
(* ===================================================================== *)

Module DataTableSpec.
Import SortOrder DataTableTransform DataTable.

(** The column keys a dimension offers; none when there is no such
    dimension. *)
Definition availableColumnKeys (transform : DataTableTransform.t)
    (d : DimensionIndex) : list ColumnKey :=
  match JS.index (dimensionsWithValues transform) d with
  | Some dim => map key (columns dim)
  | None => []
  end.

(** The stored column key is undefined or not one of [available]. *)
Definition columnKeyUnavailable (available : list ColumnKey)
    (k : option ColumnKey) : Prop :=
  match k with
  | None => True
  | Some k => k ∉ available
  end.

#[global] Instance columnKeyUnavailable_dec available k :
  Decision (columnKeyUnavailable available k).
Proof. destruct k; simpl; apply _. Defined.

(** [le] read in the direction of the sort order. *)
Definition ordered {A} (o : SortOrder) (le : relation A) : relation A :=
  match o with
  | asc => le
  | desc => flip le
  end.

Definition string_le (a b : string) : Prop := String.leb a b = true.

(** Two rows stand in the order of their entity names. *)
Definition entityOrdered (o : SortOrder) : relation DataTableRow :=
  fun r1 r2 => ordered o string_le (entity r1) (entity r2).

(** The finite number the sort reads from a row ([selectedValue]), if it
    reads one. *)
Definition finiteValue (sort : DataTableSortState) (row : DataTableRow)
    : option Z :=
  match selectedValue sort row with
  | Some (VNumber (JS.Finite z)) => Some z
  | _ => None
  end.

(** Two rows stand in the order of the numbers the sort reads from them, a
    row without a finite number coming after every row that has one. *)
Definition valueOrdered (sort : DataTableSortState) : relation DataTableRow :=
  fun r1 r2 =>
    match finiteValue sort r1, finiteValue sort r2 with
    | Some a, Some b => ordered (order sort) Z.le a b
    | _, None => True
    | None, Some _ => False
    end.

(** The sort reads no string from the row. *)
Definition numericColumn (sort : DataTableSortState) (row : DataTableRow)
    : Prop :=
  forall s, selectedValue sort row <> Some (VString s).

(** The text the sort reads from a row; empty if it reads none. *)
Definition textValue (sort : DataTableSortState) (row : DataTableRow)
    : string :=
  match selectedValue sort row with
  | Some (VString s) => s
  | _ => ""
  end.

(** The sort reads a string from the row. *)
Definition textColumn (sort : DataTableSortState) (row : DataTableRow)
    : Prop :=
  exists s, selectedValue sort row = Some (VString s).

(** Two rows stand in the order of the texts the sort reads from them. *)
Definition textOrdered (sort : DataTableSortState) : relation DataTableRow :=
  fun r1 r2 =>
    ordered (order sort) string_le (textValue sort r1) (textValue sort r2).

(** The order of two rows as the specification words it: by the value of the
    selected column in the selected order, whatever number the value is. *)
Definition statedValueOrder (sort : DataTableSortState)
    : relation DataTableRow :=
  fun r1 r2 =>
    match selectedValue sort r1, selectedValue sort r2 with
    | Some (VNumber a), Some (VNumber b) =>
        ordered (order sort) (fun x y => JS.number_lt y x = false) a b
    | _, _ => True
    end.

(** The stored sort state after a series of header clicks, each on the
    table of the transform current at that time. *)
Fixpoint clicks (stored : DataTableSortState)
    (cs : list (DataTableTransform.t * HeaderClick))
    : option DataTableSortState :=
  match cs with
  | [] => Some stored
  | (transform, c) :: cs' =>
      match onClick transform stored c with
      | None => None
      | Some stored' => clicks stored' cs'
      end
  end.

End DataTableSpec.

(* ===================================================================== *)
(** * The cells of the data table, and the order of the rows by them *)
(* ===================================================================== *)

Module DataTableCells.
Import SortOrder DataTableTransform DataTable DataTableSpec.

(** The [let value] of [renderValueCell(key, column, dv, ...)]: the [Value]
    the cell of a column with key [columnKey] renders for the dimension
    value [dv] of a row; the cell is empty when there is none. *)
Definition cellValue (columnKey : ColumnKey) (dv : option DimensionValue)
    : option Value :=
  match dv with
  | Some (SingleValue v) =>
      match columnKey with
      | single => v
      | range _ => None
      end
  | Some (RangeValueOf r) =>
      match columnKey with
      | range k => rangeField r k
      | single => None
      end
  | None => None
  end.

(** [renderEntityRow]: the cell of a row in column [columnKey] of dimension
    [dimIndex] renders [row.dimensionValues[dimIndex]]; it is the cell marked
    as sorted when [sort.dimIndex === dimIndex] and
    [sort.columnKey === column.key]. *)
Definition cellOf (dimIndex : DimensionIndex) (columnKey : ColumnKey)
    (row : DataTableRow) : option Value :=
  cellValue columnKey (mjoin (JS.index (dimensionValues row) dimIndex)).

(** The value of a row in the column that [sort] selects: the [value] of
    what its cell there renders.  It has none when the cell is empty, and
    when [sort] selects no column. *)
Definition columnValue (sort : DataTableSortState) (row : DataTableRow)
    : option RawValue :=
  match columnKey sort with
  | Some k => cellOf (dimIndex sort) k row ≫= value
  | None => None
  end.

(** The finite number a row has in the selected column, if it has one. *)
Definition columnNumber (sort : DataTableSortState) (row : DataTableRow)
    : option Z :=
  match columnValue sort row with
  | Some (VNumber (JS.Finite z)) => Some z
  | _ => None
  end.

(** Two rows stand in the order of their values in the selected column, in
    the selected direction, a row without a finite number there coming after
    every row that has one. *)
Definition columnOrdered (sort : DataTableSortState) : relation DataTableRow :=
  fun r1 r2 =>
    match columnNumber sort r1, columnNumber sort r2 with
    | Some a, Some b => ordered (order sort) Z.le a b
    | _, None => True
    | None, Some _ => False
    end.

(** The row has no string in the selected column. *)
Definition numberInColumn (sort : DataTableSortState) (row : DataTableRow)
    : Prop :=
  forall s, columnValue sort row <> Some (VString s).

(** The row has a string in the selected column. *)
Definition textInColumn (sort : DataTableSortState) (row : DataTableRow)
    : Prop :=
  exists s, columnValue sort row = Some (VString s).

(** The text a row has in the selected column; empty if it has none. *)
Definition columnText (sort : DataTableSortState) (row : DataTableRow)
    : string :=
  match columnValue sort row with
  | Some (VString s) => s
  | _ => ""
  end.

(** Two rows stand in the order of their texts in the selected column, in
    the selected direction. *)
Definition columnTextOrdered (sort : DataTableSortState)
    : relation DataTableRow :=
  fun r1 r2 =>
    ordered (order sort) string_le (columnText sort r1) (columnText sort r2).

(** The value of the row in the selected dimension is of the kind of the
    selected column: if it is a single value, the selected column is the
    column [single]. *)
Definition valueFitsColumn (sort : DataTableSortState) (row : DataTableRow)
    : Prop :=
  match mjoin (JS.index (dimensionValues row) (dimIndex sort)) with
  | Some (SingleValue _) => columnKey sort = Some single
  | _ => True
  end.

End DataTableCells.

(* ===================================================================== *)
(** * charts/covidDataExplorer/CovidDataExplorer.tsx *)
(* ===================================================================== *)

Module CovidDataExplorer.

(** ** The query parameters *)

(** Modelled from the spec: [CovidQueryParams] of
    [charts/covidDataExplorer/CovidChartUrl] is imported by the explorer and
    is not part of it; it holds the "user-selected chart options" (the chosen
    metric, the frequency, the selected countries).  These are the fields the
    explorer reads and writes.  [params.constrainedParams] is computed there
    too; the getters below take its value as an argument of the same
    type. *)
Record CovidQueryParams : Type := {
  casesMetric : bool;
  testsMetric : bool;
  deathsMetric : bool;
  cfrMetric : bool;
  testsPerCaseMetric : bool;
  positiveTestRate : bool;
  totalFreq : bool;
  dailyFreq : bool;
  perCapita : bool;
  aligned : bool;
  hideControls : bool;
  smoothing : Z;
  selectedCountryCodes : gset string
}.

(** Assignments [this.props.params.<field> = b]. *)
Definition set_casesMetric (b : bool) (p : CovidQueryParams) :=
  {| casesMetric := b; testsMetric := testsMetric p;
     deathsMetric := deathsMetric p; cfrMetric := cfrMetric p;
     testsPerCaseMetric := testsPerCaseMetric p;
     positiveTestRate := positiveTestRate p;
     totalFreq := totalFreq p; dailyFreq := dailyFreq p;
     perCapita := perCapita p; aligned := aligned p;
     hideControls := hideControls p; smoothing := smoothing p;
     selectedCountryCodes := selectedCountryCodes p |}.

Definition set_testsMetric (b : bool) (p : CovidQueryParams) :=
  {| casesMetric := casesMetric p; testsMetric := b;
     deathsMetric := deathsMetric p; cfrMetric := cfrMetric p;
     testsPerCaseMetric := testsPerCaseMetric p;
     positiveTestRate := positiveTestRate p;
     totalFreq := totalFreq p; dailyFreq := dailyFreq p;
     perCapita := perCapita p; aligned := aligned p;
     hideControls := hideControls p; smoothing := smoothing p;
     selectedCountryCodes := selectedCountryCodes p |}.

Definition set_deathsMetric (b : bool) (p : CovidQueryParams) :=
  {| casesMetric := casesMetric p; testsMetric := testsMetric p;
     deathsMetric := b; cfrMetric := cfrMetric p;
     testsPerCaseMetric := testsPerCaseMetric p;
     positiveTestRate := positiveTestRate p;
     totalFreq := totalFreq p; dailyFreq := dailyFreq p;
     perCapita := perCapita p; aligned := aligned p;
     hideControls := hideControls p; smoothing := smoothing p;
     selectedCountryCodes := selectedCountryCodes p |}.

Definition set_cfrMetric (b : bool) (p : CovidQueryParams) :=
  {| casesMetric := casesMetric p; testsMetric := testsMetric p;
     deathsMetric := deathsMetric p; cfrMetric := b;
     testsPerCaseMetric := testsPerCaseMetric p;
     positiveTestRate := positiveTestRate p;
     totalFreq := totalFreq p; dailyFreq := dailyFreq p;
     perCapita := perCapita p; aligned := aligned p;
     hideControls := hideControls p; smoothing := smoothing p;
     selectedCountryCodes := selectedCountryCodes p |}.

Definition set_testsPerCaseMetric (b : bool) (p : CovidQueryParams) :=
  {| casesMetric := casesMetric p; testsMetric := testsMetric p;
     deathsMetric := deathsMetric p; cfrMetric := cfrMetric p;
     testsPerCaseMetric := b;
     positiveTestRate := positiveTestRate p;
     totalFreq := totalFreq p; dailyFreq := dailyFreq p;
     perCapita := perCapita p; aligned := aligned p;
     hideControls := hideControls p; smoothing := smoothing p;
     selectedCountryCodes := selectedCountryCodes p |}.

Definition set_positiveTestRate (b : bool) (p : CovidQueryParams) :=
  {| casesMetric := casesMetric p; testsMetric := testsMetric p;
     deathsMetric := deathsMetric p; cfrMetric := cfrMetric p;
     testsPerCaseMetric := testsPerCaseMetric p;
     positiveTestRate := b;
     totalFreq := totalFreq p; dailyFreq := dailyFreq p;
     perCapita := perCapita p; aligned := aligned p;
     hideControls := hideControls p; smoothing := smoothing p;
     selectedCountryCodes := selectedCountryCodes p |}.

Definition set_selectedCountryCodes (s : gset string) (p : CovidQueryParams) :=
  {| casesMetric := casesMetric p; testsMetric := testsMetric p;
     deathsMetric := deathsMetric p; cfrMetric := cfrMetric p;
     testsPerCaseMetric := testsPerCaseMetric p;
     positiveTestRate := positiveTestRate p;
     totalFreq := totalFreq p; dailyFreq := dailyFreq p;
     perCapita := perCapita p; aligned := aligned p;
     hideControls := hideControls p; smoothing := smoothing p;
     selectedCountryCodes := s |}.

(** ** Commands and pickers *)

Definition clearMetricsCommand (params : CovidQueryParams) : CovidQueryParams :=
  let params := set_casesMetric false params in
  let params := set_testsMetric false params in
  let params := set_deathsMetric false params in
  let params := set_cfrMetric false params in
  let params := set_testsPerCaseMetric false params in
  let params := set_positiveTestRate false params in
  params.

(** [updateChart()] only sets a timer, whose callback rewrites the chart
    from the parameters; it leaves the parameters as they are. *)
Definition updateChart (params : CovidQueryParams) : CovidQueryParams := params.

(** A [ControlOption] of the explorer controls; [onChange] is given as its
    effect on [this.props.params]. *)
Record ControlOption : Type := {
  available : bool;
  label : string;
  checked : bool;
  onChange : CovidQueryParams -> CovidQueryParams
}.

(** [get metricPicker()]: the options of its two columns. *)
Definition metricPicker (constrainedParams : CovidQueryParams)
    : list ControlOption * list ControlOption :=
  let options := [
    {| available := true;
       label := "Confirmed cases";
       checked := casesMetric constrainedParams;
       onChange := fun params =>
         let params := clearMetricsCommand params in
         let params := set_casesMetric true params in
         updateChart params |};
    {| available := true;
       label := "Confirmed deaths";
       checked := deathsMetric constrainedParams;
       onChange := fun params =>
         let params := clearMetricsCommand params in
         let params := set_deathsMetric true params in
         updateChart params |};
    {| available := true;
       label := "Case fatality rate";
       checked := cfrMetric constrainedParams;
       onChange := fun params =>
         let params := clearMetricsCommand params in
         let params := set_cfrMetric true params in
         updateChart params |}
  ] in
  let optionsColumn2 := [
    {| available := true;
       label := "Tests";
       checked := testsMetric constrainedParams;
       onChange := fun params =>
         let params := clearMetricsCommand params in
         let params := set_testsMetric true params in
         updateChart params |};
    {| available := true;
       label := "Tests per confirmed case";
       checked := testsPerCaseMetric constrainedParams;
       onChange := fun params =>
         let params := clearMetricsCommand params in
         let params := set_testsPerCaseMetric true params in
         updateChart params |};
    {| available := true;
       label := "Share of positive tests";
       checked := positiveTestRate constrainedParams;
       onChange := fun params =>
         let params := clearMetricsCommand params in
         let params := set_positiveTestRate true params in
         updateChart params |}
  ] in
  (options, optionsColumn2).

(** [toggleSelectedCountry(code, value?)]; [selectedCountryCodes] is a
    JavaScript [Set], changed in place. *)
Definition toggleSelectedCountry (code : string) (value : option bool)
    (params : CovidQueryParams) : CovidQueryParams :=
  let codes := selectedCountryCodes params in
  match value with
  | Some true => set_selectedCountryCodes ({[code]} ∪ codes) params
  | Some false => set_selectedCountryCodes (codes ∖ {[code]}) params
  | None =>
      if decide (code ∈ codes)
      then set_selectedCountryCodes (codes ∖ {[code]}) params
      else set_selectedCountryCodes ({[code]} ∪ codes) params
  end.

(** ** Titles *)

Definition perCapitaDivisor (constrainedParams : CovidQueryParams) : Z :=
  if testsMetric constrainedParams then 1000 else 1000000.





(** ** Variables built on the client *)

(** [MetricKind] of [CovidTypes]: the names the file passes as column
    name. *)
Inductive MetricKind : Set :=
| tests
| cases
| deaths
| case_fatality_rate
| tests_per_case
| positive_test_rate.

#[global] Instance MetricKind_eq_dec : EqDecision MetricKind.
Proof. solve_decision. Defined.

(** The row accessors [yVariableId] passes on, one name for each arrow
    function; they read floating-point columns of the data rows and are
    not evaluated here.  The two that close over [params.smoothing] carry
    it. *)
Inductive RowAccessor : Set :=
| row_new_tests (smoothing : Z)
| row_total_tests
| row_new_cases
| row_total_cases
| row_new_deaths
| row_total_deaths
| row_daily_case_fatality_rate
| row_total_case_fatality_rate
| row_daily_tests_per_case_smoothed
| row_daily_tests_per_case
| row_total_tests_per_case
| row_daily_positive_test_rate (smoothing : Z)
| row_total_positive_test_rate.

(** What [owidVariableSet.variables] holds: the continents variable it
    starts with, or the arguments [buildCovidVariable] was called with. *)
Inductive OwidVariable : Set :=
| continentsVariable
| buildCovidVariable (id : Z) (columnName : MetricKind) (rowFn : RowAccessor)
    (perCapita : Z) (rollingAverage : Z) (daily : bool)
    (updatedLabel : string).

(** The state the variable getters read and write. *)
Record ExplorerState : Type := {
  variables : gmap Z OwidVariable;
  console : list string;
  smoothedAdded : bool
}.

Definition initialState : ExplorerState :=
  {| variables := {[ 123 := continentsVariable ]};
     console := [];
     smoothedAdded := false |}.

(** Computations on the explorer state. *)
Definition Explorer (A : Type) : Type := ExplorerState -> A * ExplorerState.

Definition ret {A} (a : A) : Explorer A := fun st => (a, st).

Definition bind {A B} (m : Explorer A) (k : A -> Explorer B) : Explorer B :=
  fun st => let '(a, st') := m st in k a st'.

Notation "'do' x <- m ; k" := (bind m (fun x => k))
  (at level 10, x name, m at level 100, k at level 200).
Notation "m ;; k" := (bind m (fun _ => k))
  (at level 100, k at level 200, right associativity).

Definition getVariable (id : Z) : Explorer (option OwidVariable) :=
  fun st => (variables st !! id, st).

Definition setVariable (id : Z) (v : OwidVariable) : Explorer unit :=
  fun st => (tt, {| variables := <[id := v]> (variables st);
                    console := console st;
                    smoothedAdded := smoothedAdded st |}).

Definition console_log (msg : string) : Explorer unit :=
  fun st => (tt, {| variables := variables st;
                    console := console st ++ [msg];
                    smoothedAdded := smoothedAdded st |}).

(** [addNewCasesSmoothed()]: the first call adds a smoothed column to the
    data rows and remembers that it did. *)
Definition addNewCasesSmoothed : Explorer unit :=
  fun st =>
    if smoothedAdded st then (tt, st)
    else (tt, {| variables := variables st;
                 console := console st;
                 smoothedAdded := true |}).

Section Variables.

(** [buildCovidVariableId] of [CovidDataUtils] and the text of
    [this.lastUpdated] are not part of the file. *)
Variable buildCovidVariableId : MetricKind -> Z -> Z -> bool -> Z.
Variable lastUpdated : string.

(** The default of the [perCapita] argument of [initVariableAndGetId]. *)
Definition perCapitaArgument (constrainedParams : CovidQueryParams) : Z :=
  if perCapita constrainedParams
  then perCapitaDivisor constrainedParams else 1.

Definition initVariableAndGetId (constrainedParams : CovidQueryParams)
    (columnName : MetricKind) (rowFn : RowAccessor) (daily : bool)
    : Explorer Z :=
  let perCapita := perCapitaArgument constrainedParams in
  let smoothing := smoothing constrainedParams in
  let id := buildCovidVariableId columnName perCapita smoothing daily in
  let alreadySmoothed :=
    (bool_decide (columnName = tests)
     || bool_decide (columnName = tests_per_case)
     || bool_decide (columnName = positive_test_rate))
    && bool_decide (smoothing = 7) in
  do existing <- getVariable id;
  (match existing with
   | None =>
       setVariable id
         (buildCovidVariable id columnName rowFn perCapita
            (if alreadySmoothed then 1 else smoothing) daily
            (if decide (columnName = tests) then ""
             else " - " +:+ lastUpdated))
   | Some _ => ret tt
   end);;
  ret id.

(** [get yVariableId()] *)
Definition yVariableId (constrainedParams : CovidQueryParams) : Explorer Z :=
  let params := constrainedParams in
  let init := initVariableAndGetId params in
  if testsMetric params && dailyFreq params then
    init tests (row_new_tests (smoothing params)) true
  else if testsMetric params && totalFreq params then
    init tests row_total_tests false
  else if casesMetric params && dailyFreq params then
    init cases row_new_cases true
  else if casesMetric params && totalFreq params then
    init cases row_total_cases false
  else if deathsMetric params && dailyFreq params then
    init deaths row_new_deaths true
  else if deathsMetric params && totalFreq params then
    init deaths row_total_deaths false
  else if cfrMetric params && dailyFreq params then
    init case_fatality_rate row_daily_case_fatality_rate true
  else if cfrMetric params && totalFreq params then
    init case_fatality_rate row_total_case_fatality_rate false
  else if testsPerCaseMetric params && dailyFreq params then
    if negb (smoothing params =? 0)%Z then
      addNewCasesSmoothed;;
      init tests_per_case row_daily_tests_per_case_smoothed true
    else
      init tests_per_case row_daily_tests_per_case true
  else if testsPerCaseMetric params && totalFreq params then
    init tests_per_case row_total_tests_per_case false
  else if positiveTestRate params && dailyFreq params then
    addNewCasesSmoothed;;
    init positive_test_rate
      (row_daily_positive_test_rate (smoothing params)) true
  else if positiveTestRate params && totalFreq params then
    init positive_test_rate row_total_positive_test_rate false
  else
    console_log "Error: no variable id generated.";;
    ret 0.

End Variables.

(** ** Vocabulary of the statements about the explorer *)

(** The six metric flags of a parameter state. *)
Definition metricFlags (p : CovidQueryParams) : list bool :=
  [casesMetric p; testsMetric p; deathsMetric p; cfrMetric p;
   testsPerCaseMetric p; positiveTestRate p].

(** How many of the six flags are set. *)
Definition metricCount (p : CovidQueryParams) : nat :=
  length (filter (fun b => b = true) (metricFlags p)).

Definition anyMetric (p : CovidQueryParams) : bool :=
  existsb (fun b => b) (metricFlags p).

Definition anyFrequency (p : CovidQueryParams) : bool :=
  dailyFreq p || totalFreq p.

(** The metric flag a column name stands for. *)
Definition flagOf (columnName : MetricKind) (p : CovidQueryParams) : bool :=
  match columnName with
  | tests => testsMetric p
  | cases => casesMetric p
  | deaths => deathsMetric p
  | case_fatality_rate => cfrMetric p
  | tests_per_case => testsPerCaseMetric p
  | positive_test_rate => positiveTestRate p
  end.

(** The state after the error message was logged, and nothing else. *)
Definition errorLogged (st : ExplorerState) : ExplorerState :=
  {| variables := variables st;
     console := console st ++ ["Error: no variable id generated."];
     smoothedAdded := smoothedAdded st |}.

(** The outcome of a call that built, or found, the variable of column
    [columnName]: its id is returned, the variable is in the set, nothing was
    logged. *)
Definition builtFrom (buildCovidVariableId : MetricKind -> Z -> Z -> bool -> Z)
    (p : CovidQueryParams) (st : ExplorerState)
    (columnName : MetricKind) (daily : bool) (out : Z * ExplorerState)
    : Prop :=
  (fst out) = buildCovidVariableId columnName (perCapitaArgument p) (smoothing p)
            daily /\
  is_Some (variables (snd out) !! (fst out)) /\
  console (snd out) = console st.

End CovidDataExplorer.

(* ===================================================================== *)
(** * scripts/indexToAlgolia.ts *)
(* ===================================================================== *)

Module IndexToAlgolia.

(** ** The relational store *)

(** A row of the table [wp_posts], with the columns the script and its
    query name. *)
Record WpPost : Set := {
  ID : nat;
  post_type : string;
  post_status : string;
  post_name : string;
  post_title : string;
  post_content : string
}.

(** The [WHERE] clause of a query. *)
Inductive Condition : Set :=
| Equals (column : string) (literal : string)
| And (c1 c2 : Condition)
| Or (c1 c2 : Condition).

(** [SELECT * FROM table WHERE condition] *)
Record Select : Set := {
  from : string;
  where_ : Condition
}.

(** The text value of a column of a row. *)
Definition columnOf (row : WpPost) (column : string) : option string :=
  if decide (column = "ID") then Some (JS.decimal (ID row))
  else if decide (column = "post_type") then Some (post_type row)
  else if decide (column = "post_status") then Some (post_status row)
  else if decide (column = "post_name") then Some (post_name row)
  else if decide (column = "post_title") then Some (post_title row)
  else if decide (column = "post_content") then Some (post_content row)
  else None.

(** Whether a row satisfies a condition; [=] compares the texts as they
    are. *)
Fixpoint holds (c : Condition) (row : WpPost) : bool :=
  match c with
  | Equals column literal => bool_decide (columnOf row column = Some literal)
  | And c1 c2 => holds c1 row && holds c2 row
  | Or c1 c2 => holds c1 row || holds c2 row
  end.

(** Modelled from the spec: [wpdb.query] of [db/wpdb], which is not part of
    the script, "reads rows from a relational data store": it answers a query
    with the rows of the table that satisfy its condition, in table order. *)
Definition runSelect (wp_posts : list WpPost) (q : Select) : list WpPost :=
  if decide (from q = "wp_posts") then filter (fun row => holds (where_ q) row) wp_posts
  else [].

(** ** Posts, countries and search records *)

(** What [wpdb.getFullPost] resolves to. *)
Record FullPost : Set := {
  fp_id : nat;
  fp_type : string;
  fp_slug : string;
  fp_title : string;
  fp_content : string
}.

(** What [formatPost] resolves to: the fields the script reads. *)
Record FormattedPost : Set := {
  id : nat;
  type : string;
  slug : string;
  title : string;
  excerpt : string;
  authors : list string;
  date : string;
  modifiedDate : string;
  html : string
}.

(** An entry of [utils/countries]. *)
Record Country : Set := {
  country_name : string;
  country_slug : string
}.

(** The two shapes of object pushed on [records]. *)
Inductive SearchRecord : Set :=
| CountryRecord (objectID type slug title content : string)
| PostRecord (objectID : string) (postId : nat)
    (type slug title excerpt : string) (authors : list string)
    (date modifiedDate : string) (content : string).

Definition objectID (r : SearchRecord) : string :=
  match r with
  | CountryRecord o _ _ _ _ => o
  | PostRecord o _ _ _ _ _ _ _ _ _ => o
  end.

(** ** Awaited calls *)

(** The calls the script awaits. *)
Inductive Call : Set :=
| initIndex (indexName : string)
| copyIndex (src dst : string) (scope : list string)
| query (sql : Select)
| getFullPost (row : WpPost)
| formatPost (rawPost : FullPost) (footnotes : bool)
| saveObjects (indexName : string) (objects : list SearchRecord)
| moveIndex (src dst : string).

(** What happens, in order of time: an awaited call starts, and later
    resolves or rejects; [wpdb.end()] is called. *)
Inductive Event : Set :=
| Started (c : Call)
| Resolved (c : Call)
| Rejected (c : Call)
| poolEnded.

(** How a run of the script ends. *)
Inductive Outcome (A : Type) : Type :=
| Done (a : A)
| Aborted
| OutOfFuel.

Arguments Done {A} _.
Arguments Aborted {A}.
Arguments OutOfFuel {A}.

(** A step of the script: from the events so far to an outcome and the
    events then. *)
Definition Script (A : Type) : Type := list Event -> Outcome A * list Event.

Definition pure {A} (a : A) : Script A := fun events => (Done a, events).

(** A rejection, or running out of fuel, ends everything after it. *)
Definition andThen {A B} (m : Script A) (k : A -> Script B) : Script B :=
  fun events =>
    match m events with
    | (Done a, events') => k a events'
    | (Aborted, events') => (Aborted, events')
    | (OutOfFuel, events') => (OutOfFuel, events')
    end.

Notation "'do' x <- m ; k" := (andThen m (fun x => k))
  (at level 10, x name, m at level 100, k at level 200).
Notation "m ;; k" := (andThen m (fun _ => k))
  (at level 100, k at level 200, right associativity).

Definition outOfFuel {A} : Script A := fun events => (OutOfFuel, events).

(** [records.slice(i, j)] *)
Definition slice {A} (i j : nat) (l : list A) : list A :=
  take (j - i) (drop i l).

Section Run.

(** The world the script runs in: the countries table, the rows of
    [wp_posts], what the imported helpers return, and which calls reject. *)
Variable countries : list Country.
Variable wp_posts : list WpPost.
Variable fullPostOf : WpPost -> FullPost.
Variable formatted : FullPost -> FormattedPost.
Variable htmlToPlaintext : string -> string.
Variable chunkParagraphs : string -> nat -> list string.
Variable rejects : list Event -> Call -> bool.

(** [await c], where [c] would resolve to [result]. *)
Definition await {A} (c : Call) (result : A) : Script A :=
  fun events =>
    let events := (events ++ [Started c]) in
    if rejects events c then (Aborted, events ++ [Rejected c])
    else (Done result, events ++ [Resolved c]).

(** [wpdb.end()] *)
Definition wpdb_end : Script unit :=
  fun events => (Done tt, events ++ [poolEnded]).

Definition publishedPostsQuery : Select :=
  {| from := "wp_posts";
     where_ := And (Or (Equals "post_type" "post")
                       (Equals "post_type" "page"))
                   (Equals "post_status" "publish") |}.

(** The loop over [countries]. *)
Definition pushCountries (records : list SearchRecord) : list SearchRecord :=
  fold_left
    (fun records country =>
       records ++
       [CountryRecord (country_slug country) "country" (country_slug country)
          (country_name country)
          ("All available indicators for " +:+ country_name country +:+ ".")])
    countries records.

(** The loop over the chunks of one post, with its counter [i]. *)
Definition pushChunks (row : WpPost) (post : FormattedPost)
    (chunks : list string) (records : list SearchRecord)
    : list SearchRecord :=
  fst (fold_left
         (fun '(records, i) c =>
            (records ++
             [PostRecord (JS.decimal (ID row) +:+ "-c" +:+ JS.decimal i)
                (id post) (type post) (slug post) (title post)
                (excerpt post) (authors post) (date post)
                (modifiedDate post) c],
             (i + 1)%nat))
         chunks (records, 0%nat)).

(** The loop over [rows]. *)
Fixpoint pushPosts (rows : list WpPost) (records : list SearchRecord)
    : Script (list SearchRecord) :=
  match rows with
  | [] => pure records
  | row :: rows' =>
      do rawPost <- await (getFullPost row) (fullPostOf row);
      do post <- await (formatPost rawPost false) (formatted rawPost);
      let postText := htmlToPlaintext (html post) in
      let chunks := chunkParagraphs postText 1000 in
      let records := pushChunks row post chunks records in
      pushPosts rows' records
  end.

(** The loop [for (let i = 0; i < records.length; i += 1000)], from [i]
    on; each turn uses one unit of fuel. *)
Fixpoint saveFrom (fuel : nat) (tmpIndex : string)
    (records : list SearchRecord) (i : nat) : Script unit :=
  match fuel with
  | O => outOfFuel
  | S fuel' =>
      if (i <? length records)%nat then
        await (saveObjects tmpIndex (slice i (i + 1000) records)) tt;;
        saveFrom fuel' tmpIndex records (i + 1000)%nat
      else pure tt
  end.

(** [indexToAlgolia()] *)
Definition indexToAlgolia : Script unit :=
  do finalIndex <- await (initIndex "pages") "pages";
  do tmpIndex <- await (initIndex "pages_tmp") "pages_tmp";
  await (copyIndex finalIndex tmpIndex ["settings"; "synonyms"; "rules"]) tt;;
  do rows <- await (query publishedPostsQuery)
                   (runSelect wp_posts publishedPostsQuery);
  let records := [] in
  let records := pushCountries records in
  do records <- pushPosts rows records;
  saveFrom (S (length records)) tmpIndex records 0;;
  await (moveIndex tmpIndex finalIndex) tt;;
  wpdb_end.

(** ** Vocabulary of the statements about the script *)

(** A row is published content: a post or a page whose status is
    [publish]. *)
Definition published (row : WpPost) : Prop :=
  (post_type row = "post" \/ post_type row = "page") /\
  post_status row = "publish".

#[global] Instance published_dec row : Decision (published row).
Proof. unfold published. apply _. Defined.

Definition countryRecord (country : Country) : SearchRecord :=
  CountryRecord (country_slug country) "country" (country_slug country)
    (country_name country)
    ("All available indicators for " +:+ country_name country +:+ ".").

(** The text chunks of a post. *)
Definition chunksOf (row : WpPost) : list string :=
  chunkParagraphs (htmlToPlaintext (html (formatted (fullPostOf row)))) 1000.

(** The record of chunk number [i] of a post. *)
Definition chunkRecord (row : WpPost) (i : nat) (c : string) : SearchRecord :=
  let post := formatted (fullPostOf row) in
  PostRecord (JS.decimal (ID row) +:+ "-c" +:+ JS.decimal i)
    (id post) (type post) (slug post) (title post) (excerpt post)
    (authors post) (date post) (modifiedDate post) c.

Definition postRecords (row : WpPost) : list SearchRecord :=
  imap (chunkRecord row) (chunksOf row).

Definition publishedRows : list WpPost := filter published wp_posts.

(** The record list as the specification describes it. *)
Definition allRecords : list SearchRecord :=
  (countryRecord <$> countries) ++ (publishedRows ≫= postRecords).

(** Slice number [k] of a list, and the slices that cover it. *)
Definition sliceAt {A} (l : list A) (k : nat) : list A :=
  take 1000 (drop (1000 * k) l).

Definition slices {A} (l : list A) : list (list A) :=
  sliceAt l <$> seq 0 ((length l + 999) / 1000).

(** The calls of a run in which nothing rejects, in order. *)
Definition plannedCalls : list Call :=
  [initIndex "pages"; initIndex "pages_tmp";
   copyIndex "pages" "pages_tmp" ["settings"; "synonyms"; "rules"];
   query publishedPostsQuery] ++
  (publishedRows ≫=
     fun row => [getFullPost row; formatPost (fullPostOf row) false]) ++
  (saveObjects "pages_tmp" <$> slices allRecords) ++
  [moveIndex "pages_tmp" "pages"].

(** The events of calls awaited one after the other, all resolving. *)
Definition awaited (calls : list Call) : list Event :=
  calls ≫= fun c => [Started c; Resolved c].

(** The calls started during a run, in order. *)
Definition startedCalls (events : list Event) : list Call :=
  omap (fun e => match e with Started c => Some c | _ => None end) events.

(** The record lists whose upload to [indexName] has resolved. *)
Definition uploaded (indexName : string) (events : list Event)
    : list (list SearchRecord) :=
  omap (fun e =>
          match e with
          | Resolved (saveObjects i objects) =>
              if decide (i = indexName) then Some objects else None
          | _ => None
          end) events.

(** Calls run one at a time: whatever starts resolves or rejects before
    anything else happens, and nothing happens after a rejection. *)
Definition sequential (events : list Event) : Prop :=
  forall before c after,
    events = before ++ Started c :: after ->
    (exists after', after = Resolved c :: after') \/ after = [Rejected c].

Definition isSave (c : Call) : bool :=
  match c with saveObjects _ _ => true | _ => false end.

(** The planned calls before the final move. *)
Definition beforeMove : list Call :=
  [initIndex "pages"; initIndex "pages_tmp";
   copyIndex "pages" "pages_tmp" ["settings"; "synonyms"; "rules"];
   query publishedPostsQuery] ++
  (publishedRows ≫=
     fun row => [getFullPost row; formatPost (fullPostOf row) false]) ++
  (saveObjects "pages_tmp" <$> slices allRecords).

(** A computation follows a list of calls from the events [start] on: it
    awaits them one after the other, adds the events [tail] and returns [a],
    or stops at the first call that rejects. *)
Definition followsPlan {A} (tail : list Event) (calls : list Call)
    (start : list Event) (a : A) (out : Outcome A * list Event) : Prop :=
  out = (Done a, start ++ awaited calls ++ tail) \/
  exists finished c rest,
    calls = finished ++ c :: rest /\
    rejects (start ++ awaited finished ++ [Started c]) c = true /\
    out = (Aborted, start ++ awaited finished ++ [Started c; Rejected c]).

End Run.

End IndexToAlgolia.

(* ===================================================================== *)
(** * Sample inputs *)
(* ===================================================================== *)

Module Samples.
Import JS SortOrder DataTableTransform DataTable.
Import CovidDataExplorer.

(** A table of one dimension shown as a range. *)
Definition rangeTable : DataTableTransform.t :=
  {| dimensionsWithValues :=
       [ {| dimension := 72;
            columns := [ {| key := range start; sortable := true |};
                         {| key := range end_; sortable := true |} ] |} ];
     DataTableTransform.displayRows := [] |}.

Definition valueOf (n : JSNumber) : option DimensionValue :=
  Some (SingleValue (Some {| value := Some (VNumber n);
                             formattedValue := None; year := None |})).

Definition rowOf (e : string) (v : option DimensionValue) : DataTableRow :=
  {| entity := e; dimensionValues := [v] |}.

Definition oneColumn (rows : list DataTableRow) : DataTableTransform.t :=
  {| dimensionsWithValues :=
       [ {| dimension := 72;
            columns := [ {| key := single; sortable := true |} ] |} ];
     DataTableTransform.displayRows := rows |}.

(** JavaScript's [ToNumber] on text that is not a numeric literal. *)
Definition notANumber (s : string) : JSNumber := NaN.

Definition byValue (o : SortOrder) : DataTableSortState :=
  {| dimIndex := 0; columnKey := Some single; order := o |}.

(** Rows of a dimension shown as a range, with their start and end. *)
Definition numberOf (z : Z) : option Value :=
  Some {| value := Some (VNumber (Finite z));
          formattedValue := None; year := None |}.

Definition rangeOf (s e : Z) : option DimensionValue :=
  Some (RangeValueOf {| rv_start := numberOf s; rv_end := numberOf e;
                        rv_delta := None; rv_deltaRatio := None |}).

Definition rangeColumns (rows : list DataTableRow) : DataTableTransform.t :=
  {| dimensionsWithValues := dimensionsWithValues rangeTable;
     DataTableTransform.displayRows := rows |}.

Definition byEnd (o : SortOrder) : DataTableSortState :=
  {| dimIndex := 0; columnKey := Some (range end_); order := o |}.

Definition byStart (o : SortOrder) : DataTableSortState :=
  {| dimIndex := 0; columnKey := Some (range start); order := o |}.

Definition sampleParams : CovidQueryParams :=
  {| casesMetric := true; testsMetric := false; deathsMetric := false;
     cfrMetric := false; testsPerCaseMetric := false;
     positiveTestRate := false;
     totalFreq := false; dailyFreq := true; perCapita := true;
     aligned := false; hideControls := false; smoothing := 7;
     selectedCountryCodes := {[ "USA"; "GBR" ]} |}.

(** A stand-in for [buildCovidVariableId]: a positive id made from its
    arguments. *)
Definition sampleVariableId (columnName : MetricKind) (perCapita : Z)
    (smoothing : Z) (daily : bool) : Z :=
  1145 * 10 ^ 10 +
  (match columnName with
   | tests => 1 | cases => 2 | deaths => 3 | case_fatality_rate => 4
   | tests_per_case => 5 | positive_test_rate => 6
   end) * 10 ^ 9 +
  Z.abs perCapita * 100 + Z.abs smoothing * 10 + (if daily then 1 else 0).

End Samples.

Module SampleSite.
Import IndexToAlgolia.

Definition sampleCountries : list Country :=
  [ {| country_name := "Chile"; country_slug := "chile" |} ].

Definition samplePost (n : nat) (t s : string) : WpPost :=
  {| ID := n; post_type := t; post_status := s; post_name := "entry";
     post_title := "Entry"; post_content := "<p>Text</p>" |}.

Definition samplePosts : list WpPost :=
  [ samplePost 7 "post" "publish"; samplePost 8 "post" "draft";
    samplePost 9 "page" "publish"; samplePost 10 "attachment" "publish" ].

Definition sampleFullPost (row : WpPost) : FullPost :=
  {| fp_id := ID row; fp_type := post_type row; fp_slug := post_name row;
     fp_title := post_title row; fp_content := post_content row |}.

Definition sampleFormatted (p : FullPost) : FormattedPost :=
  {| id := fp_id p; type := fp_type p; slug := fp_slug p;
     title := fp_title p; excerpt := ""; authors := ["Author"];
     date := "2020-05-01"; modifiedDate := "2020-05-02";
     html := fp_content p |}.

(** Stand-ins for [htmlToPlaintext] and [chunkParagraphs]: the text as it
    is, and [pieces] chunks that each hold it. *)
Definition samplePlaintext (html : string) : string := html.

Definition sampleChunks (pieces : nat) (text : string) (size : nat)
    : list string :=
  replicate pieces text.

Definition neverRejects (events : list Event) (c : Call) : bool := false.

End SampleSite.

(* ===================================================================== *)
(** * More vocabulary for sorting and the data table *)
(* ===================================================================== *)

From Stdlib Require DecimalNat.

Module ListOrder.

(** [x] stands at an earlier place of [l] than [y]. *)
Definition occursBefore {A} (x y : A) (l : list A) : Prop :=
  exists i j, (i < j)%nat /\ l !! i = Some x /\ l !! j = Some y.

(** Two entries of [baseOrderBy] stand in the order [R] of their elements,
    and in the order of their places when [R] holds both ways. *)
Definition entryBefore {A} (R : relation A) : relation (Lodash.Entry A) :=
  fun e1 e2 =>
    R (Lodash.value e1) (Lodash.value e2) /\
    (R (Lodash.value e2) (Lodash.value e1) ->
     (Lodash.index e1 <= Lodash.index e2)%nat).

End ListOrder.

Module DataTableOrder.
Import SortOrder DataTableTransform DataTable DataTableSpec.

(** The sorted column is the entity column, or holds numbers (or nothing) in
    every row, or holds a string in every row. *)
Definition comparableColumn (sort : DataTableSortState)
    (rows : list DataTableRow) : Prop :=
  dimIndex sort = ENTITY_DIM_INDEX \/
  (dimIndex sort <> ENTITY_DIM_INDEX /\ Forall (numericColumn sort) rows) \/
  (dimIndex sort <> ENTITY_DIM_INDEX /\ Forall (textColumn sort) rows).

End DataTableOrder.

(* ===================================================================== *)
(** * More of charts/covidDataExplorer/CovidDataExplorer.tsx *)
(* ===================================================================== *)

(** ** The interval picker and the selection commands *)

Module CovidControls.
Import CovidDataExplorer.

(** Assignments [this.props.params.<field> = x]. *)
Definition set_totalFreq (b : bool) (p : CovidQueryParams) :=
  {| casesMetric := casesMetric p; testsMetric := testsMetric p;
     deathsMetric := deathsMetric p; cfrMetric := cfrMetric p;
     testsPerCaseMetric := testsPerCaseMetric p;
     positiveTestRate := positiveTestRate p;
     totalFreq := b; dailyFreq := dailyFreq p;
     perCapita := perCapita p; aligned := aligned p;
     hideControls := hideControls p; smoothing := smoothing p;
     selectedCountryCodes := selectedCountryCodes p |}.

Definition set_dailyFreq (b : bool) (p : CovidQueryParams) :=
  {| casesMetric := casesMetric p; testsMetric := testsMetric p;
     deathsMetric := deathsMetric p; cfrMetric := cfrMetric p;
     testsPerCaseMetric := testsPerCaseMetric p;
     positiveTestRate := positiveTestRate p;
     totalFreq := totalFreq p; dailyFreq := b;
     perCapita := perCapita p; aligned := aligned p;
     hideControls := hideControls p; smoothing := smoothing p;
     selectedCountryCodes := selectedCountryCodes p |}.

Definition set_smoothing (n : Z) (p : CovidQueryParams) :=
  {| casesMetric := casesMetric p; testsMetric := testsMetric p;
     deathsMetric := deathsMetric p; cfrMetric := cfrMetric p;
     testsPerCaseMetric := testsPerCaseMetric p;
     positiveTestRate := positiveTestRate p;
     totalFreq := totalFreq p; dailyFreq := dailyFreq p;
     perCapita := perCapita p; aligned := aligned p;
     hideControls := hideControls p; smoothing := n;
     selectedCountryCodes := selectedCountryCodes p |}.

Definition setTotalFrequencyCommand (option : bool)
    (params : CovidQueryParams) : CovidQueryParams :=
  set_totalFreq option params.

Definition setDailyFrequencyCommand (option : bool)
    (params : CovidQueryParams) : CovidQueryParams :=
  set_dailyFreq option params.

Definition setSmoothingCommand (option : Z)
    (params : CovidQueryParams) : CovidQueryParams :=
  set_smoothing option params.

(** A [ControlOption] whose [onChange] reads the value the control hands
    it; its effect on [this.props.params] is given. *)
Record ControlOption : Type := {
  available : bool;
  label : string;
  checked : bool;
  onChange : bool -> CovidQueryParams -> CovidQueryParams
}.

(** [get frequencyPicker()]: its options.  The two flags are
    [constrainedParams.available.smoothing] and
    [constrainedParams.available.dailyFreq], computed outside the file;
    [params] is [this.props.params], which the third option reads. *)
Definition frequencyPicker (constrainedParams : CovidQueryParams)
    (smoothingAvailable dailyFreqAvailable : bool)
    (params : CovidQueryParams) : list ControlOption :=
  [ {| available := true;
       label := "Cumulative";
       checked := totalFreq constrainedParams;
       onChange := fun value params =>
         let params := setTotalFrequencyCommand value params in
         let params := setDailyFrequencyCommand false params in
         let params := setSmoothingCommand 0 params in
         updateChart params |};
    {| available := smoothingAvailable;
       label := "7-day rolling average";
       checked := bool_decide (smoothing constrainedParams = 7);
       onChange := fun _ params =>
         let params := setSmoothingCommand 7 params in
         let params := updateChart params in
         let params := setDailyFrequencyCommand true params in
         let params := setTotalFrequencyCommand false params in
         params |};
    {| available := dailyFreqAvailable;
       label := "New per day";
       checked := dailyFreq constrainedParams
                  && bool_decide (smoothing params = 0);
       onChange := fun value params =>
         let params := setDailyFrequencyCommand value params in
         let params := setTotalFrequencyCommand false params in
         let params := setSmoothingCommand 0 params in
         updateChart params |} ].

(** [clearSelectionCommand()] *)
Definition clearSelectionCommand (params : CovidQueryParams)
    : CovidQueryParams :=
  let params := set_selectedCountryCodes ∅ params in
  updateChart params.

(** [toggleSelectedCountryCommand(code, value?)].  The parameters hold the
    selected codes as the set of the members of the JavaScript [Set]; the
    order in which the [Set] lists them is not part of the model. *)
Definition toggleSelectedCountryCommand (code : string) (value : option bool)
    (params : CovidQueryParams) : CovidQueryParams :=
  let params := toggleSelectedCountry code value params in
  updateChart params.

(** The radio buttons of a group of which only number [n] is checked. *)
Definition onlyChecked (n size : nat) : list bool :=
  (fun m => bool_decide (m = n)) <$> seq 0 size.

(** The six handlers of the metric picker, in the order of its two
    columns. *)
Definition metricHandlers (constrainedParams : CovidQueryParams)
    : list (CovidQueryParams -> CovidQueryParams) :=
  CovidDataExplorer.onChange <$>
    (fst (metricPicker constrainedParams)
     ++ snd (metricPicker constrainedParams)).

(** The flags [checked] of the metric picker, in the same order. *)
Definition metricChecked (constrainedParams : CovidQueryParams) : list bool :=
  CovidDataExplorer.checked <$>
    (fst (metricPicker constrainedParams)
     ++ snd (metricPicker constrainedParams)).

(** The column each of the six metric options stands for, in the same
    order. *)
Definition metricColumns : list MetricKind :=
  [cases; deaths; case_fatality_rate; tests; tests_per_case;
   positive_test_rate].

End CovidControls.

(** ** Changes of the selection made in the chart *)

Module CovidSelection.
Import CovidDataExplorer.

(** lodash's [difference(array, values)]: the elements of [array] that are
    not in [values], in the order of [array]. *)
Definition difference (array values : list string) : list string :=
  filter (fun x => x ∉ values) array.

(** What the observer of [chart.data.selectedEntityCodes] reads and
    writes. *)
Record SelectionState : Type := {
  selectionChangeFromBuilder : bool;
  params : CovidQueryParams
}.

(** The changes MobX reports for an object property; [oldValue] may be
    absent. *)
Inductive Change : Type :=
| update (newValue : list string) (oldValue : option (list string))
| add (newValue : list string)
| remove (oldValue : list string).

(** [forEach] over codes with a command on the parameters. *)
Definition forEach (codes : list string)
    (f : string -> CovidQueryParams -> CovidQueryParams)
    (p : CovidQueryParams) : CovidQueryParams :=
  foldl (fun p code => f code p) p codes.

(** The listener [observeChartEntitySelection] installs. *)
Definition observeChartEntitySelection (st : SelectionState)
    (change : Change) : SelectionState :=
  if selectionChangeFromBuilder st then
    {| selectionChangeFromBuilder := false; params := params st |}
  else
    match change with
    | update newValue oldValue =>
        let newCodes := newValue in
        let oldCodes := default [] oldValue in
        let added := difference newCodes oldCodes in
        let removed := difference oldCodes newCodes in
        let p := forEach added
                   (fun code => toggleSelectedCountry code (Some true))
                   (params st) in
        let p := forEach removed
                   (fun code => toggleSelectedCountry code (Some false)) p in
        {| selectionChangeFromBuilder := selectionChangeFromBuilder st;
           params := updateChart p |}
    | _ => st
    end.

End CovidSelection.

(** ** Countries, their indices and their colours *)

(** A JavaScript object with string keys that are not array indices: its
    own properties in the order in which they were first set. *)
Module JSObject.

Definition t (V : Type) : Type := list (string * V).

(** [obj[k]] for an own property. *)
Fixpoint get {V} (k : string) (obj : t V) : option V :=
  match obj with
  | [] => None
  | (k', v) :: rest => if decide (k' = k) then Some v else get k rest
  end.

(** [k in obj], for own properties. *)
Definition has {V} (k : string) (obj : t V) : bool :=
  bool_decide (is_Some (get k obj)).

(** [obj[k] = v] *)
Fixpoint set {V} (k : string) (v : V) (obj : t V) : t V :=
  match obj with
  | [] => [(k, v)]
  | (k', v') :: rest =>
      if decide (k' = k) then (k, v) :: rest else (k', v') :: set k v rest
  end.

(** [Object.keys(obj)] and [Object.values(obj)] *)
Definition keys {V} (obj : t V) : list string := fst <$> obj.
Definition values {V} (obj : t V) : list V := snd <$> obj.

(** lodash's [pick(object, paths)] for paths that are plain keys: the
    properties of [object] named by [paths], set in the order of [paths]. *)
Definition pick {V} (object : t V) (paths : list string) : t V :=
  foldl (fun result path =>
           match get path object with
           | Some value => set path value result
           | None => result
           end) [] paths.

End JSObject.

Module CovidCountries.
Import CovidDataExplorer.

(** The fields of a [CountryOption] that the maps read. *)
Record CountryOption : Type := {
  name : string;
  code : string
}.

(** An entry of [entityKey]. *)
Record EntityMeta : Type := {
  em_name : string;
  em_code : string;
  em_id : nat
}.

(** [array.forEach((element, index) => ...)] building a [Map] or an object
    from the empty one. *)
Definition forEachIndexed {A M} (array : list A) (f : A -> nat -> M -> M)
    (empty : M) : M :=
  foldl (fun map entry => f (snd entry) (fst entry) map) empty
    (imap pair array).

Section Countries.

(** [this.countryOptions], made from the data by [makeCountryOptions]. *)
Variable countryOptions : list CountryOption.

(** [get selectedCountryOptions()] *)
Definition selectedCountryOptions (params : CovidQueryParams)
    : list CountryOption :=
  filter (fun option => code option ∈ selectedCountryCodes params)
    countryOptions.

(** [get countryMap()] *)
Definition countryMap : gmap string nat :=
  forEachIndexed countryOptions
    (fun country index map => <[name country := index]> map) ∅.

(** [get countryCodeMap()] *)
Definition countryCodeMap : gmap string nat :=
  forEachIndexed countryOptions
    (fun country index map => <[code country := index]> map) ∅.

(** [get countryCodeToNameMap()] *)
Definition countryCodeToNameMap : gmap string string :=
  forEachIndexed countryOptions
    (fun country index map => <[code country := name country]> map) ∅.

(** [get entityKey()] *)
Definition entityKey : gmap nat EntityMeta :=
  forEachIndexed countryOptions
    (fun country index key =>
       <[index := {| em_name := name country; em_code := code country;
                     em_id := index |}]> key) ∅.

(** [getLeastUsedColor] of [charts/ColorSchemes] and the colours of the
    scheme "owid-distinct" are not part of the file. *)
Variable getLeastUsedColor : list string -> list string -> option string.
Variable availableColors : list string.

(** The colours in use: the values that are not [undefined]. *)
Definition usedColors (newColorMap : JSObject.t (option string))
    : list string :=
  omap id (JSObject.values newColorMap).

(** [get countryCodeToColorMap()]: what it leaves in
    [_countryCodeToColorMapCache], which is also what it returns. *)
Definition countryCodeToColorMap (params : CovidQueryParams)
    (_countryCodeToColorMapCache : JSObject.t (option string))
    : JSObject.t (option string) :=
  let codes := code <$> selectedCountryOptions params in
  if negb (forallb (fun code => JSObject.has code _countryCodeToColorMapCache)
             codes)
  then
    let newColorMap := JSObject.pick _countryCodeToColorMapCache codes in
    let codesWithoutColor :=
      filter (fun code => JSObject.has code newColorMap = false) codes in
    foldl (fun newColorMap code =>
             JSObject.set code
               (getLeastUsedColor availableColors (usedColors newColorMap))
               newColorMap)
      newColorMap codesWithoutColor
  else _countryCodeToColorMapCache.

End Countries.

End CovidCountries.

(* ===================================================================== *)
(** * More vocabulary for scripts/indexToAlgolia.ts *)
(* ===================================================================== *)

Module IndexToAlgoliaPlan.
Import IndexToAlgolia.

(** The index a call writes to, if it writes to one: the destination of a
    copy or a move, the index objects are saved to. *)
Definition writesTo (c : Call) : option string :=
  match c with
  | copyIndex _ dst _ => Some dst
  | saveObjects indexName _ => Some indexName
  | moveIndex _ dst => Some dst
  | _ => None
  end.

(** The sizes of the consecutive slices of at most 1000 out of [n]
    elements. *)
Definition sliceSizes (n : nat) : list nat :=
  replicate (n / 1000) 1000%nat ++
  (if decide (n mod 1000 = 0)%nat then [] else [(n mod 1000)%nat]).

(** The object id of chunk [i] of the post of row id [rowId]. *)
Definition chunkObjectID (rowId i : nat) : string :=
  JS.decimal rowId +:+ "-c" +:+ JS.decimal i.

End IndexToAlgoliaPlan.

(* ===================================================================== *)
(** * More sample inputs *)
(* ===================================================================== *)

Module SampleExplorer.
Import CovidDataExplorer CovidCountries.

Definition sampleOptions : list CountryOption :=
  [ {| name := "Chile"; code := "CHL" |};
    {| name := "Ghana"; code := "GHA" |};
    {| name := "India"; code := "IND" |} ].

(** A stand-in for [getLeastUsedColor]: the first available colour that is
    used least often. *)
Definition countOf (used : list string) (c : string) : nat :=
  length (filter (fun u => u = c) used).

Definition sampleLeastUsed (available used : list string) : option string :=
  foldr (fun c best =>
           match best with
           | Some b =>
               if decide (countOf used c <= countOf used b)%nat
               then Some c else Some b
           | None => Some c
           end) None available.

Definition sampleColors : list string := ["#6d3e91"; "#c05917"; "#58ac8c"].

(** Chile and India are selected. *)
Definition sampleSelection : CovidQueryParams :=
  set_selectedCountryCodes {[ "CHL"; "IND" ]} Samples.sampleParams.

End SampleExplorer.

(* ===================================================================== *)
(** * Properties of [orderBy] *)
(* ===================================================================== *)

Module LodashProofs.
Import Lodash.

Lemma number_lt_asym a b :
  JS.number_lt a b = true -> JS.number_lt b a = false.
Proof.
  destruct a, b; simpl; try done.
  intros H%Z.ltb_lt. apply Z.ltb_ge. lia.
Qed.

Lemma string_ltb_asym x y : String.ltb x y = true -> String.ltb y x = false.
Proof.
  unfold String.ltb. rewrite (String.compare_antisym y x).
  by destruct (String.compare x y).
Qed.

Lemma string_compare_refl x : String.compare x x = Eq.
Proof. by apply String_as_OT.cmp_eq. Qed.

Lemma Sorted_fmap_on {B C} (f : B -> C) (P : B -> Prop)
    (R1 : relation B) (R2 : relation C) l :
  (forall x y, P x -> P y -> R1 x y -> R2 (f x) (f y)) ->
  Forall P l -> Sorted R1 l -> Sorted R2 (f <$> l).
Proof.
  intros HR HP Hs. induction Hs as [|x l Hs IH Hhd]; simpl; [constructor|].
  apply Forall_cons in HP as [Hx Hl]. constructor; [by apply IH|].
  destruct Hhd as [|y l' Hxy]; simpl; constructor.
  apply Forall_cons in Hl as [Hy _]. by apply HR.
Qed.

Section OrderBy.

Variable ToNumber : string -> JS.JSNumber.
Variable A : Type.

Local Abbreviation key_lt := (key_lt ToNumber).
Local Abbreviation key_gt := (key_gt ToNumber).
Local Abbreviation compareAscending := (compareAscending ToNumber).
Local Abbreviation compareMultiple := (compareMultiple ToNumber A).
Local Abbreviation Entry := (Entry A).

Lemma key_gt_lt a b : key_gt a b = key_lt b a.
Proof. by destruct a, b. Qed.

Lemma key_lt_asym a b : key_lt a b = true -> key_lt b a = false.
Proof.
  destruct a, b; try apply string_ltb_asym; apply number_lt_asym.
Qed.

Lemma compareAscending_antisym a b :
  compareAscending a b = - compareAscending b a.
Proof.
  unfold Lodash.compareAscending. rewrite !key_gt_lt.
  destruct (decide (a <> b)) as [Hne|Heq].
  - rewrite decide_True by congruence.
    destruct (key_lt b a) eqn:Hba.
    + by rewrite (key_lt_asym _ _ Hba).
    + by destruct (key_lt a b).
  - by rewrite decide_False by (intros ?; apply Heq; congruence).
Qed.

Lemma directed_opp orders r : directed orders (- r) = - directed orders r.
Proof. unfold directed. destruct (orders !! 0%nat); [|done]. lia. Qed.

Lemma compareMultiple_antisym (object other : Entry) orders :
  compareMultiple object other orders = - compareMultiple other object orders.
Proof.
  unfold Lodash.compareMultiple.
  rewrite (compareAscending_antisym (criteria object) (criteria other)).
  set (r := compareAscending (criteria other) (criteria object)).
  destruct (decide (r <> 0)) as [Hr|Hr].
  - rewrite decide_True by lia. fold (directed orders (- r)).
    fold (directed orders r). apply directed_opp.
  - rewrite decide_False by lia. lia.
Qed.

Lemma compareMultiple_directed (object other : Entry) orders :
  compareMultiple object other orders <= 0 ->
  directed orders (compareAscending (criteria object) (criteria other)) <= 0.
Proof.
  unfold Lodash.compareMultiple.
  set (r := compareAscending (criteria object) (criteria other)).
  destruct (decide (r <> 0)) as [Hr|Hr]; [done|].
  intros _. assert (r = 0) as -> by lia.
  unfold directed. destruct (orders !! 0%nat); lia.
Qed.

#[local] Instance inOrder_total orders :
  Total (inOrder A (fun object other => compareMultiple object other orders)).
Proof.
  intros a b. unfold inOrder.
  rewrite (compareMultiple_antisym a b). lia.
Qed.

Lemma value_imap (iteratee : A -> SortKey) (collection : list A) :
  forall g : nat -> nat,
  value <$> imap (fun i v => {| criteria := iteratee v; index := g i;
                                value := v |}) collection = collection.
Proof.
  induction collection as [|x l IH]; intros g; [done|].
  rewrite imap_cons. simpl. f_equal. apply (IH (g ∘ S)).
Qed.

(** [orderBy] returns the elements it was given, each once. *)
Lemma orderBy_Permutation collection iteratee orders :
  orderBy ToNumber A collection iteratee orders ≡ₚ collection.
Proof.
  unfold orderBy, baseOrderBy, baseSortBy.
  rewrite merge_sort_Permutation.
  pose proof (value_imap iteratee collection (fun i => i)) as Hv.
  simpl in Hv. by rewrite Hv.
Qed.

(** Whenever the criteria order the elements of the collection by a
    transitive relation [R], the result of [orderBy] is sorted by [R]. *)
Lemma orderBy_StronglySorted (R : relation A) `{!Transitive R}
    collection iteratee orders :
  (forall x y, x ∈ collection -> y ∈ collection ->
     directed orders (compareAscending (iteratee x) (iteratee y)) <= 0 ->
     R x y) ->
  StronglySorted R (orderBy ToNumber A collection iteratee orders).
Proof.
  intros HR. apply Sorted_StronglySorted; [done|].
  unfold orderBy, baseOrderBy, baseSortBy.
  set (entries := imap _ collection).
  set (comparer := fun object other => compareMultiple object other orders).
  apply (Sorted_fmap_on value
           (fun e => criteria e = iteratee (value e) /\ value e ∈ collection)
           (inOrder A comparer)).
  - intros x y [Hx Hxin] [Hy Hyin] Hxy.
    apply HR; [done..|]. rewrite <- Hx, <- Hy.
    by apply compareMultiple_directed.
  - rewrite merge_sort_Permutation. apply Forall_forall.
    intros e He. unfold entries in He.
    apply list_elem_of_lookup in He as [i Hi].
    rewrite list_lookup_imap in Hi.
    destruct (collection !! i) as [v|] eqn:Hv; [|done].
    injection Hi as <-. simpl. split; [done|].
    by eapply list_elem_of_lookup_2.
  - apply Sorted_merge_sort. apply _.
Qed.

End OrderBy.

End LodashProofs.

(* ===================================================================== *)
(** * Properties of the data table *)
(* ===================================================================== *)

Module DataTableProofs.
Import JS SortOrder DataTableTransform DataTable DataTableSpec Samples.

Lemma index_Some_range {A} (arr : list A) (i : Z) (x : A) :
  JS.index arr i = Some x -> 0 <= i < Z.of_nat (length arr).
Proof.
  unfold JS.index. destruct (Z.ltb_spec i 0) as [?|Hge]; [discriminate|].
  intros H%lookup_lt_Some. lia.
Qed.

Lemma index_in_range {A} (arr : list A) (i : Z) :
  0 <= i < Z.of_nat (length arr) -> is_Some (JS.index arr i).
Proof.
  intros [Hlo Hhi]. unfold JS.index.
  destruct (Z.ltb_spec i 0) as [?|_]; [lia|].
  apply lookup_lt_is_Some. lia.
Qed.

Lemma dimensions_length transform :
  length (dimensions transform) = length (dimensionsWithValues transform).
Proof. unfold dimensions. apply length_map. Qed.

Lemma includes_false available k :
  includes available k = false <-> k ∉ available.
Proof. unfold includes. apply bool_decide_eq_false. Qed.

(** The column key [sortState] derives, spelled out. *)
Lemma sortState_eq transform stored :
  ENTITY_DIM_INDEX <= dimIndex stored ->
  let clamped :=
    Z.min (dimIndex stored) (Z.of_nat (length (dimensions transform)) - 1) in
  let available := availableColumnKeys transform clamped in
  sortState transform stored =
    Some {| dimIndex := clamped;
            columnKey :=
              if decide (clamped <> ENTITY_DIM_INDEX /\
                         columnKeyUnavailable available (columnKey stored))
              then head available else columnKey stored;
            order := order stored |}.
Proof.
  intros Hlo clamped available. unfold sortState.
  fold clamped. destruct (decide (clamped <> ENTITY_DIM_INDEX)) as [Hne|He].
  - assert (Hr : 0 <= clamped < Z.of_nat (length (dimensionsWithValues transform))).
    { rewrite <- dimensions_length. unfold ENTITY_DIM_INDEX in *. lia. }
    destruct (index_in_range _ _ Hr) as [dim Hdim].
    assert (Hav : available = map key (columns dim)).
    { unfold available, availableColumnKeys. by rewrite Hdim. }
    rewrite Hdim, <- Hav. do 2 f_equal.
    destruct (columnKey stored) as [k|]; simpl.
    + destruct (includes available k) eqn:Hinc; simpl.
      * rewrite decide_False; [done|]. intros [_ Hk].
        apply includes_false in Hk. congruence.
      * rewrite decide_True; [done|]. split; [done|].
        by apply includes_false.
    + by rewrite decide_True.
  - rewrite decide_False; [done|]. tauto.
Qed.

(** C3: from every stored sort state whose dimension index is the entity
    column or above, [sortState] derives the state with the index clamped to
    the number of dimensions minus one, the order unchanged, and the column
    key replaced by the first column of the clamped dimension exactly when
    that index is not the entity column and the stored key is undefined or
    not among that dimension's keys; a stored state already in range is
    returned unchanged. *)
Theorem sortState_fallback transform stored :
  ENTITY_DIM_INDEX <= dimIndex stored ->
  let clamped :=
    Z.min (dimIndex stored) (Z.of_nat (length (dimensions transform)) - 1) in
  let available := availableColumnKeys transform clamped in
  let falls_back :=
    clamped <> ENTITY_DIM_INDEX /\
    columnKeyUnavailable available (columnKey stored) in
  exists derived,
    sortState transform stored = Some derived /\
    dimIndex derived = clamped /\
    order derived = order stored /\
    (falls_back -> columnKey derived = head available) /\
    (~ falls_back -> columnKey derived = columnKey stored) /\
    (~ falls_back ->
     dimIndex stored <= Z.of_nat (length (dimensions transform)) - 1 ->
     derived = stored).
Proof.
  intros Hlo clamped available falls_back.
  eexists. split; [by apply sortState_eq|]. simpl.
  fold clamped available falls_back.
  split; [done|]. split; [done|].
  split; [|split].
  - intros Hf. by rewrite decide_True.
  - intros Hf. by rewrite decide_False.
  - intros Hf Hle. rewrite decide_False by done.
    destruct stored as [d k o]; simpl in *. f_equal. unfold clamped. lia.
Qed.

Lemma sortState_fallback_witness :
  exists derived,
    sortState rangeTable
      {| dimIndex := 4; columnKey := Some single; order := desc |}
      = Some derived /\
    dimIndex derived = 0 /\
    order derived = desc /\
    columnKey derived = Some (range start).
Proof.
  destruct (sortState_fallback rangeTable
              {| dimIndex := 4; columnKey := Some single; order := desc |})
    as (derived & Heq & Hd & Ho & Hfb & _).
  { unfold ENTITY_DIM_INDEX. simpl. lia. }
  exists derived. split; [exact Heq|]. split; [exact Hd|].
  split; [exact Ho|]. rewrite Hfb; [reflexivity|].
  split; [vm_compute; discriminate|].
  vm_compute. intros H. by repeat (inversion H as [|? ? ? H']; clear H; rename H' into H).
Defined.

(** Every stored state that header clicks can produce from the default one
    has a dimension index of at least the entity column, and no click on the
    way throws. *)
Lemma clicks_in_range cs : forall stored,
  ENTITY_DIM_INDEX <= dimIndex stored ->
  exists stored', clicks stored cs = Some stored' /\
                  ENTITY_DIM_INDEX <= dimIndex stored'.
Proof.
  induction cs as [|[transform c] cs IH]; intros stored Hlo; simpl.
  - eauto.
  - assert (Hstep : exists stored', onClick transform stored c = Some stored'
                    /\ ENTITY_DIM_INDEX <= dimIndex stored').
    { unfold onClick, updateSort, tableState_sort.
      rewrite (sortState_eq transform stored Hlo).
      destruct c as [|i [|]|i k]; eexists; (split; [reflexivity|]); simpl;
        unfold ENTITY_DIM_INDEX in *; lia. }
    destruct Hstep as (stored' & -> & Hlo'). by apply IH.
Qed.

Lemma clicks_from_default cs :
  exists stored', clicks DEFAULT_SORT_STATE cs = Some stored' /\
                  ENTITY_DIM_INDEX <= dimIndex stored'.
Proof. apply clicks_in_range. done. Qed.

Lemma head_includes (available : list ColumnKey) k :
  head available = Some k -> includes available k = true.
Proof.
  destruct available as [|k' ?]; simpl; [discriminate|].
  intros [= ->]. unfold includes. apply bool_decide_eq_true. left.
Qed.

(** Deriving the sort state again from a derived state changes nothing,
    whatever order is put in it. *)
Lemma sortState_derived_fixed transform stored cur o :
  sortState transform stored = Some cur ->
  sortState transform
    {| dimIndex := dimIndex cur; columnKey := columnKey cur; order := o |}
  = Some {| dimIndex := dimIndex cur; columnKey := columnKey cur;
            order := o |}.
Proof.
  unfold sortState. simpl.
  set (n := Z.of_nat (length (dimensions transform))).
  set (clamped := Z.min (dimIndex stored) (n - 1)).
  assert (Hmin : Z.min clamped (n - 1) = clamped) by (unfold clamped; lia).
  destruct (decide (clamped <> ENTITY_DIM_INDEX)) as [Hne|He].
  - destruct (JS.index (dimensionsWithValues transform) clamped)
      as [dim|] eqn:Hdim; [|discriminate].
    intros [= <-]. simpl. rewrite Hmin, decide_True, Hdim by done.
    do 2 f_equal.
    set (available := map key (columns dim)).
    destruct (columnKey stored) as [k|].
    + destruct (includes available k) eqn:Hinc; simpl.
      * by rewrite Hinc.
      * destruct (head available) as [k'|] eqn:Hhd; [|done].
        by rewrite (head_includes _ _ Hhd).
    + destruct (head available) as [k'|] eqn:Hhd; [|done].
      by rewrite (head_includes _ _ Hhd).
  - intros [= <-]. simpl. rewrite Hmin. by rewrite decide_False.
Qed.

(** C8: with [cur] the current sort state, [updateSort] called with the
    dimension index and column key of [cur] stores the same column with the
    order inverted (ascending becomes descending and descending ascending),
    and that column is the one then shown as sorted; called with any other
    pair it stores that pair with ascending order. *)
Theorem updateSort_toggles transform stored cur :
  sortState transform stored = Some cur ->
  (let stored' := {| dimIndex := dimIndex cur; columnKey := columnKey cur;
                     order := inverseSortOrder (order cur) |} in
   updateSort transform stored (dimIndex cur) (columnKey cur) = Some stored' /\
   sortState transform stored' = Some stored') /\
  inverseSortOrder asc = desc /\
  inverseSortOrder desc = asc /\
  (forall d k,
     (d, k) <> (dimIndex cur, columnKey cur) ->
     updateSort transform stored d k =
       Some {| dimIndex := d; columnKey := k; order := asc |}).
Proof.
  intros Hcur. split; [|split; [done|split; [done|]]].
  - split.
    + unfold updateSort, tableState_sort. rewrite Hcur.
      by rewrite !bool_decide_eq_true_2.
    + by apply sortState_derived_fixed with (stored := stored).
  - intros d k Hne. unfold updateSort, tableState_sort. rewrite Hcur.
    destruct (bool_decide (dimIndex cur = d)) eqn:Hd;
      destruct (bool_decide (columnKey cur = k)) eqn:Hk; simpl; try done.
    apply bool_decide_eq_true in Hd, Hk. congruence.
Qed.

Lemma updateSort_toggles_witness :
  updateSort rangeTable
    {| dimIndex := 0; columnKey := Some (range end_); order := asc |}
    0 (Some (range end_))
  = Some {| dimIndex := 0; columnKey := Some (range end_); order := desc |} /\
  updateSort rangeTable
    {| dimIndex := 0; columnKey := Some (range end_); order := asc |}
    0 (Some (range start))
  = Some {| dimIndex := 0; columnKey := Some (range start); order := asc |}.
Proof.
  destruct (updateSort_toggles rangeTable
              {| dimIndex := 0; columnKey := Some (range end_); order := asc |}
              {| dimIndex := 0; columnKey := Some (range end_); order := asc |})
    as ((Hsame & _) & _ & _ & Hother).
  { reflexivity. }
  split; [exact Hsame|]. apply Hother. simpl. congruence.
Defined.

(** ** The displayed rows *)

Lemma string_le_trans a b c : string_le a b -> string_le b c -> string_le a c.
Proof.
  unfold string_le, String.leb.
  destruct (String.compare a b) eqn:Hab; [|destruct (String.compare b c) eqn:Hbc|done].
  - apply String_as_OT.cmp_eq in Hab as ->. done.
  - apply String_as_OT.cmp_eq in Hbc as <-. by rewrite Hab.
  - apply String_as_OT.cmp_lt in Hab, Hbc.
    pose proof (String_as_OT.lt_trans _ _ _ Hab Hbc) as Hac.
    apply String_as_OT.cmp_lt in Hac. unfold String_as_OT.cmp in Hac.
    by rewrite Hac.
  - done.
Qed.

#[local] Instance entityOrdered_trans o : Transitive (entityOrdered o).
Proof.
  intros x y z. unfold entityOrdered. destruct o; simpl; unfold flip.
  - apply string_le_trans.
  - intros ? ?. by eapply string_le_trans.
Qed.

#[local] Instance textOrdered_trans sort : Transitive (textOrdered sort).
Proof.
  intros x y z. unfold textOrdered. destruct (order sort); simpl; unfold flip.
  - apply string_le_trans.
  - intros ? ?. by eapply string_le_trans.
Qed.

#[local] Instance valueOrdered_trans sort : Transitive (valueOrdered sort).
Proof.
  intros x y z. unfold valueOrdered.
  destruct (finiteValue sort x), (finiteValue sort y), (finiteValue sort z);
    try done.
  destruct (order sort); simpl; unfold flip; lia.
Qed.

Import DataTableCells.

#[local] Instance columnOrdered_trans sort : Transitive (columnOrdered sort).
Proof.
  intros x y z. unfold columnOrdered.
  destruct (columnNumber sort x), (columnNumber sort y),
    (columnNumber sort z); try done.
  destruct (order sort); simpl; unfold flip; lia.
Qed.

#[local] Instance columnTextOrdered_trans sort :
  Transitive (columnTextOrdered sort).
Proof.
  intros x y z. unfold columnTextOrdered.
  destruct (order sort); simpl; unfold flip.
  - apply string_le_trans.
  - intros ? ?. by eapply string_le_trans.
Qed.

(** What the sort reads from a row is the value of the row in the selected
    column, as long as the row's value is of the kind of that column. *)
Lemma selectedValue_columnValue sort row :
  valueFitsColumn sort row ->
  selectedValue sort row = columnValue sort row.
Proof.
  unfold valueFitsColumn, selectedValue, columnValue, cellOf, cellValue.
  destruct (mjoin (JS.index (dimensionValues row) (dimIndex sort)))
    as [[v|r]|].
  - by intros ->.
  - intros _. by destruct (columnKey sort) as [[|k]|].
  - intros _. by destruct (columnKey sort) as [[|k]|].
Qed.

Section DisplayRows.

Variable ToNumber : string -> JSNumber.

Local Abbreviation compareAscending := (Lodash.compareAscending ToNumber).

Lemma directed_asc r : Lodash.directed [to_string asc] r = r.
Proof. unfold Lodash.directed. simpl. lia. Qed.

Lemma directed_desc r : Lodash.directed [to_string desc] r = - r.
Proof. unfold Lodash.directed. simpl. lia. Qed.

(** Entity names compare by the order of strings. *)
Lemma entity_criteria_ordered o e1 e2 :
  Lodash.directed [to_string o]
    (compareAscending (Lodash.KString e1) (Lodash.KString e2)) <= 0 ->
  ordered o string_le e1 e2.
Proof.
  unfold Lodash.compareAscending, string_le. simpl.
  unfold String.ltb, String.leb. rewrite (String.compare_antisym e2 e1).
  destruct (decide (Lodash.KString e1 <> Lodash.KString e2)) as [Hne|Heq].
  - destruct o; [rewrite directed_asc|rewrite directed_desc]; simpl;
      unfold flip; rewrite ?(String.compare_antisym e2 e1);
      destruct (String.compare e1 e2) eqn:Hc; simpl; try done; try lia.
  - assert (e1 = e2) as -> by (destruct (decide (e1 = e2)); [done|];
      exfalso; apply Heq; congruence).
    intros _. destruct o; simpl; unfold flip; by rewrite LodashProofs.string_compare_refl.
Qed.

(** The criterion of a row in a numeric column. *)
Lemma numeric_criterion sort row :
  dimIndex sort <> ENTITY_DIM_INDEX ->
  numericColumn sort row ->
  sortValueOf sort row =
    match finiteValue sort row with
    | Some z => Lodash.KFinite z
    | None => undefinedLast (order sort)
    end.
Proof.
  intros Hd Hnum. unfold sortValueOf, finiteValue.
  rewrite decide_False by done.
  destruct (selectedValue sort row) as [[[]|s]|] eqn:Hv; try done.
  by destruct (Hnum s).
Qed.

(** Numbers compare by their value, the placeholder of a missing value
    coming last in either order. *)
Lemma value_criteria_ordered sort r1 r2 :
  dimIndex sort <> ENTITY_DIM_INDEX ->
  numericColumn sort r1 -> numericColumn sort r2 ->
  Lodash.directed [to_string (order sort)]
    (compareAscending (sortValueOf sort r1) (sortValueOf sort r2)) <= 0 ->
  valueOrdered sort r1 r2.
Proof.
  intros Hd H1 H2. rewrite !numeric_criterion by done. unfold valueOrdered.
  destruct (finiteValue sort r1) as [a|], (finiteValue sort r2) as [b|];
    destruct (order sort); rewrite ?directed_asc, ?directed_desc;
    unfold Lodash.compareAscending, undefinedLast; simpl; unfold flip;
    try done; try lia.
  all: destruct (decide (Lodash.KFinite a <> Lodash.KFinite b)) as [Hne|Heq];
    [ destruct (Z.ltb_spec b a), (Z.ltb_spec a b); lia
    | assert (a = b) by (destruct (decide (a = b)); [done|];
        exfalso; apply Heq; congruence); lia ].
Qed.

(** Texts compare by the order of strings. *)
Lemma text_criteria_ordered sort r1 r2 :
  dimIndex sort <> ENTITY_DIM_INDEX ->
  textColumn sort r1 -> textColumn sort r2 ->
  Lodash.directed [to_string (order sort)]
    (compareAscending (sortValueOf sort r1) (sortValueOf sort r2)) <= 0 ->
  textOrdered sort r1 r2.
Proof.
  intros Hd [s1 H1] [s2 H2]. unfold sortValueOf, textOrdered, textValue.
  rewrite !decide_False, H1, H2 by done. apply entity_criteria_ordered.
Qed.

End DisplayRows.

(** C1, as the code has it: for every chart and sort state the displayed rows
    are the rows of the transform, none added, dropped or changed, put in
    order: by entity name in the selected direction when the entity column is
    selected; otherwise by the value each row has in the selected column of
    the selected dimension (the value its cell there renders) in the selected
    direction, where, in a column of numbers, the rows whose value is missing
    or is not a finite number come last in either direction.  This is stated
    of rows whose value in the selected dimension is of the kind of the
    selected column.  (Columns that mix strings with numbers or with missing
    values are left aside.) *)
Theorem displayRows_sorted ToNumber transform stored cur :
  sortState transform stored = Some cur ->
  exists rows,
    displayRows ToNumber transform stored = Some rows /\
    rows ≡ₚ DataTableTransform.displayRows transform /\
    (dimIndex cur = ENTITY_DIM_INDEX ->
     StronglySorted (entityOrdered (order cur)) rows) /\
    (dimIndex cur <> ENTITY_DIM_INDEX ->
     Forall (valueFitsColumn cur) (DataTableTransform.displayRows transform) ->
     Forall (numberInColumn cur) (DataTableTransform.displayRows transform) ->
     StronglySorted (columnOrdered cur) rows) /\
    (dimIndex cur <> ENTITY_DIM_INDEX ->
     Forall (valueFitsColumn cur) (DataTableTransform.displayRows transform) ->
     Forall (textInColumn cur) (DataTableTransform.displayRows transform) ->
     StronglySorted (columnTextOrdered cur) rows).
Proof.
  intros Hcur. unfold displayRows, sortValueMapper, tableState_sort.
  rewrite Hcur. simpl. eexists. split; [reflexivity|].
  split; [apply LodashProofs.orderBy_Permutation|]. split; [|split].
  - intros Hd. apply LodashProofs.orderBy_StronglySorted; [apply _|].
    intros x y _ _. unfold sortValueOf. rewrite !decide_True by done.
    apply entity_criteria_ordered.
  - intros Hd Hfit Hnum.
    apply LodashProofs.orderBy_StronglySorted; [apply _|].
    rewrite Forall_forall in Hfit. rewrite Forall_forall in Hnum.
    intros x y Hx Hy Hle.
    pose proof (selectedValue_columnValue cur x (Hfit x Hx)) as Ex.
    pose proof (selectedValue_columnValue cur y (Hfit y Hy)) as Ey.
    assert (Hxy : valueOrdered cur x y).
    { apply (value_criteria_ordered ToNumber); try done.
      - intros s. rewrite Ex. apply (Hnum x Hx).
      - intros s. rewrite Ey. apply (Hnum y Hy). }
    unfold valueOrdered, finiteValue in Hxy.
    unfold columnOrdered, columnNumber. by rewrite <- Ex, <- Ey.
  - intros Hd Hfit Htext.
    apply LodashProofs.orderBy_StronglySorted; [apply _|].
    rewrite Forall_forall in Hfit. rewrite Forall_forall in Htext.
    intros x y Hx Hy Hle.
    pose proof (selectedValue_columnValue cur x (Hfit x Hx)) as Ex.
    pose proof (selectedValue_columnValue cur y (Hfit y Hy)) as Ey.
    assert (Hxy : textOrdered cur x y).
    { apply (text_criteria_ordered ToNumber); try done.
      - destruct (Htext x Hx) as [s Hs]. exists s. by rewrite Ex.
      - destruct (Htext y Hy) as [s Hs]. exists s. by rewrite Ey. }
    unfold textOrdered, textValue in Hxy.
    unfold columnTextOrdered, columnText. by rewrite <- Ex, <- Ey.
Qed.

Lemma displayRows_sorted_witness :
  exists rows,
    displayRows notANumber
      (rangeColumns [rowOf "Chile" (rangeOf 1 9); rowOf "Ghana" None;
                     rowOf "India" (rangeOf 2 4)])
      (byEnd asc) = Some rows /\
    map entity rows = ["India"; "Chile"; "Ghana"] /\
    StronglySorted (columnOrdered (byEnd asc)) rows.
Proof.
  destruct (displayRows_sorted notANumber
              (rangeColumns [rowOf "Chile" (rangeOf 1 9);
                             rowOf "Ghana" None;
                             rowOf "India" (rangeOf 2 4)])
              (byEnd asc) (byEnd asc))
    as (rows & Hrows & _ & _ & Hsorted & _).
  { reflexivity. }
  exists rows. split; [exact Hrows|]. split.
  - vm_compute in Hrows. injection Hrows as <-. reflexivity.
  - apply Hsorted; [vm_compute; discriminate|..].
    + repeat constructor.
    + repeat constructor; intros s; vm_compute; discriminate.
Defined.

(** The premise on the kind of the values is needed: under a range column
    the sort reads the value of a row that holds a single value, which no
    cell of that column shows.  Sorted by the start column, the row with the
    single value 1 is displayed before the row that starts at 3, although it
    has no start. *)
Lemma single_value_under_range_column :
  displayRows notANumber
    (rangeColumns [rowOf "Chile" (valueOf (Finite 1));
                   rowOf "Ghana" (rangeOf 3 5)])
    (byStart asc)
  = Some [rowOf "Chile" (valueOf (Finite 1)); rowOf "Ghana" (rangeOf 3 5)] /\
  columnValue (byStart asc) (rowOf "Chile" (valueOf (Finite 1))) = None /\
  ~ StronglySorted (columnOrdered (byStart asc))
      [rowOf "Chile" (valueOf (Finite 1)); rowOf "Ghana" (rangeOf 3 5)].
Proof.
  split; [reflexivity|]. split; [reflexivity|].
  intros H. apply StronglySorted_cons in H as [H _].
  apply Forall_cons in H as [H _]. vm_compute in H. exact H.
Qed.

(** C1 as worded fails on a column holding [Infinity]: sorted in descending
    order, the row with 5 is displayed before the row with [Infinity]. *)
Lemma displayRows_infinite_value_last :
  displayRows notANumber
    (oneColumn [rowOf "Chile" (valueOf PosInfinity);
                rowOf "Ghana" (valueOf (Finite 5))])
    (byValue desc)
  = Some [rowOf "Ghana" (valueOf (Finite 5));
          rowOf "Chile" (valueOf PosInfinity)] /\
  ~ StronglySorted (statedValueOrder (byValue desc))
      [rowOf "Ghana" (valueOf (Finite 5));
       rowOf "Chile" (valueOf PosInfinity)].
Proof.
  split; [reflexivity|].
  intros H. apply StronglySorted_cons in H as [H _].
  apply Forall_cons in H as [H _]. vm_compute in H. discriminate.
Qed.

(** A column that holds strings and a missing value gives criteria that
    lodash's comparison does not order consistently: the placeholder of the
    missing value ties with either string, and the strings differ.  What
    [Array.prototype.sort] returns for such a comparer depends on the engine,
    which is why the statement about the displayed rows leaves these columns
    aside. *)
Lemma mixed_column_inconsistent :
  Lodash.compareAscending notANumber (Lodash.KString "b") (undefinedLast asc)
    = 0 /\
  Lodash.compareAscending notANumber (undefinedLast asc) (Lodash.KString "a")
    = 0 /\
  Lodash.compareAscending notANumber (Lodash.KString "b") (Lodash.KString "a")
    = 1.
Proof. repeat split. Qed.

End DataTableProofs.

(* ===================================================================== *)
(** * Properties of the COVID data explorer *)
(* ===================================================================== *)

Module CovidDataExplorerProofs.
Import CovidDataExplorer Samples.

(** ** Metric picker *)

Lemma clearMetricsCommand_flags params :
  metricFlags (clearMetricsCommand params) =
    [false; false; false; false; false; false].
Proof. reflexivity. Qed.

(** C9: the metric picker has six change handlers, one for each metric
    flag.  Each is [clearMetricsCommand], which leaves all six metric flags
    false, followed by setting its flag to true; after it that flag is true
    and the five others are false, so that exactly one of the six flags is
    true. *)
Theorem metricPicker_exclusive constrainedParams params :
  let options :=
    (metricPicker constrainedParams).1 ++ (metricPicker constrainedParams).2 in
  Forall2
    (fun option setFlag =>
       onChange option params =
         updateChart (setFlag true (clearMetricsCommand params)))
    options
    [set_casesMetric; set_deathsMetric; set_cfrMetric;
     set_testsMetric; set_testsPerCaseMetric; set_positiveTestRate] /\
  (fun option => metricFlags (onChange option params)) <$> options =
    [ [true; false; false; false; false; false];
      [false; false; true; false; false; false];
      [false; false; false; true; false; false];
      [false; true; false; false; false; false];
      [false; false; false; false; true; false];
      [false; false; false; false; false; true] ] /\
  Forall
    (fun option =>
       (exists setFlag,
          setFlag ∈ [set_casesMetric; set_deathsMetric; set_cfrMetric;
                     set_testsMetric; set_testsPerCaseMetric;
                     set_positiveTestRate] /\
          onChange option params =
            updateChart (setFlag true (clearMetricsCommand params))) /\
       metricFlags (clearMetricsCommand params) =
         [false; false; false; false; false; false] /\
       metricCount (onChange option params) = 1%nat)
    options.
Proof.
  simpl. split; [|split].
  - repeat apply Forall2_cons_2; [..|apply Forall2_nil_2]; reflexivity.
  - reflexivity.
  - repeat apply Forall_cons_2; [..|apply Forall_nil_2];
      (split; [|split; [reflexivity|reflexivity]]).
    + exists set_casesMetric. split; [set_solver|done].
    + exists set_deathsMetric. split; [set_solver|done].
    + exists set_cfrMetric. split; [set_solver|done].
    + exists set_testsMetric. split; [set_solver|done].
    + exists set_testsPerCaseMetric. split; [set_solver|done].
    + exists set_positiveTestRate. split; [set_solver|done].
Qed.

Lemma metricPicker_exclusive_witness :
  (fun option => metricFlags (onChange option sampleParams)) <$>
    ((metricPicker sampleParams).1 ++ (metricPicker sampleParams).2) =
    [ [true; false; false; false; false; false];
      [false; false; true; false; false; false];
      [false; false; false; true; false; false];
      [false; true; false; false; false; false];
      [false; false; false; false; true; false];
      [false; false; false; false; false; true] ] /\
  Forall (fun option => metricCount (onChange option sampleParams) = 1%nat)
    ((metricPicker sampleParams).1 ++ (metricPicker sampleParams).2).
Proof.
  destruct (metricPicker_exclusive sampleParams sampleParams)
    as (_ & Hflags & Hone).
  split; [exact Hflags|].
  eapply Forall_impl; [exact Hone|].
  intros option (_ & _ & Hcount). exact Hcount.
Defined.

(** ** Country selection *)

(** C10: after [toggleSelectedCountry(code, value)] the code is selected when
    [value] is true, not selected when it is false, and selected exactly when
    it was not before when [value] is undefined; the membership of every
    other code is as before. *)
Theorem toggleSelectedCountry_membership code value params :
  let before := selectedCountryCodes params in
  let after := selectedCountryCodes (toggleSelectedCountry code value params) in
  (value = Some true -> code ∈ after) /\
  (value = Some false -> code ∉ after) /\
  (value = None -> (code ∈ after <-> code ∉ before)) /\
  (forall other, other <> code -> (other ∈ after <-> other ∈ before)).
Proof.
  unfold toggleSelectedCountry.
  destruct value as [[]|]; simpl.
  - split; [intros _; apply elem_of_union_l, elem_of_singleton_2; done|].
    split; [done|]. split; [done|].
    intros other Hne. rewrite elem_of_union, elem_of_singleton. tauto.
  - split; [done|].
    split; [intros _; rewrite elem_of_difference, elem_of_singleton; tauto|].
    split; [done|].
    intros other Hne. rewrite elem_of_difference, elem_of_singleton. tauto.
  - split; [done|]. split; [done|].
    destruct (decide (code ∈ selectedCountryCodes params)) as [Hin|Hout];
      simpl.
    + split.
      * intros _. rewrite elem_of_difference, elem_of_singleton. tauto.
      * intros other Hne. rewrite elem_of_difference, elem_of_singleton.
        tauto.
    + split.
      * intros _. rewrite elem_of_union, elem_of_singleton. tauto.
      * intros other Hne. rewrite elem_of_union, elem_of_singleton. tauto.
Qed.

Lemma toggleSelectedCountry_membership_witness :
  ("GBR" ∉ selectedCountryCodes
             (toggleSelectedCountry "GBR" None sampleParams)) /\
  ("USA" ∈ selectedCountryCodes
             (toggleSelectedCountry "GBR" None sampleParams)) /\
  ("FRA" ∈ selectedCountryCodes
             (toggleSelectedCountry "FRA" (Some true) sampleParams)).
Proof.
  destruct (toggleSelectedCountry_membership "GBR" None sampleParams)
    as (_ & _ & Hflip & Hother).
  destruct (toggleSelectedCountry_membership "FRA" (Some true) sampleParams)
    as (Hadd & _).
  split; [|split].
  - intros Hin. apply (Hflip eq_refl) in Hin. apply Hin.
    vm_compute. set_solver.
  - apply Hother; [discriminate|]. vm_compute. set_solver.
  - apply Hadd. reflexivity.
Defined.

(** ** Chart title *)




(** ** Variable ids *)

Section Variables.

Variable buildCovidVariableId : MetricKind -> Z -> Z -> bool -> Z.
Variable lastUpdated : string.

Local Abbreviation initVariableAndGetId :=
  (initVariableAndGetId buildCovidVariableId lastUpdated).
Local Abbreviation yVariableId :=
  (yVariableId buildCovidVariableId lastUpdated).
Local Abbreviation builtFrom := (builtFrom buildCovidVariableId).

Lemma initVariableAndGetId_built p columnName rowFn daily st st0 :
  console st = console st0 ->
  builtFrom p st0 columnName daily
    (initVariableAndGetId p columnName rowFn daily st).
Proof.
  intros Hc. unfold CovidDataExplorer.initVariableAndGetId, bind, getVariable,
    CovidDataExplorer.builtFrom.
  set (id := buildCovidVariableId columnName (perCapitaArgument p)
               (smoothing p) daily).
  destruct (variables st !! id) as [v|] eqn:Hv; simpl.
  - by rewrite Hv.
  - rewrite lookup_insert_eq. eauto.
Qed.

Lemma addNewCasesSmoothed_console st :
  console (addNewCasesSmoothed st).2 = console st.
Proof. unfold addNewCasesSmoothed. by destruct (smoothedAdded st). Qed.

Lemma anyMetric_false p :
  anyMetric p = false ->
  metricFlags p = [false; false; false; false; false; false].
Proof.
  unfold anyMetric, metricFlags. simpl.
  destruct (casesMetric p), (testsMetric p), (deathsMetric p), (cfrMetric p),
    (testsPerCaseMetric p), (positiveTestRate p); simpl; congruence.
Qed.

(** C4, as the code has it: when no metric flag is set, and equally when
    neither frequency flag is set, [yVariableId] builds no variable, logs the
    error and returns 0; when a metric flag and a frequency flag are set it
    returns the id [buildCovidVariableId] gives for a metric whose flag is set
    and a frequency whose flag is set, with that variable in the set and
    nothing logged; that id is not the default 0 as long as
    [buildCovidVariableId] never gives 0. *)
Theorem yVariableId_default_or_built p st :
  (anyMetric p = false ->
   yVariableId p st = (0, errorLogged st)) /\
  (anyFrequency p = false ->
   yVariableId p st = (0, errorLogged st)) /\
  (anyMetric p = true -> anyFrequency p = true ->
   exists (columnName : MetricKind) (daily : bool),
     flagOf columnName p = true /\
     (if daily then dailyFreq p else totalFreq p) = true /\
     builtFrom p st columnName daily (yVariableId p st) /\
     ((forall c d s b, buildCovidVariableId c d s b <> 0) ->
      (yVariableId p st).1 <> 0)).
Proof.
  split; [|split].
  - intros Hm%anyMetric_false. injection Hm as Hc Ht Hd Hf Hp Hr.
    unfold CovidDataExplorer.yVariableId.
    by rewrite Hc, Ht, Hd, Hf, Hp, Hr.
  - unfold anyFrequency. intros [Hd Ht]%orb_false_elim.
    unfold CovidDataExplorer.yVariableId.
    by rewrite Hd, Ht, !andb_false_r.
  - intros Hm Hf.
    assert (Hgoal : exists (columnName : MetricKind) (daily : bool),
      flagOf columnName p = true /\
      (if daily then dailyFreq p else totalFreq p) = true /\
      builtFrom p st columnName daily (yVariableId p st)).
    { unfold anyMetric, anyFrequency, metricFlags in *. simpl in Hm.
      unfold CovidDataExplorer.yVariableId.
      destruct (testsMetric p) eqn:Et, (casesMetric p) eqn:Ec,
        (deathsMetric p) eqn:Ed, (cfrMetric p) eqn:Ef,
        (testsPerCaseMetric p) eqn:Ep, (positiveTestRate p) eqn:Er;
        try discriminate Hm;
        destruct (dailyFreq p) eqn:Edaily, (totalFreq p) eqn:Etotal;
        try discriminate Hf; simpl;
        try destruct (smoothing p =? 0)%Z; simpl;
        first
          [ exists tests, true; simpl; rewrite ?Et, ?Edaily;
            split; [done|split; [done|]]
          | exists tests, false; simpl; rewrite ?Et, ?Etotal;
            split; [done|split; [done|]]
          | exists cases, true; simpl; rewrite ?Ec, ?Edaily;
            split; [done|split; [done|]]
          | exists cases, false; simpl; rewrite ?Ec, ?Etotal;
            split; [done|split; [done|]]
          | exists deaths, true; simpl; rewrite ?Ed, ?Edaily;
            split; [done|split; [done|]]
          | exists deaths, false; simpl; rewrite ?Ed, ?Etotal;
            split; [done|split; [done|]]
          | exists case_fatality_rate, true; simpl; rewrite ?Ef, ?Edaily;
            split; [done|split; [done|]]
          | exists case_fatality_rate, false; simpl; rewrite ?Ef, ?Etotal;
            split; [done|split; [done|]]
          | exists tests_per_case, true; simpl; rewrite ?Ep, ?Edaily;
            split; [done|split; [done|]]
          | exists tests_per_case, false; simpl; rewrite ?Ep, ?Etotal;
            split; [done|split; [done|]]
          | exists positive_test_rate, true; simpl; rewrite ?Er, ?Edaily;
            split; [done|split; [done|]]
          | exists positive_test_rate, false; simpl; rewrite ?Er, ?Etotal;
            split; [done|split; [done|]] ];
        first
          [ by apply initVariableAndGetId_built
          | unfold bind;
            destruct (addNewCasesSmoothed st) as [[] st'] eqn:Ha;
            apply initVariableAndGetId_built;
            rewrite <- (addNewCasesSmoothed_console st); by rewrite Ha ]. }
    destruct Hgoal as (columnName & daily & Hflag & Hfreq & Hbuilt).
    exists columnName, daily. repeat split; try done; try apply Hbuilt.
    intros Hnz. destruct Hbuilt as (-> & _). apply Hnz.
Qed.

End Variables.

Lemma sampleVariableId_nonzero c d s b : sampleVariableId c d s b <> 0.
Proof. unfold sampleVariableId. destruct c, b; lia. Qed.

Lemma yVariableId_default_or_built_witness :
  yVariableId sampleVariableId "Data last updated today"
    (clearMetricsCommand sampleParams) initialState
  = (0, errorLogged initialState) /\
  (yVariableId sampleVariableId "Data last updated today"
     sampleParams initialState).1 = 11452100000071 /\
  (yVariableId sampleVariableId "Data last updated today"
     sampleParams initialState).1 <> 0.
Proof.
  destruct (yVariableId_default_or_built sampleVariableId
              "Data last updated today"
              (clearMetricsCommand sampleParams) initialState)
    as (Hnone & _).
  destruct (yVariableId_default_or_built sampleVariableId
              "Data last updated today" sampleParams initialState)
    as (_ & _ & Hsome).
  split; [apply Hnone; reflexivity|]. split; [reflexivity|].
  destruct Hsome as (columnName & daily & _ & _ & _ & Hnz);
    [reflexivity..|].
  apply Hnz, sampleVariableId_nonzero.
Defined.

(** C4 as worded fails when a metric flag is set and no frequency flag is:
    the cases metric alone gives the default id 0 and the logged error. *)
Lemma yVariableId_metric_without_frequency :
  let p := set_casesMetric true
             {| casesMetric := false; testsMetric := false;
                deathsMetric := false; cfrMetric := false;
                testsPerCaseMetric := false; positiveTestRate := false;
                totalFreq := false; dailyFreq := false; perCapita := false;
                aligned := false; hideControls := false; smoothing := 0;
                selectedCountryCodes := ∅ |} in
  anyMetric p = true /\
  yVariableId sampleVariableId "Data last updated today" p initialState
  = (0, errorLogged initialState).
Proof. split; reflexivity. Qed.

End CovidDataExplorerProofs.

(* ===================================================================== *)
(** * Properties of the search-indexing script *)
(* ===================================================================== *)

Module IndexToAlgoliaProofs.
Import IndexToAlgolia.

(** ** Slices *)

Lemma sliceCount_bounds n :
  (n <= 1000 * ((n + 999) / 1000) < n + 1000)%nat.
Proof.
  pose proof (Nat.div_mod_eq (n + 999) 1000) as Hd.
  pose proof (Nat.mod_upper_bound (n + 999) 1000) as Hm. lia.
Qed.

Lemma sliceAt_succ {A} (l : list A) k :
  sliceAt (drop 1000 l) k = sliceAt l (S k).
Proof. unfold sliceAt. rewrite drop_drop. do 2 f_equal. lia. Qed.

Lemma sliceAt_cover {A} n : forall l : list A,
  (length l <= 1000 * n)%nat ->
  concat (sliceAt l <$> seq 0 n) = l.
Proof.
  induction n as [|n IH]; intros l Hlen.
  - destruct l; [done|simpl in Hlen; lia].
  - rewrite <- cons_seq, fmap_cons, <- fmap_S_seq, <- list_fmap_compose.
    rewrite (list_fmap_ext _ (sliceAt (drop 1000 l)) (seq 0 n))
      by (intros; symmetry; apply sliceAt_succ).
    simpl. rewrite IH by (rewrite length_drop; lia).
    unfold sliceAt. simpl. apply take_drop.
Qed.

(** The slices put end to end are the list: every element is in exactly one
    of them, in its place. *)
Lemma slices_concat {A} (l : list A) : concat (slices l) = l.
Proof. apply sliceAt_cover. apply sliceCount_bounds. Qed.

Lemma slices_length {A} (l : list A) :
  Forall (fun s => (0 < length s <= 1000)%nat) (slices l).
Proof.
  apply Forall_forall. intros s Hs. unfold slices in Hs.
  apply list_elem_of_fmap in Hs as (k & -> & Hk).
  apply elem_of_seq in Hk. pose proof (sliceCount_bounds (length l)).
  unfold sliceAt. rewrite length_take, length_drop. lia.
Qed.

(** ** Runs that follow a plan *)

Lemma awaited_app cs1 cs2 : awaited (cs1 ++ cs2) = awaited cs1 ++ awaited cs2.
Proof. apply bind_app. Qed.

Lemma awaited_cons c cs :
  awaited (c :: cs) = Started c :: Resolved c :: awaited cs.
Proof. reflexivity. Qed.

Lemma elem_of_awaited e cs :
  e ∈ awaited cs <-> exists c, c ∈ cs /\ (e = Started c \/ e = Resolved c).
Proof.
  unfold awaited. rewrite list_elem_of_bind. split.
  - intros (c & He & Hc). exists c. split; [done|].
    apply elem_of_cons in He as [-> | He]; [by left|].
    apply elem_of_cons in He as [-> | He]; [by right|].
    by apply elem_of_nil in He.
  - intros (c & Hc & [-> | ->]); exists c; split; try done.
    + apply elem_of_cons. by left.
    + apply elem_of_cons. right. apply elem_of_cons. by left.
Qed.

Lemma startedCalls_app e1 e2 :
  startedCalls (e1 ++ e2) = startedCalls e1 ++ startedCalls e2.
Proof. apply omap_app. Qed.

Lemma startedCalls_awaited cs : startedCalls (awaited cs) = cs.
Proof. induction cs as [|c cs IH]; [done|]. simpl. by rewrite IH. Qed.

Lemma elem_of_startedCalls c events :
  Started c ∈ events -> c ∈ startedCalls events.
Proof.
  intros H. unfold startedCalls. apply list_elem_of_omap.
  by exists (Started c).
Qed.

Lemma uploaded_app indexName e1 e2 :
  uploaded indexName (e1 ++ e2)
  = uploaded indexName e1 ++ uploaded indexName e2.
Proof. apply omap_app. Qed.

Lemma uploaded_awaited_cons indexName c cs :
  uploaded indexName (awaited (c :: cs)) =
    match c with
    | saveObjects i objects =>
        if decide (i = indexName) then [objects] else []
    | _ => []
    end ++ uploaded indexName (awaited cs).
Proof.
  rewrite awaited_cons. unfold uploaded. cbn [omap list_omap].
  destruct c; try done. by destruct (decide _).
Qed.

Lemma uploaded_awaited_saves indexName ss :
  uploaded indexName (awaited (saveObjects indexName <$> ss)) = ss.
Proof.
  induction ss as [|s ss IH]; [done|].
  rewrite fmap_cons, uploaded_awaited_cons, IH.
  by rewrite decide_True.
Qed.

Lemma uploaded_awaited_others indexName cs :
  Forall (fun c => isSave c = false) cs ->
  uploaded indexName (awaited cs) = [].
Proof.
  induction 1 as [|c cs Hc _ IH]; [done|].
  rewrite uploaded_awaited_cons, IH. by destruct c.
Qed.

Lemma elem_of_concat {A} (x : A) (ls : list (list A)) :
  x ∈ concat ls <-> exists l, x ∈ l /\ l ∈ ls.
Proof.
  induction ls as [|l0 ls IH]; simpl.
  - split; [by intros ?%elem_of_nil|]. by intros (l & _ & ?%elem_of_nil).
  - rewrite elem_of_app, IH. split.
    + intros [H|(l & Hx & Hl)].
      * exists l0. split; [done|]. apply elem_of_cons. by left.
      * exists l. split; [done|]. apply elem_of_cons. by right.
    + intros (l & Hx & [-> | Hl]%elem_of_cons); [by left|right; eauto].
Qed.

(** An element that occurs once splits a list in one way only. *)
Lemma split_once {A} (x : A) l1 : forall l2 before after,
  x ∉ l1 -> x ∉ l2 ->
  l1 ++ x :: l2 = before ++ x :: after ->
  before = l1.
Proof.
  induction l1 as [|y l1 IH]; intros l2 before after H1 H2 Heq.
  - destruct before as [|z before]; [done|].
    simpl in Heq. injection Heq as <- ->.
    exfalso. apply H2. apply elem_of_app. right. apply elem_of_cons. by left.
  - apply not_elem_of_cons in H1 as [Hne H1].
    destruct before as [|z before]; simpl in Heq.
    + injection Heq as -> _. done.
    + injection Heq as <- Heq. f_equal. by eapply IH.
Qed.

Lemma sequential_awaited cs tail :
  sequential tail -> sequential (awaited cs ++ tail).
Proof.
  intros Htail. induction cs as [|c0 cs IH]; [done|].
  rewrite awaited_cons. intros before c after Heq.
  destruct before as [|e before]; simpl in Heq.
  - injection Heq as <- <-. left. eauto.
  - injection Heq as <- Heq. destruct before as [|e before]; simpl in Heq.
    + discriminate.
    + injection Heq as <- Heq. by eapply IH.
Qed.

Lemma sequential_ended : sequential [poolEnded].
Proof.
  intros before c after Heq.
  destruct before as [|? [|? ?]]; simpl in Heq; discriminate.
Qed.

Lemma sequential_rejected c : sequential [Started c; Rejected c].
Proof.
  intros before c' after Heq.
  destruct before as [|? [|? [|? ?]]]; simpl in Heq; try discriminate.
  injection Heq as <- <-. by right.
Qed.

Section Run.

Variable countries : list Country.
Variable wp_posts : list WpPost.
Variable fullPostOf : WpPost -> FullPost.
Variable formatted : FullPost -> FormattedPost.
Variable htmlToPlaintext : string -> string.
Variable chunkParagraphs : string -> nat -> list string.
Variable rejects : list Event -> Call -> bool.

Local Abbreviation followsPlan := (@followsPlan rejects).
Local Abbreviation await := (@await rejects).
Local Abbreviation chunksOf :=
  (chunksOf fullPostOf formatted htmlToPlaintext chunkParagraphs).
Local Abbreviation postRecords :=
  (postRecords fullPostOf formatted htmlToPlaintext chunkParagraphs).
Local Abbreviation allRecords :=
  (allRecords countries wp_posts fullPostOf formatted htmlToPlaintext
     chunkParagraphs).
Local Abbreviation plannedCalls :=
  (plannedCalls countries wp_posts fullPostOf formatted htmlToPlaintext
     chunkParagraphs).
Local Abbreviation indexToAlgolia :=
  (indexToAlgolia countries wp_posts fullPostOf formatted htmlToPlaintext
     chunkParagraphs rejects).
Local Abbreviation beforeMove :=
  (beforeMove countries wp_posts fullPostOf formatted htmlToPlaintext
     chunkParagraphs).

Lemma pure_follows {A} (a : A) start :
  followsPlan [] [] start a (pure a start).
Proof. left. unfold pure, awaited. simpl. by rewrite app_nil_r. Qed.

Lemma wpdb_end_follows start :
  followsPlan [poolEnded] [] start tt (wpdb_end start).
Proof. by left. Qed.

Lemma await_follows {A} c (result : A) start :
  followsPlan [] [c] start result (await c result start).
Proof.
  unfold IndexToAlgolia.await, IndexToAlgolia.followsPlan.
  destruct (rejects (start ++ [Started c]) c) eqn:Hr.
  - right. exists [], c, []. simpl. rewrite Hr, <- app_assoc. done.
  - left. by rewrite <- app_assoc.
Qed.

Lemma andThen_follows {A B} (m : Script A) (k : A -> Script B)
    tail cs1 cs2 start a b :
  followsPlan [] cs1 start a (m start) ->
  (forall start', followsPlan tail cs2 start' b (k a start')) ->
  followsPlan tail (cs1 ++ cs2) start b (andThen m k start).
Proof.
  intros [Hm|(finished & c & rest & -> & Hr & Hm)] Hk; unfold andThen; rewrite Hm.
  - rewrite app_nil_r.
    destruct (Hk (start ++ awaited cs1))
      as [Hk'|(finished & c & rest & -> & Hr & Hk')]; rewrite Hk'.
    + left. by rewrite awaited_app, <- !app_assoc.
    + right. exists (cs1 ++ finished), c, rest.
      rewrite !awaited_app, <- !app_assoc in *. done.
  - right. exists finished, c, (rest ++ cs2). by rewrite <- app_assoc.
Qed.

(** ** The query *)

Lemma holds_published row :
  holds (where_ publishedPostsQuery) row <-> published row.
Proof.
  unfold published. simpl.
  rewrite !andb_True, !orb_True, !bool_decide_spec.
  change (columnOf row "post_type") with (Some (post_type row)).
  change (columnOf row "post_status") with (Some (post_status row)).
  split.
  - intros [[Hp|Hp] Hs]; injection Hs as Hs; injection Hp as Hp; auto.
  - intros [[Hp|Hp] Hs]; rewrite Hp, Hs; auto.
Qed.

(** The rows the query fetches are the published posts and pages. *)
Lemma query_published :
  runSelect wp_posts publishedPostsQuery = publishedRows wp_posts.
Proof.
  unfold runSelect, publishedRows. simpl.
  apply list_filter_iff. intros row. apply holds_published.
Qed.

(** ** The loops *)

Lemma pushCountries_eq records :
  pushCountries countries records = records ++ (countryRecord <$> countries).
Proof.
  unfold pushCountries. revert records.
  induction countries as [|c cs IH]; intros records; simpl.
  - by rewrite app_nil_r.
  - rewrite IH, <- app_assoc. done.
Qed.

Lemma pushChunks_fold row post chunks : forall records i,
  fold_left
    (fun '(records, i) c =>
       (records ++
        [PostRecord (JS.decimal (ID row) +:+ "-c" +:+ JS.decimal i)
           (id post) (type post) (slug post) (title post)
           (excerpt post) (authors post) (date post)
           (modifiedDate post) c],
        (i + 1)%nat))
    chunks (records, i)
  = (records ++
     imap (fun j c =>
             PostRecord (JS.decimal (ID row) +:+ "-c" +:+ JS.decimal (i + j))
               (id post) (type post) (slug post) (title post)
               (excerpt post) (authors post) (date post)
               (modifiedDate post) c) chunks,
     (i + length chunks)%nat).
Proof.
  induction chunks as [|c chunks IH]; intros records i; simpl.
  - by rewrite app_nil_r, Nat.add_0_r.
  - rewrite IH, <- app_assoc. simpl. rewrite Nat.add_0_r.
    assert (Hlen : (i + 1 + length chunks = i + S (length chunks))%nat) by lia.
    rewrite Hlen. f_equal. do 2 f_equal. apply imap_ext.
    intros j x _. simpl.
    by replace (i + 1 + j)%nat with (i + S j)%nat by lia.
Qed.

Lemma pushChunks_eq row records :
  pushChunks row (formatted (fullPostOf row)) (chunksOf row) records
  = records ++ postRecords row.
Proof.
  unfold pushChunks. rewrite pushChunks_fold. simpl. done.
Qed.

Lemma pushPosts_follows rows : forall records start,
  followsPlan []
    (rows ≫= fun row => [getFullPost row; formatPost (fullPostOf row) false])
    start (records ++ (rows ≫= postRecords))
    (pushPosts fullPostOf formatted htmlToPlaintext chunkParagraphs rejects
       rows records start).
Proof.
  induction rows as [|row rows IH]; intros records start.
  - simpl. rewrite app_nil_r. apply pure_follows.
  - rewrite !bind_cons. cbn [pushPosts].
    change [getFullPost row; formatPost (fullPostOf row) false]
      with ([getFullPost row] ++ [formatPost (fullPostOf row) false]).
    rewrite <- app_assoc.
    eapply andThen_follows; [apply await_follows|]. intros start1.
    eapply andThen_follows; [apply await_follows|]. intros start2.
    cbv zeta. fold (chunksOf row). rewrite pushChunks_eq, app_assoc.
    apply IH.
Qed.

Lemma saveFrom_follows tmpIndex records m : forall k fuel start,
  (k + m = (length records + 999) / 1000)%nat ->
  (m < fuel)%nat ->
  followsPlan [] (saveObjects tmpIndex <$> (sliceAt records <$> seq k m))
    start tt (saveFrom rejects fuel tmpIndex records (1000 * k) start).
Proof.
  pose proof (sliceCount_bounds (length records)) as Hb.
  induction m as [|m IH]; intros k fuel start Hk Hfuel;
    (destruct fuel as [|fuel]; [lia|]); cbn [saveFrom].
  - destruct (Nat.ltb_spec (1000 * k) (length records)); [lia|].
    apply pure_follows.
  - destruct (Nat.ltb_spec (1000 * k) (length records)); [|lia].
    rewrite <- cons_seq, !fmap_cons.
    change (?x :: ?l) with ([x] ++ l).
    eapply andThen_follows.
    + replace (slice (1000 * k) (1000 * k + 1000) records)
        with (sliceAt records k)
        by (unfold slice, sliceAt; f_equal; lia).
      apply await_follows.
    + intros start'. replace (1000 * k + 1000)%nat with (1000 * S k)%nat by lia.
      apply IH; lia.
Qed.

(** The whole script follows the planned calls and then ends the pool. *)
Lemma indexToAlgolia_follows :
  followsPlan [poolEnded] plannedCalls [] tt (indexToAlgolia []).
Proof.
  unfold IndexToAlgolia.plannedCalls, IndexToAlgolia.indexToAlgolia.
  change [initIndex "pages"; initIndex "pages_tmp";
          copyIndex "pages" "pages_tmp" ["settings"; "synonyms"; "rules"];
          query publishedPostsQuery]
    with ([initIndex "pages"] ++ [initIndex "pages_tmp"] ++
          [copyIndex "pages" "pages_tmp" ["settings"; "synonyms"; "rules"]]
          ++ [query publishedPostsQuery]).
  rewrite <- !app_assoc.
  eapply andThen_follows; [apply await_follows|]. intros start1.
  eapply andThen_follows; [apply await_follows|]. intros start2.
  eapply andThen_follows; [apply await_follows|]. intros start3.
  eapply andThen_follows; [apply await_follows|]. intros start4.
  cbv zeta. rewrite query_published, pushCountries_eq, app_nil_l.
  eapply andThen_follows; [apply pushPosts_follows|]. intros start5.
  change ((countryRecord <$> countries) ++ _) with allRecords.
  eapply andThen_follows.
  { apply (saveFrom_follows "pages_tmp" allRecords
             ((length allRecords + 999) / 1000) 0); [done|].
    pose proof (sliceCount_bounds (length allRecords)). lia. }
  intros start6.
  rewrite <- (app_nil_r [moveIndex "pages_tmp" "pages"]).
  eapply andThen_follows; [apply await_follows|]. intros start7.
  apply wpdb_end_follows.
Qed.

(** The events of a run: all planned calls resolved and the pool ended, or
    the planned calls up to the first one that rejects. *)
Lemma run_events :
  let run := indexToAlgolia [] in
  (run = (Done tt, awaited plannedCalls ++ [poolEnded])) \/
  (exists finished c rest,
     plannedCalls = finished ++ c :: rest /\
     rejects (awaited finished ++ [Started c]) c = true /\
     run = (Aborted, awaited finished ++ [Started c; Rejected c])).
Proof. exact indexToAlgolia_follows. Qed.

Lemma run_started :
  startedCalls (snd (indexToAlgolia [])) `prefix_of` plannedCalls.
Proof.
  destruct run_events as [Hrun|(finished & c & rest & Hp & _ & Hrun)];
    rewrite Hrun; cbn [snd].
  - rewrite startedCalls_app, startedCalls_awaited. simpl.
    by rewrite app_nil_r.
  - rewrite startedCalls_app, startedCalls_awaited. simpl.
    rewrite Hp. exists rest. by rewrite <- app_assoc.
Qed.

Lemma run_started_planned c :
  Started c ∈ snd (indexToAlgolia []) -> c ∈ plannedCalls.
Proof.
  intros Hc%elem_of_startedCalls.
  destruct run_started as [rest ->]. apply elem_of_app. by left.
Qed.

Lemma run_sequential : sequential (snd (indexToAlgolia [])).
Proof.
  destruct run_events as [Hrun|(finished & c & rest & _ & _ & Hrun)];
    rewrite Hrun; cbn [snd].
  - apply sequential_awaited, sequential_ended.
  - apply sequential_awaited, sequential_rejected.
Qed.

Lemma plannedCalls_beforeMove :
  plannedCalls = beforeMove ++ [moveIndex "pages_tmp" "pages"].
Proof.
  unfold IndexToAlgolia.plannedCalls, IndexToAlgolia.beforeMove.
  by rewrite <- !app_assoc.
Qed.

Lemma beforeMove_no_move src dst : moveIndex src dst ∉ beforeMove.
Proof.
  unfold IndexToAlgolia.beforeMove. rewrite !elem_of_app.
  intros [H|[H|H]].
  - repeat (apply elem_of_cons in H as [H|H]; [discriminate|]).
    by apply elem_of_nil in H.
  - apply list_elem_of_bind in H as (row & H & _).
    repeat (apply elem_of_cons in H as [H|H]; [discriminate|]).
    by apply elem_of_nil in H.
  - apply list_elem_of_fmap in H as (s & H & _). discriminate.
Qed.

Lemma uploaded_beforeMove :
  uploaded "pages_tmp" (awaited beforeMove) = slices allRecords.
Proof.
  unfold IndexToAlgolia.beforeMove. rewrite !awaited_app, !uploaded_app.
  rewrite uploaded_awaited_saves.
  rewrite (uploaded_awaited_others _ [_; _; _; _])
    by (repeat constructor).
  rewrite uploaded_awaited_others; [done|].
  apply Forall_forall. intros c (row & H & _)%list_elem_of_bind.
  repeat (apply elem_of_cons in H as [-> | H]; [done|]).
  by apply elem_of_nil in H.
Qed.

Lemma uploaded_planned :
  uploaded "pages_tmp" (awaited plannedCalls) = slices allRecords.
Proof.
  rewrite plannedCalls_beforeMove, awaited_app, uploaded_app.
  rewrite uploaded_beforeMove. simpl. by rewrite app_nil_r.
Qed.

Lemma run_uploaded :
  uploaded "pages_tmp" (snd (indexToAlgolia [])) `prefix_of` slices allRecords.
Proof.
  rewrite <- uploaded_planned.
  destruct run_events as [Hrun|(finished & c & rest & Hp & _ & Hrun)];
    rewrite Hrun; cbn [snd]; rewrite ?Hp.
  - rewrite uploaded_app. simpl. by rewrite app_nil_r.
  - rewrite awaited_app, !uploaded_app. simpl. rewrite app_nil_r.
    by eexists.
Qed.

Lemma started_move_split before after :
  snd (indexToAlgolia []) =
    before ++ Started (moveIndex "pages_tmp" "pages") :: after ->
  before = awaited beforeMove.
Proof.
  set (move := moveIndex "pages_tmp" "pages").
  assert (Hnot : Started move ∉ awaited beforeMove).
  { intros (c & Hc & [[= <-]|[=]])%elem_of_awaited.
    by apply beforeMove_no_move in Hc. }
  destruct run_events as [Hrun|(finished & c & rest & Hp & _ & Hrun)];
    rewrite Hrun; cbn [snd].
  - rewrite plannedCalls_beforeMove, awaited_app, <- app_assoc.
    change (awaited [moveIndex "pages_tmp" "pages"] ++ [poolEnded])
      with (Started move :: [Resolved move; poolEnded]).
    intros Heq. eapply split_once; [..|exact Heq]; [done|].
    intros H. repeat (apply elem_of_cons in H as [H|H]; [discriminate|]).
    by apply elem_of_nil in H.
  - rewrite plannedCalls_beforeMove in Hp.
    destruct rest as [|r rest _] using rev_ind.
    + apply app_inj_tail in Hp as [<- <-]. fold move.
      intros Heq. eapply split_once; [..|exact Heq]; [done|].
      intros H. repeat (apply elem_of_cons in H as [H|H]; [discriminate|]).
      by apply elem_of_nil in H.
    + rewrite app_comm_cons, app_assoc in Hp.
      apply app_inj_tail in Hp as [Hp _].
      intros Heq. exfalso.
      assert (Hin : Started move ∈ awaited finished ++ [Started c; Rejected c]).
      { rewrite Heq. apply elem_of_app. right. apply elem_of_cons. by left. }
      apply elem_of_app in Hin as [Hin|Hin].
      * apply elem_of_awaited in Hin as (c' & Hc' & [[= <-]|[=]]).
        apply (beforeMove_no_move "pages_tmp" "pages"). rewrite Hp.
        apply elem_of_app. by left.
      * apply elem_of_cons in Hin as [[= <-]|Hin].
        -- apply (beforeMove_no_move "pages_tmp" "pages"). rewrite Hp.
           apply elem_of_app. right. apply elem_of_cons. by left.
        -- apply elem_of_cons in Hin as [[=]|Hin]. by apply elem_of_nil in Hin.
Qed.

Lemma run_saves i objects :
  Started (saveObjects i objects) ∈ snd (indexToAlgolia []) ->
  i = "pages_tmp" /\ objects ∈ slices allRecords.
Proof.
  intros Hc%run_started_planned.
  rewrite plannedCalls_beforeMove in Hc. unfold IndexToAlgolia.beforeMove in Hc.
  rewrite !elem_of_app in Hc. destruct Hc as [[H|[H|H]]|H].
  - repeat (apply elem_of_cons in H as [H|H]; [discriminate|]).
    by apply elem_of_nil in H.
  - apply list_elem_of_bind in H as (row & H & _).
    repeat (apply elem_of_cons in H as [H|H]; [discriminate|]).
    by apply elem_of_nil in H.
  - apply list_elem_of_fmap in H as (s & [= -> ->] & Hs). done.
  - apply elem_of_cons in H as [H|H]; [discriminate|].
    by apply elem_of_nil in H.
Qed.

Lemma run_done :
  fst (indexToAlgolia []) = Done tt ->
  snd (indexToAlgolia []) = awaited plannedCalls ++ [poolEnded].
Proof.
  destruct run_events as [Hrun|(finished & c & rest & _ & _ & Hrun)];
    rewrite Hrun; cbn [fst snd]; [done|discriminate].
Qed.

Lemma fmap_bind {A B C} (f : B -> C) (g : A -> list B) (l : list A) :
  f <$> (l ≫= g) = l ≫= fun x => f <$> g x.
Proof.
  induction l as [|x l IH]; [done|].
  by rewrite !bind_cons, fmap_app, IH.
Qed.

Lemma objectID_postRecords row :
  objectID <$> postRecords row =
    (fun i => JS.decimal (ID row) +:+ "-c" +:+ JS.decimal i)
      <$> seq 0 (length (chunksOf row)).
Proof.
  unfold IndexToAlgolia.postRecords. rewrite fmap_imap, <- imap_seq_0.
  by apply imap_ext.
Qed.

(** C2: the job is one pass over a fixed list of calls, each awaited once and
    in order: copy settings, synonyms and rules from the final index to the
    temporary one, fetch the post rows, get and format each post, upload the
    records in slices, move the temporary index over the final one; a call
    that rejects ends the run and nothing is tried again.  The records are
    one per country, with the country slug as object id, followed for every
    post by one per text chunk, with object id [<row ID>-c<chunk index>],
    the index counting up from 0. *)
Theorem indexToAlgolia_linear :
  let run := indexToAlgolia [] in
  let rows := runSelect wp_posts publishedPostsQuery in
  (run = (Done tt, awaited plannedCalls ++ [poolEnded]) \/
   exists finished c rest,
     plannedCalls = finished ++ c :: rest /\
     rejects (awaited finished ++ [Started c]) c = true /\
     run = (Aborted, awaited finished ++ [Started c; Rejected c])) /\
  ((forall events c, rejects events c = false) ->
   run = (Done tt, awaited plannedCalls ++ [poolEnded])) /\
  plannedCalls =
    [initIndex "pages"; initIndex "pages_tmp";
     copyIndex "pages" "pages_tmp" ["settings"; "synonyms"; "rules"];
     query publishedPostsQuery] ++
    (rows ≫= fun row => [getFullPost row; formatPost (fullPostOf row) false])
    ++ (saveObjects "pages_tmp" <$> slices allRecords) ++
    [moveIndex "pages_tmp" "pages"] /\
  allRecords = (countryRecord <$> countries) ++ (rows ≫= postRecords) /\
  objectID <$> allRecords =
    (country_slug <$> countries) ++
    (rows ≫= fun row =>
       (fun i => JS.decimal (ID row) +:+ "-c" +:+ JS.decimal i)
         <$> seq 0 (length (chunksOf row))).
Proof.
  intros run rows. unfold rows. rewrite query_published.
  split; [apply run_events|]. split; [|split; [done|split; [done|]]].
  - intros Hnever.
    destruct run_events as [Hrun|(finished & c & rest & _ & Hr & _)]; [done|].
    by rewrite Hnever in Hr.
  - unfold IndexToAlgolia.allRecords.
    rewrite fmap_app, <- list_fmap_compose, fmap_bind. f_equal.
    apply list_bind_ext; [|done]. intros row. apply objectID_postRecords.
Qed.

(** C6: the uploads go to the temporary index one at a time, each started
    only after the one before has resolved; they are the consecutive slices
    of at most 1000 records of the record list, in order, so that every
    record is uploaded once; and when the move of the temporary index over
    the final one starts, every slice has been uploaded. *)
Theorem uploads_sequential :
  let events := snd (indexToAlgolia []) in
  sequential events /\
  uploaded "pages_tmp" events `prefix_of` slices allRecords /\
  (forall i objects,
     Started (saveObjects i objects) ∈ events ->
     i = "pages_tmp" /\ objects ∈ slices allRecords) /\
  Forall (fun s => (0 < length s <= 1000)%nat) (slices allRecords) /\
  (forall k s,
     slices allRecords !! k = Some s ->
     s = take 1000 (drop (1000 * k) allRecords)) /\
  concat (slices allRecords) = allRecords /\
  (forall before after,
     events = before ++ Started (moveIndex "pages_tmp" "pages") :: after ->
     uploaded "pages_tmp" before = slices allRecords) /\
  (fst (indexToAlgolia []) = Done tt ->
   uploaded "pages_tmp" events = slices allRecords).
Proof.
  intros events. unfold events.
  split; [apply run_sequential|]. split; [apply run_uploaded|].
  split; [|split; [apply slices_length|split; [|split;
    [apply slices_concat|split]]]].
  - apply run_saves.
  - intros k s Hk. unfold slices in Hk. rewrite list_lookup_fmap in Hk.
    destruct (seq 0 _ !! k) as [k'|] eqn:Hseq; [|done].
    apply lookup_seq in Hseq as [-> _]. by injection Hk as <-.
  - intros before after Heq. rewrite (started_move_split _ _ Heq).
    apply uploaded_beforeMove.
  - intros Hdone. rewrite (run_done Hdone), uploaded_app, uploaded_planned.
    apply app_nil_r.
Qed.

(** C7: the rows the script fetches are the rows of [wp_posts] that are a
    post or a page and whose status is [publish]; only such rows are read in
    full, every uploaded record is a country record or comes from such a
    row, and in a run that completes every record of such a row is
    uploaded. *)
Theorem only_published_indexed :
  let events := snd (indexToAlgolia []) in
  runSelect wp_posts publishedPostsQuery = filter published wp_posts /\
  (forall row,
     Started (getFullPost row) ∈ events -> row ∈ wp_posts /\ published row) /\
  (forall i objects record,
     Started (saveObjects i objects) ∈ events -> record ∈ objects ->
     (exists country, country ∈ countries /\ record = countryRecord country) \/
     (exists row, row ∈ wp_posts /\ published row /\
                  record ∈ postRecords row)) /\
  (fst (indexToAlgolia []) = Done tt ->
   forall row record,
     row ∈ wp_posts -> published row -> record ∈ postRecords row ->
     exists objects,
       Resolved (saveObjects "pages_tmp" objects) ∈ events /\
       record ∈ objects).
Proof.
  intros events. unfold events.
  split; [apply query_published|]. split; [|split].
  - intros row Hc%run_started_planned.
    rewrite plannedCalls_beforeMove in Hc. unfold IndexToAlgolia.beforeMove in Hc.
    rewrite !elem_of_app in Hc. destruct Hc as [[H|[H|H]]|H].
    + repeat (apply elem_of_cons in H as [H|H]; [discriminate|]).
      by apply elem_of_nil in H.
    + apply list_elem_of_bind in H as (row' & H & Hrow).
      apply elem_of_cons in H as [[= ->]|H].
      * apply list_elem_of_filter in Hrow as [? ?]. done.
      * apply elem_of_cons in H as [H|H]; [discriminate|].
        by apply elem_of_nil in H.
    + apply list_elem_of_fmap in H as (s & H & _). discriminate.
    + apply elem_of_cons in H as [H|H]; [discriminate|].
      by apply elem_of_nil in H.
  - intros i objects record Hc Hrec.
    apply run_saves in Hc as [_ Hobj].
    assert (Hin : record ∈ allRecords).
    { rewrite <- (slices_concat allRecords). apply elem_of_concat. eauto. }
    unfold IndexToAlgolia.allRecords in Hin.
    apply elem_of_app in Hin as [Hin|Hin].
    + left. apply list_elem_of_fmap in Hin as (country & -> & Hc). eauto.
    + right. apply list_elem_of_bind in Hin as (row & Hr & Hrow).
      apply list_elem_of_filter in Hrow as [? ?]. eauto.
  - intros Hdone row record Hrow Hpub Hrec.
    assert (Hin : record ∈ concat (slices allRecords)).
    { rewrite slices_concat. unfold IndexToAlgolia.allRecords.
      apply elem_of_app. right. apply list_elem_of_bind. exists row.
      split; [done|]. by apply list_elem_of_filter. }
    apply elem_of_concat in Hin as (objects & Hinobj & Hobj).
    exists objects. split; [|done]. rewrite (run_done Hdone).
    apply elem_of_app. left. apply elem_of_awaited.
    exists (saveObjects "pages_tmp" objects). split; [|by right].
    unfold IndexToAlgolia.plannedCalls. rewrite !elem_of_app.
    right. right. left. by apply list_elem_of_fmap_2.
Qed.

End Run.

Import SampleSite.

Lemma indexToAlgolia_linear_witness :
  indexToAlgolia sampleCountries samplePosts sampleFullPost sampleFormatted
    samplePlaintext (sampleChunks 2) neverRejects []
  = (Done tt,
     awaited (plannedCalls sampleCountries samplePosts sampleFullPost
                sampleFormatted samplePlaintext (sampleChunks 2))
     ++ [poolEnded]) /\
  objectID <$> allRecords sampleCountries samplePosts sampleFullPost
                 sampleFormatted samplePlaintext (sampleChunks 2)
  = ["chile"; "7-c0"; "7-c1"; "9-c0"; "9-c1"].
Proof.
  destruct (indexToAlgolia_linear sampleCountries samplePosts sampleFullPost
              sampleFormatted samplePlaintext (sampleChunks 2) neverRejects)
    as (_ & Hnever & _ & _ & Hids).
  split.
  - apply Hnever. intros events c. reflexivity.
  - rewrite Hids. reflexivity.
Defined.

Lemma uploads_sequential_witness :
  uploaded "pages_tmp"
    (snd (indexToAlgolia sampleCountries samplePosts sampleFullPost
            sampleFormatted samplePlaintext (sampleChunks 1200)
            neverRejects []))
  = slices (allRecords sampleCountries samplePosts sampleFullPost
              sampleFormatted samplePlaintext (sampleChunks 1200)) /\
  length <$> slices (allRecords sampleCountries samplePosts sampleFullPost
                       sampleFormatted samplePlaintext (sampleChunks 1200))
  = [1000; 1000; 401]%nat.
Proof.
  destruct (uploads_sequential sampleCountries samplePosts sampleFullPost
              sampleFormatted samplePlaintext (sampleChunks 1200)
              neverRejects)
    as (_ & _ & _ & _ & _ & _ & _ & Hdone).
  split.
  - apply Hdone. vm_compute. reflexivity.
  - vm_compute. reflexivity.
Defined.

Lemma only_published_indexed_witness :
  samplePost 9 "page" "publish" ∈ samplePosts /\
  published (samplePost 9 "page" "publish").
Proof.
  destruct (only_published_indexed sampleCountries samplePosts sampleFullPost
              sampleFormatted samplePlaintext (sampleChunks 2) neverRejects)
    as (_ & Hread & _).
  apply Hread. apply list_elem_of_In. vm_compute. tauto.
Defined.

End IndexToAlgoliaProofs.

(* ===================================================================== *)
(** * Further properties of [orderBy] *)
(* ===================================================================== *)

Module LodashLaws.
Import Lodash ListOrder.

Lemma StronglySorted_lookup_lt {B} (S : relation B) l : forall p q a b,
  StronglySorted S l -> (p < q)%nat ->
  l !! p = Some a -> l !! q = Some b -> S a b.
Proof.
  induction l as [|x l IH]; intros p q a b Hs Hpq Hp Hq; [done|].
  apply StronglySorted_cons in Hs as [Hx Hs].
  destruct q as [|q]; [lia|]. simpl in Hq.
  destruct p as [|p]; simpl in Hp.
  - injection Hp as ->. rewrite Forall_forall in Hx. apply Hx.
    by eapply list_elem_of_lookup_2.
  - eapply (IH p q); eauto with lia.
Qed.

#[local] Instance entryBefore_trans {A} (R : relation A) `{!Transitive R} :
  Transitive (entryBefore R).
Proof.
  intros a b c [Hab Hba] [Hbc Hcb]. split; [by etrans|].
  intros Hca.
  assert (Lodash.index a <= Lodash.index b)%nat by (apply Hba; by etrans).
  assert (Lodash.index b <= Lodash.index c)%nat by (apply Hcb; by etrans).
  lia.
Qed.

Lemma directed_zero orders r : directed orders r = 0 -> r = 0.
Proof.
  unfold directed. destruct (orders !! 0%nat) as [o|]; [|done].
  destruct (decide (o = "desc")); lia.
Qed.

Section OrderBy.

Variable ToNumber : string -> JS.JSNumber.
Variable A : Type.

Local Abbreviation compareAscending := (compareAscending ToNumber).
Local Abbreviation compareMultiple := (compareMultiple ToNumber A).

(** Whenever the criteria order the elements of the collection exactly as a
    transitive relation [R] does, [orderBy] keeps two elements that [R] puts
    in order, and that come in this order, in this order. *)
Lemma orderBy_keeps_order (R : relation A) `{!Transitive R}
    collection iteratee orders i j x y :
  (forall x y, x ∈ collection -> y ∈ collection ->
     directed orders (compareAscending (iteratee x) (iteratee y)) <= 0
     <-> R x y) ->
  (i < j)%nat -> collection !! i = Some x -> collection !! j = Some y ->
  R x y ->
  occursBefore x y (orderBy ToNumber A collection iteratee orders).
Proof.
  intros HR Hij Hx Hy Hxy.
  unfold orderBy, baseOrderBy, baseSortBy.
  set (mk := fun i v => {| criteria := iteratee v; index := i; value := v |}).
  set (entries := imap mk collection).
  set (comparer := fun object other => compareMultiple object other orders).
  set (sorted := merge_sort (inOrder A comparer) entries).
  assert (Hperm : sorted ≡ₚ entries) by apply merge_sort_Permutation.
  assert (Hall : Forall (fun e => criteria e = iteratee (value e) /\
                                  value e ∈ collection) sorted).
  { rewrite Hperm. apply Forall_forall. intros e He.
    apply list_elem_of_lookup in He as [n Hn]. unfold entries in Hn.
    rewrite list_lookup_imap in Hn.
    destruct (collection !! n) as [v|] eqn:Hv; [|done].
    injection Hn as <-. simpl. split; [done|].
    by eapply list_elem_of_lookup_2. }
  assert (Hstep : forall a b,
            (criteria a = iteratee (value a) /\ value a ∈ collection) ->
            (criteria b = iteratee (value b) /\ value b ∈ collection) ->
            inOrder A comparer a b -> entryBefore R (id a) (id b)).
  { intros a b [Ha Hain] [Hb Hbin] Hin. unfold id. split.
    - apply HR; [done..|]. rewrite <- Ha, <- Hb.
      by apply LodashProofs.compareMultiple_directed.
    - intros Hba. apply HR in Hba; [|done..].
      rewrite <- Ha, <- Hb in Hba.
      pose proof (LodashProofs.compareMultiple_directed ToNumber A a b orders
                    Hin) as Hab.
      rewrite (LodashProofs.compareAscending_antisym ToNumber (criteria b)),
        LodashProofs.directed_opp in Hba.
      assert (Hz : compareAscending (criteria a) (criteria b) = 0).
      { apply (directed_zero orders). lia. }
      unfold inOrder, comparer, Lodash.compareMultiple in Hin.
      rewrite Hz in Hin. rewrite decide_False in Hin by lia. lia. }
  assert (Hsorted : StronglySorted (entryBefore R) sorted).
  { apply Sorted_StronglySorted; [apply _|].
    rewrite <- (list_fmap_id sorted).
    apply (LodashProofs.Sorted_fmap_on id _ (inOrder A comparer) _ _
             Hstep Hall).
    apply Sorted_merge_sort. apply LodashProofs.inOrder_total. }
  assert (H1 : mk i x ∈ sorted).
  { rewrite Hperm. apply list_elem_of_lookup. exists i. unfold entries.
    by rewrite list_lookup_imap, Hx. }
  assert (H2 : mk j y ∈ sorted).
  { rewrite Hperm. apply list_elem_of_lookup. exists j. unfold entries.
    by rewrite list_lookup_imap, Hy. }
  apply list_elem_of_lookup in H1 as [p1 Hp1].
  apply list_elem_of_lookup in H2 as [p2 Hp2].
  exists p1, p2. rewrite !list_lookup_fmap, Hp1, Hp2. simpl.
  split; [|done].
  destruct (Nat.lt_trichotomy p1 p2) as [Hlt|[Heq|Hgt]]; [done|..].
  - subst p2. rewrite Hp1 in Hp2.
    assert (index (mk i x) = index (mk j y)) as Hidx by congruence.
    simpl in Hidx. lia.
  - pose proof (StronglySorted_lookup_lt _ _ _ _ _ _ Hsorted Hgt Hp2 Hp1)
      as [_ Hle]. simpl in Hle. specialize (Hle Hxy). lia.
Qed.

End OrderBy.

End LodashLaws.

(* ===================================================================== *)
(** * Further properties of the data table *)
(* ===================================================================== *)

Module DataTableLaws.
Import JS SortOrder DataTableTransform DataTable DataTableSpec DataTableOrder.
Import Samples.

(** ** The derived sort state *)

(** X1: whatever [sortState] returns names a column that exists: the entity
    column, or a dimension of the transform together with one of its column
    keys (no key only if that dimension has no column); and it never moves
    the dimension index up. *)
Theorem sortState_names_column transform stored derived :
  sortState transform stored = Some derived ->
  dimIndex derived <= dimIndex stored /\
  (dimIndex derived = ENTITY_DIM_INDEX \/
   (0 <= dimIndex derived < Z.of_nat (length (dimensions transform)) /\
    match columnKey derived with
    | Some k => k ∈ availableColumnKeys transform (dimIndex derived)
    | None => availableColumnKeys transform (dimIndex derived) = []
    end)).
Proof.
  unfold sortState.
  set (clamped := Z.min (dimIndex stored) _).
  destruct (decide (clamped <> ENTITY_DIM_INDEX)) as [Hne|He].
  - destruct (JS.index (dimensionsWithValues transform) clamped)
      as [dim|] eqn:Hdim; [|discriminate].
    intros [= <-]. simpl. split; [unfold clamped; lia|]. right.
    split.
    { apply DataTableProofs.index_Some_range in Hdim.
      by rewrite DataTableProofs.dimensions_length. }
    unfold availableColumnKeys. rewrite Hdim.
    set (available := map key (columns dim)).
    assert (Hhead : match head available with
                    | Some k => k ∈ available
                    | None => available = []
                    end).
    { destruct available as [|k ?]; simpl; [done|]. apply elem_of_cons.
      by left. }
    destruct (columnKey stored) as [k|]; [|exact Hhead].
    destruct (includes available k) eqn:Hinc; simpl; [|exact Hhead].
    unfold includes in Hinc. by apply bool_decide_eq_true in Hinc.
  - intros [= <-]. simpl. split; [unfold clamped; lia|]. left.
    by destruct (decide (clamped = ENTITY_DIM_INDEX)).
Qed.

Lemma sortState_names_column_witness :
  dimIndex {| dimIndex := 0; columnKey := Some (range start); order := desc |}
    <= 4 /\
  (0 = ENTITY_DIM_INDEX \/
   (0 <= 0 < Z.of_nat (length (dimensions rangeTable)) /\
    range start ∈ availableColumnKeys rangeTable 0)).
Proof.
  apply (sortState_names_column rangeTable
           {| dimIndex := 4; columnKey := Some single; order := desc |}
           {| dimIndex := 0; columnKey := Some (range start);
              order := desc |}).
  reflexivity.
Defined.

(** X2: deriving the sort state from a derived sort state gives it back: the
    fallback has nothing left to repair. *)
Theorem sortState_idempotent transform stored derived :
  sortState transform stored = Some derived ->
  sortState transform derived = Some derived.
Proof.
  intros H.
  pose proof (DataTableProofs.sortState_derived_fixed transform stored
                derived (order derived) H) as Hfix.
  by destruct derived.
Qed.

Lemma sortState_idempotent_witness :
  sortState rangeTable
    {| dimIndex := 0; columnKey := Some (range start); order := desc |}
  = Some {| dimIndex := 0; columnKey := Some (range start); order := desc |}.
Proof.
  apply (sortState_idempotent rangeTable
           {| dimIndex := 4; columnKey := Some single; order := desc |}).
  reflexivity.
Defined.

(** ** Clicks *)

Lemma inverseSortOrder_involutive o :
  inverseSortOrder (inverseSortOrder o) = o.
Proof. by destruct o. Qed.

(** X3: two calls of [updateSort] with the column that is sorted bring back the
    sort state the table showed before. *)
Theorem updateSort_twice transform stored cur :
  sortState transform stored = Some cur ->
  exists stored1 stored2,
    updateSort transform stored (dimIndex cur) (columnKey cur)
      = Some stored1 /\
    updateSort transform stored1 (dimIndex cur) (columnKey cur)
      = Some stored2 /\
    sortState transform stored2 = Some cur.
Proof.
  intros Hcur.
  set (stored1 := {| dimIndex := dimIndex cur; columnKey := columnKey cur;
                     order := inverseSortOrder (order cur) |}).
  assert (H1 : sortState transform stored1 = Some stored1)
    by (by eapply DataTableProofs.sortState_derived_fixed).
  exists stored1, {| dimIndex := dimIndex cur; columnKey := columnKey cur;
                     order := order cur |}.
  split; [|split].
  - unfold updateSort, tableState_sort. rewrite Hcur.
    by rewrite !bool_decide_eq_true_2.
  - unfold updateSort, tableState_sort. rewrite H1. simpl.
    rewrite !bool_decide_eq_true_2 by done. simpl.
    by rewrite inverseSortOrder_involutive.
  - pose proof (DataTableProofs.sortState_derived_fixed transform stored
                  cur (order cur) Hcur) as Hfix.
    by destruct cur.
Qed.

Lemma updateSort_twice_witness :
  exists stored1 stored2,
    updateSort rangeTable
      {| dimIndex := 0; columnKey := Some (range end_); order := asc |}
      0 (Some (range end_)) = Some stored1 /\
    updateSort rangeTable stored1 0 (Some (range end_)) = Some stored2 /\
    sortState rangeTable stored2
      = Some {| dimIndex := 0; columnKey := Some (range end_);
                order := asc |}.
Proof.
  apply (updateSort_twice rangeTable
           {| dimIndex := 0; columnKey := Some (range end_); order := asc |}
           {| dimIndex := 0; columnKey := Some (range end_); order := asc |}).
  reflexivity.
Defined.

(** X4: a click on the header of a dimension that is not sortable stores
    nothing.  A click on the header of a sortable dimension [i], or on one of
    the subheaders of dimension [i], makes the table sorted by that dimension
    whenever the transform has it: by the clicked column if the dimension
    offers it, and otherwise (a header click on a dimension without a
    [single] column) by its first column. *)
Theorem click_sorts_dimension transform stored i :
  onClick transform stored (ClickDimension i false) = Some stored /\
  forall c stored' k,
    (c = ClickDimension i true /\ k = single \/ c = ClickSubheader i k) ->
    (i < length (dimensions transform))%nat ->
    onClick transform stored c = Some stored' ->
    exists derived,
      sortState transform stored' = Some derived /\
      dimIndex derived = Z.of_nat i /\
      order derived = order stored' /\
      columnKey derived =
        (if decide (k ∈ availableColumnKeys transform (Z.of_nat i))
         then Some k
         else head (availableColumnKeys transform (Z.of_nat i))).
Proof.
  split; [reflexivity|].
  intros c stored' k Hc Hi Hclick.
  assert (Hupd : updateSort transform stored (Z.of_nat i) (Some k)
                 = Some stored').
  { by destruct Hc as [[-> ->]| ->]. }
  unfold updateSort in Hupd.
  destruct (tableState_sort transform stored) as [sort|]; [|discriminate].
  injection Hupd as <-.
  rewrite DataTableProofs.sortState_eq by (simpl; unfold ENTITY_DIM_INDEX; lia).
  simpl. eexists. split; [reflexivity|]. simpl.
  assert (Hmin : Z.min (Z.of_nat i)
                   (Z.of_nat (length (dimensions transform)) - 1)
                 = Z.of_nat i) by lia.
  rewrite Hmin. split; [done|]. split; [done|].
  destruct (decide (k ∈ availableColumnKeys transform (Z.of_nat i)))
    as [Hin|Hout].
  - rewrite decide_False; [done|]. intros [_ Hk]. by apply Hk.
  - rewrite decide_True; [done|]. split; [|done].
    unfold ENTITY_DIM_INDEX. lia.
Qed.

Lemma click_sorts_dimension_witness :
  onClick rangeTable DEFAULT_SORT_STATE (ClickDimension 0 false)
    = Some DEFAULT_SORT_STATE /\
  exists derived,
    sortState rangeTable
      {| dimIndex := 0; columnKey := Some single; order := asc |}
      = Some derived /\
    dimIndex derived = 0 /\
    columnKey derived = Some (range start).
Proof.
  destruct (click_sorts_dimension rangeTable DEFAULT_SORT_STATE 0)
    as [Hnothing Hsorts].
  split; [exact Hnothing|].
  destruct (Hsorts (ClickDimension 0 true)
              {| dimIndex := 0; columnKey := Some single; order := asc |}
              single)
    as (derived & Hs & Hd & _ & Hk).
  - left. split; reflexivity.
  - simpl. lia.
  - reflexivity.
  - exists derived. split; [exact Hs|]. split; [exact Hd|].
    rewrite Hk. reflexivity.
Defined.

(** ** The displayed rows keep the order of the transform among equals *)

Section Stability.

Variable ToNumber : string -> JSNumber.

Local Abbreviation compareAscending := (Lodash.compareAscending ToNumber).

(** Strings that are in order compare so. *)
Lemma entity_ordered_criteria o e1 e2 :
  ordered o string_le e1 e2 ->
  Lodash.directed [to_string o]
    (compareAscending (Lodash.KString e1) (Lodash.KString e2)) <= 0.
Proof.
  unfold Lodash.compareAscending, string_le. simpl.
  unfold String.ltb, String.leb. rewrite (String.compare_antisym e2 e1).
  destruct (decide (Lodash.KString e1 <> Lodash.KString e2)) as [Hne|Heq].
  - destruct o;
      [rewrite DataTableProofs.directed_asc
      |rewrite DataTableProofs.directed_desc]; simpl;
      unfold flip; rewrite ?(String.compare_antisym e2 e1);
      destruct (String.compare e1 e2) eqn:Hc; simpl; try done; try lia.
  - intros _. destruct o;
      [rewrite DataTableProofs.directed_asc
      |rewrite DataTableProofs.directed_desc]; lia.
Qed.

(** Rows of a numeric column that are in order compare so. *)
Lemma value_ordered_criteria sort r1 r2 :
  dimIndex sort <> ENTITY_DIM_INDEX ->
  numericColumn sort r1 -> numericColumn sort r2 ->
  valueOrdered sort r1 r2 ->
  Lodash.directed [to_string (order sort)]
    (compareAscending (sortValueOf sort r1) (sortValueOf sort r2)) <= 0.
Proof.
  intros Hd H1 H2. rewrite !DataTableProofs.numeric_criterion by done.
  unfold valueOrdered.
  destruct (finiteValue sort r1) as [a|], (finiteValue sort r2) as [b|];
    destruct (order sort);
    rewrite ?DataTableProofs.directed_asc, ?DataTableProofs.directed_desc;
    unfold Lodash.compareAscending, undefinedLast; simpl; unfold flip;
    try done; try lia.
  all: destruct (decide (Lodash.KFinite a <> Lodash.KFinite b)) as [Hne|Heq];
    [ destruct (Z.ltb_spec b a), (Z.ltb_spec a b); try lia;
      intros ?; exfalso; apply Hne; f_equal; lia
    | lia ].
Qed.

(** Rows of a column of strings that are in order compare so. *)
Lemma text_ordered_criteria sort r1 r2 :
  dimIndex sort <> ENTITY_DIM_INDEX ->
  textColumn sort r1 -> textColumn sort r2 ->
  textOrdered sort r1 r2 ->
  Lodash.directed [to_string (order sort)]
    (compareAscending (sortValueOf sort r1) (sortValueOf sort r2)) <= 0.
Proof.
  intros Hd [s1 H1] [s2 H2]. unfold sortValueOf, textOrdered, textValue.
  rewrite !decide_False, H1, H2 by done. apply entity_ordered_criteria.
Qed.

Lemma compareAscending_same k : compareAscending k k = 0.
Proof. unfold Lodash.compareAscending. by rewrite decide_False by tauto. Qed.

Lemma directed_same orders k :
  Lodash.directed orders (compareAscending k k) <= 0.
Proof.
  rewrite compareAscending_same. unfold Lodash.directed.
  destruct (orders !! 0%nat); lia.
Qed.

(** X5: the sort is stable.  Two rows to which the sort-value mapper gives
    the same value (the same entity name, the same number, the same text, or
    no finite number at all) are displayed in the order in which the
    transform lists them, in ascending as in descending order, whenever the
    sorted column is the entity column, a column of numbers or a column of
    strings. *)
Theorem displayRows_stable transform stored cur i j r1 r2 :
  sortState transform stored = Some cur ->
  comparableColumn cur (DataTableTransform.displayRows transform) ->
  (i < j)%nat ->
  DataTableTransform.displayRows transform !! i = Some r1 ->
  DataTableTransform.displayRows transform !! j = Some r2 ->
  sortValueOf cur r1 = sortValueOf cur r2 ->
  exists rows,
    displayRows ToNumber transform stored = Some rows /\
    ListOrder.occursBefore r1 r2 rows.
Proof.
  intros Hcur Hcol Hij H1 H2 Hsame.
  unfold displayRows, sortValueMapper, tableState_sort.
  rewrite Hcur. simpl. eexists. split; [reflexivity|].
  assert (Htie : Lodash.directed [to_string (order cur)]
            (compareAscending (sortValueOf cur r1) (sortValueOf cur r2)) <= 0).
  { rewrite Hsame. apply directed_same. }
  assert (Hin1 : r1 ∈ DataTableTransform.displayRows transform)
    by (by eapply list_elem_of_lookup_2).
  assert (Hin2 : r2 ∈ DataTableTransform.displayRows transform)
    by (by eapply list_elem_of_lookup_2).
  destruct Hcol as [Hd|[[Hd Hnum]|[Hd Htext]]].
  - apply (LodashLaws.orderBy_keeps_order ToNumber _
             (entityOrdered (order cur))
             (Transitive0 := DataTableProofs.entityOrdered_trans _)
             _ _ _ i j); try done.
    + intros x y _ _. unfold sortValueOf. rewrite !decide_True by done.
      split; [apply DataTableProofs.entity_criteria_ordered
             |apply entity_ordered_criteria].
    + unfold sortValueOf in Htie. rewrite !decide_True in Htie by done.
      by apply DataTableProofs.entity_criteria_ordered in Htie.
  - rewrite Forall_forall in Hnum.
    apply (LodashLaws.orderBy_keeps_order ToNumber _ (valueOrdered cur)
             (Transitive0 := DataTableProofs.valueOrdered_trans _)
             _ _ _ i j); try done.
    + intros x y Hx Hy.
      split; [apply DataTableProofs.value_criteria_ordered
             |apply value_ordered_criteria]; auto.
    + apply (DataTableProofs.value_criteria_ordered ToNumber); auto.
  - rewrite Forall_forall in Htext.
    apply (LodashLaws.orderBy_keeps_order ToNumber _ (textOrdered cur)
             (Transitive0 := DataTableProofs.textOrdered_trans _)
             _ _ _ i j); try done.
    + intros x y Hx Hy.
      split; [apply DataTableProofs.text_criteria_ordered
             |apply text_ordered_criteria]; auto.
    + apply (DataTableProofs.text_criteria_ordered ToNumber); auto.
Qed.

End Stability.

Lemma displayRows_stable_witness :
  exists rows,
    displayRows notANumber
      (oneColumn [rowOf "Ghana" (valueOf (Finite 3));
                  rowOf "India" (valueOf (Finite 1));
                  rowOf "Chile" (valueOf (Finite 3))])
      (byValue desc) = Some rows /\
    ListOrder.occursBefore (rowOf "Ghana" (valueOf (Finite 3)))
      (rowOf "Chile" (valueOf (Finite 3))) rows.
Proof.
  apply (displayRows_stable notANumber
           (oneColumn [rowOf "Ghana" (valueOf (Finite 3));
                       rowOf "India" (valueOf (Finite 1));
                       rowOf "Chile" (valueOf (Finite 3))])
           (byValue desc) (byValue desc) 0 2).
  - reflexivity.
  - right. left. split; [vm_compute; discriminate|].
    repeat constructor; intros s; vm_compute; discriminate.
  - lia.
  - reflexivity.
  - reflexivity.
  - reflexivity.
Defined.

(** X6: a click on the entity header always leaves the table sorted by
    entity name, whatever it was sorted by before and whatever the transform
    holds: the displayed rows are the rows of the transform in the order of
    their names, in the direction the click stored. *)
Theorem click_entity_sorts_by_name ToNumber transform stored stored' :
  onClick transform stored ClickEntity = Some stored' ->
  exists rows,
    displayRows ToNumber transform stored' = Some rows /\
    rows ≡ₚ DataTableTransform.displayRows transform /\
    StronglySorted (entityOrdered (order stored')) rows.
Proof.
  simpl. unfold updateSort.
  destruct (tableState_sort transform stored) as [sort|]; [|discriminate].
  intros [= <-].
  unfold displayRows, sortValueMapper, tableState_sort.
  rewrite DataTableProofs.sortState_eq by (simpl; lia).
  simpl.
  assert (Hmin : Z.min ENTITY_DIM_INDEX
                   (Z.of_nat (length (dimensions transform)) - 1)
                 = ENTITY_DIM_INDEX) by (unfold ENTITY_DIM_INDEX; lia).
  rewrite Hmin. simpl. eexists. split; [reflexivity|].
  split; [apply LodashProofs.orderBy_Permutation|].
  apply LodashProofs.orderBy_StronglySorted;
    [apply DataTableProofs.entityOrdered_trans|].
  intros x y _ _. unfold sortValueOf. simpl.
  apply DataTableProofs.entity_criteria_ordered.
Qed.

Lemma click_entity_sorts_by_name_witness :
  exists rows,
    displayRows notANumber
      (oneColumn [rowOf "Ghana" None; rowOf "Chile" None])
      {| dimIndex := ENTITY_DIM_INDEX; columnKey := None; order := asc |}
      = Some rows /\
    StronglySorted (entityOrdered asc) rows.
Proof.
  destruct (click_entity_sorts_by_name notANumber
              (oneColumn [rowOf "Ghana" None; rowOf "Chile" None])
              (byValue desc)
              {| dimIndex := ENTITY_DIM_INDEX; columnKey := None;
                 order := asc |})
    as (rows & Hrows & _ & Hsorted).
  - reflexivity.
  - exists rows. split; [exact Hrows | exact Hsorted].
Defined.

End DataTableLaws.

(* ===================================================================== *)
(** * Further properties of the COVID data explorer *)
(* ===================================================================== *)

Module CovidLaws.
Import CovidDataExplorer CovidControls Samples.

(** ** The pickers *)

(** X7: whatever value the control hands it, no handler of the interval
    picker leaves both frequencies set, the smoothing is 0 or 7 afterwards
    and it is 7 only together with the daily frequency; the metric flags, the
    per-capita and alignment flags and the selected countries are not
    touched. *)
Theorem frequencyPicker_consistent constrainedParams smoothingAvailable
    dailyFreqAvailable params0 :
  Forall
    (fun option => forall value params,
       let after := onChange option value params in
       totalFreq after && dailyFreq after = false /\
       (smoothing after = 0 \/ smoothing after = 7) /\
       (smoothing after = 7 ->
        dailyFreq after = true /\ totalFreq after = false) /\
       metricFlags after = metricFlags params /\
       perCapita after = perCapita params /\
       aligned after = aligned params /\
       selectedCountryCodes after = selectedCountryCodes params)
    (frequencyPicker constrainedParams smoothingAvailable dailyFreqAvailable
       params0).
Proof.
  unfold frequencyPicker.
  repeat apply Forall_cons_2; [| | |apply Forall_nil_2];
    intros value params; simpl; split_and!;
    try done; try lia; try (by left); try (by right);
    try apply andb_false_r.
Qed.

(** X8: the groups behave as radio buttons.  After the handler of option
    [n] of the metric picker has run, a picker drawn from the changed
    parameters has option [n] checked and no other; the same holds for the
    interval picker when the control hands its handler [true]. *)
Theorem picked_option_checked constrainedParams smoothingAvailable
    dailyFreqAvailable params0 params :
  (forall n handler,
     metricHandlers constrainedParams !! n = Some handler ->
     metricChecked (handler params) = onlyChecked n 6) /\
  (forall n option available1 available2,
     frequencyPicker constrainedParams smoothingAvailable dailyFreqAvailable
       params0 !! n = Some option ->
     let after := onChange option true params in
     checked <$> frequencyPicker after available1 available2 after
       = onlyChecked n 3).
Proof.
  split.
  - intros n handler Hn.
    do 6 (destruct n as [|n]; [injection Hn as <-; reflexivity|]).
    discriminate.
  - intros n option available1 available2 Hn.
    do 3 (destruct n as [|n]; [injection Hn as <-; reflexivity|]).
    discriminate.
Qed.

Lemma picked_option_checked_witness :
  metricChecked (set_deathsMetric true (clearMetricsCommand sampleParams))
    = [false; true; false; false; false; false] /\
  checked <$>
    frequencyPicker
      (set_smoothing 0 (set_dailyFreq false (set_totalFreq true sampleParams)))
      true true
      (set_smoothing 0 (set_dailyFreq false (set_totalFreq true sampleParams)))
    = [true; false; false].
Proof.
  destruct (picked_option_checked sampleParams true true sampleParams
              sampleParams) as [Hmetric Hfreq].
  split.
  - apply (Hmetric 1%nat
             (fun params => updateChart
                (set_deathsMetric true (clearMetricsCommand params)))).
    reflexivity.
  - apply (Hfreq 0%nat
             {| available := true; label := "Cumulative";
                checked := totalFreq sampleParams;
                onChange := fun value params =>
                  updateChart
                    (setSmoothingCommand 0
                       (setDailyFrequencyCommand false
                          (setTotalFrequencyCommand value params))) |}
             true true).
    reflexivity.
Defined.

(** ** Variable ids *)

Section Variables.

Variable buildCovidVariableId : MetricKind -> Z -> Z -> bool -> Z.
Variable lastUpdated : string.

Local Abbreviation initVariableAndGetId :=
  (initVariableAndGetId buildCovidVariableId lastUpdated).
Local Abbreviation yVariableId :=
  (yVariableId buildCovidVariableId lastUpdated).
Local Abbreviation builtFrom := (builtFrom buildCovidVariableId).

(** X9: picking a metric and then an interval always gives the chart its
    variable, whatever the parameters were before: [yVariableId] logs no
    error and returns the id [buildCovidVariableId] gives for the column of
    the picked metric, daily unless "Cumulative" was picked, with smoothing 7
    exactly for the rolling average; and the two picks can be made in either
    order. *)
Theorem picked_variable constrainedParams smoothingAvailable
    dailyFreqAvailable params0 n m handler option params st :
  metricHandlers constrainedParams !! n = Some handler ->
  frequencyPicker constrainedParams smoothingAvailable dailyFreqAvailable
    params0 !! m = Some option ->
  let after := onChange option true (handler params) in
  after = handler (onChange option true params) /\
  smoothing after = (if decide (m = 1%nat) then 7 else 0) /\
  exists columnName,
    metricColumns !! n = Some columnName /\
    builtFrom after st columnName (bool_decide (m <> 0%nat))
      (yVariableId after st).
Proof.
  intros Hn Hm.
  repeat (destruct n as [|n]; [injection Hn as <-|]); try discriminate Hn;
    (repeat (destruct m as [|m]; [injection Hm as <-|]));
    try discriminate Hm;
    (split; [reflexivity|]); (split; [reflexivity|]);
    (eexists; split; [reflexivity|]);
    unfold CovidDataExplorer.yVariableId; simpl;
    first
      [ by apply CovidDataExplorerProofs.initVariableAndGetId_built
      | unfold bind;
        destruct (addNewCasesSmoothed st) as [[] st'] eqn:Ha;
        apply CovidDataExplorerProofs.initVariableAndGetId_built;
        rewrite <- (CovidDataExplorerProofs.addNewCasesSmoothed_console st);
        by rewrite Ha ].
Qed.

End Variables.

Lemma picked_variable_witness :
  smoothing
    (set_totalFreq false
       (set_dailyFreq true
          (set_smoothing 7
             (set_testsMetric true (clearMetricsCommand sampleParams))))) = 7 /\
  exists columnName,
    metricColumns !! 3%nat = Some columnName /\
    builtFrom sampleVariableId
      (set_totalFreq false
         (set_dailyFreq true
            (set_smoothing 7
               (set_testsMetric true (clearMetricsCommand sampleParams)))))
      initialState columnName true
      (yVariableId sampleVariableId "Data last updated today"
         (set_totalFreq false
            (set_dailyFreq true
               (set_smoothing 7
                  (set_testsMetric true (clearMetricsCommand sampleParams)))))
         initialState).
Proof.
  destruct (picked_variable sampleVariableId "Data last updated today"
              sampleParams true true sampleParams 3 1
              (fun params => updateChart
                 (set_testsMetric true (clearMetricsCommand params)))
              {| available := true; label := "7-day rolling average";
                 checked := bool_decide (smoothing sampleParams = 7);
                 onChange := fun _ params =>
                   setTotalFrequencyCommand false
                     (setDailyFrequencyCommand true
                        (updateChart (setSmoothingCommand 7 params))) |}
              sampleParams initialState) as (_ & Hs & Hv).
  - reflexivity.
  - reflexivity.
  - split; [exact Hs | exact Hv].
Defined.

(** ** The variable set only grows *)

Section Caching.

Variable buildCovidVariableId : MetricKind -> Z -> Z -> bool -> Z.
Variable lastUpdated : string.

Local Abbreviation initVariableAndGetId :=
  (initVariableAndGetId buildCovidVariableId lastUpdated).
Local Abbreviation yVariableId :=
  (yVariableId buildCovidVariableId lastUpdated).



Lemma addNewCasesSmoothed_again st :
  (addNewCasesSmoothed (addNewCasesSmoothed st).2).2
  = (addNewCasesSmoothed st).2.
Proof. unfold addNewCasesSmoothed. by destruct (smoothedAdded st) eqn:H; simpl; rewrite ?H. Qed.



End Caching.


(** ** The selected countries *)

Lemma toggleSelectedCountry_codes code value p :
  toggleSelectedCountry code value p =
    set_selectedCountryCodes
      (selectedCountryCodes (toggleSelectedCountry code value p)) p.
Proof.
  unfold toggleSelectedCountry.
  destruct value as [[]|]; [done..|].
  by destruct (decide (code ∈ selectedCountryCodes p)).
Qed.

Lemma toggleSelectedCountry_elem x code value p :
  x ∈ selectedCountryCodes (toggleSelectedCountry code value p) <->
  (x = code /\ (value = Some true \/
                (value = None /\ code ∉ selectedCountryCodes p))) \/
  (x <> code /\ x ∈ selectedCountryCodes p).
Proof.
  unfold toggleSelectedCountry.
  destruct value as [[]|]; simpl;
    [| |destruct (decide (code ∈ selectedCountryCodes p)); simpl];
    rewrite ?elem_of_union, ?elem_of_difference, ?elem_of_singleton;
    destruct (decide (x = code)) as [->|];
    intuition (try congruence; eauto).
Qed.

(** X11: flipping the same country twice selects the countries that were
    selected before, and commands on different countries select the same
    countries in either order; neither touches another parameter.  (Stated of
    which countries are selected: the order in which the JavaScript [Set]
    lists them can differ.) *)
Theorem toggleSelectedCountryCommand_laws code other value value' params :
  let twice :=
    toggleSelectedCountryCommand code None
      (toggleSelectedCountryCommand code None params) in
  let one :=
    toggleSelectedCountryCommand code value
      (toggleSelectedCountryCommand other value' params) in
  let two :=
    toggleSelectedCountryCommand other value'
      (toggleSelectedCountryCommand code value params) in
  (forall x,
     x ∈ selectedCountryCodes twice <-> x ∈ selectedCountryCodes params) /\
  set_selectedCountryCodes ∅ twice = set_selectedCountryCodes ∅ params /\
  set_selectedCountryCodes ∅ one = set_selectedCountryCodes ∅ params /\
  set_selectedCountryCodes ∅ two = set_selectedCountryCodes ∅ params /\
  (code <> other ->
   forall x, x ∈ selectedCountryCodes one <-> x ∈ selectedCountryCodes two).
Proof.
  intros twice one two.
  unfold twice, one, two, toggleSelectedCountryCommand, updateChart.
  assert (Hothers : forall c v p,
            set_selectedCountryCodes ∅ (toggleSelectedCountry c v p)
            = set_selectedCountryCodes ∅ p).
  { intros c v p. by rewrite (toggleSelectedCountry_codes c v p). }
  split; [|split; [|split; [|split]]].
  - intros x. rewrite !toggleSelectedCountry_elem.
    destruct (decide (x = code)) as [->|]; [|intuition congruence].
    destruct (decide (code ∈ selectedCountryCodes params));
      intuition congruence.
  - by rewrite !Hothers.
  - by rewrite !Hothers.
  - by rewrite !Hothers.
  - intros Hne x. rewrite !toggleSelectedCountry_elem.
    destruct (decide (x = code)) as [Hc|Hc], (decide (x = other)) as [Ho|Ho];
      intuition congruence.
Qed.

Lemma toggleSelectedCountryCommand_laws_witness :
  ("GBR" ∈ selectedCountryCodes
             (toggleSelectedCountryCommand "GBR" None
                (toggleSelectedCountryCommand "GBR" None sampleParams))) /\
  ("FRA" ∈ selectedCountryCodes
             (toggleSelectedCountryCommand "FRA" (Some true)
                (toggleSelectedCountryCommand "GBR" None sampleParams))).
Proof.
  destruct (toggleSelectedCountryCommand_laws "GBR" "FRA" None (Some true)
              sampleParams) as (Htwice & _ & _ & _ & Hswap).
  split.
  - apply Htwice. simpl. apply elem_of_union. right.
    by apply elem_of_singleton.
  - apply Hswap; [discriminate|]. simpl. apply elem_of_union. left.
    by apply elem_of_singleton.
Defined.

End CovidLaws.

(* ===================================================================== *)
(** * The selection made in the chart *)
(* ===================================================================== *)

Module CovidSelectionLaws.
Import CovidDataExplorer CovidSelection.

Lemma forEach_toggle_others codes value p :
  set_selectedCountryCodes ∅
    (forEach codes (fun code => toggleSelectedCountry code (Some value)) p)
  = set_selectedCountryCodes ∅ p.
Proof.
  unfold forEach. revert p.
  induction codes as [|c codes IH]; intros p; simpl; [done|].
  rewrite IH. by destruct value.
Qed.

Lemma forEach_toggle_elem codes value p x :
  x ∈ selectedCountryCodes
        (forEach codes (fun code => toggleSelectedCountry code (Some value)) p)
  <-> match value with
      | true => x ∈ codes \/ x ∈ selectedCountryCodes p
      | false => (x ∉ codes) /\ x ∈ selectedCountryCodes p
      end.
Proof.
  unfold forEach. revert p.
  induction codes as [|c codes IH]; intros p; simpl.
  - destruct value; rewrite ?elem_of_nil; tauto.
  - rewrite IH. destruct value; simpl;
      rewrite ?elem_of_union, ?elem_of_difference, ?elem_of_singleton,
        !elem_of_cons;
      destruct (decide (x = c)); intuition congruence.
Qed.

Lemma elem_of_difference_list x array values :
  x ∈ difference array values <-> x ∈ array /\ x ∉ values.
Proof. unfold difference. rewrite list_elem_of_filter. tauto. Qed.

(** X12: the listener ignores exactly the change that follows an update
    made by the explorer itself.  Any other update of the chart's selection
    selects the countries it added and unselects those it removed, by
    comparing the chart's new selection with its old one only: a country in
    neither keeps the state it had in the explorer, and no other parameter
    changes.  If the explorer had every country of the old selection
    selected, it has every country of the new one selected afterwards. *)
Theorem observeChartEntitySelection_applies st newCodes oldValue :
  let oldCodes := default [] oldValue in
  let before := selectedCountryCodes (params st) in
  let after := observeChartEntitySelection st (update newCodes oldValue) in
  (selectionChangeFromBuilder st = true ->
   after = {| selectionChangeFromBuilder := false; params := params st |}) /\
  (selectionChangeFromBuilder st = false ->
   selectionChangeFromBuilder after = false /\
   set_selectedCountryCodes ∅ (params after)
     = set_selectedCountryCodes ∅ (params st) /\
   (forall code,
      code ∈ selectedCountryCodes (params after) <->
      (code ∈ newCodes /\ code ∉ oldCodes) \/
      (code ∈ before /\ (code ∈ oldCodes -> code ∈ newCodes))) /\
   ((forall code, code ∈ oldCodes -> code ∈ before) ->
    forall code, code ∈ newCodes ->
      code ∈ selectedCountryCodes (params after))).
Proof.
  intros oldCodes before after. unfold after, observeChartEntitySelection.
  split; intros Hflag; rewrite Hflag; [done|]. simpl.
  fold oldCodes. unfold updateChart.
  assert (Hmem : forall code,
    code ∈ selectedCountryCodes
      (forEach (difference oldCodes newCodes)
         (fun code => toggleSelectedCountry code (Some false))
         (forEach (difference newCodes oldCodes)
            (fun code => toggleSelectedCountry code (Some true))
            (params st))) <->
    (code ∈ newCodes /\ code ∉ oldCodes) \/
    (code ∈ before /\ (code ∈ oldCodes -> code ∈ newCodes))).
  { intros code.
    rewrite (forEach_toggle_elem _ false), (forEach_toggle_elem _ true).
    rewrite !elem_of_difference_list. fold before.
    destruct (decide (code ∈ newCodes)), (decide (code ∈ oldCodes)); tauto. }
  split; [done|]. split; [|split; [exact Hmem|]].
  - by rewrite !forEach_toggle_others.
  - intros Hsync code Hnew. apply Hmem.
    destruct (decide (code ∈ oldCodes)) as [Hold|Hold]; [right|left]; auto.
Qed.

Lemma observeChartEntitySelection_applies_witness :
  "FRA" ∈ selectedCountryCodes
            (params
               (observeChartEntitySelection
                  {| selectionChangeFromBuilder := false;
                     params := Samples.sampleParams |}
                  (update ["USA"; "FRA"] (Some ["USA"; "GBR"])))) /\
  "USA" ∈ selectedCountryCodes
            (params
               (observeChartEntitySelection
                  {| selectionChangeFromBuilder := false;
                     params := Samples.sampleParams |}
                  (update ["USA"; "FRA"] (Some ["USA"; "GBR"])))).
Proof.
  destruct (observeChartEntitySelection_applies
              {| selectionChangeFromBuilder := false;
                 params := Samples.sampleParams |}
              ["USA"; "FRA"] (Some ["USA"; "GBR"])) as [_ Happlied].
  destruct Happlied as (_ & _ & _ & Hsync); [reflexivity|].
  assert (Hold : forall code, code ∈ ["USA"; "GBR"] ->
                   code ∈ selectedCountryCodes Samples.sampleParams).
  { intros code Hcode. simpl.
    apply elem_of_union. apply elem_of_cons in Hcode as [-> | Hcode].
    - left. by apply elem_of_singleton.
    - apply elem_of_cons in Hcode as [-> | Hcode].
      + right. by apply elem_of_singleton.
      + by apply elem_of_nil in Hcode. }
  split; apply (Hsync Hold).
  - apply elem_of_cons. right. apply elem_of_cons. by left.
  - apply elem_of_cons. by left.
Defined.

End CovidSelectionLaws.

(* ===================================================================== *)
(** * Countries, their indices and their colours *)
(* ===================================================================== *)

Module CovidCountriesLaws.
Import CovidDataExplorer CovidCountries SampleExplorer.

(** ** The maps made from the country options *)

Lemma forEachIndexed_snoc {A M} (array : list A) (x : A)
    (f : A -> nat -> M -> M) (empty : M) :
  forEachIndexed (array ++ [x]) f empty
  = f x (length array) (forEachIndexed array f empty).
Proof.
  unfold forEachIndexed. rewrite imap_app, foldl_app. simpl.
  by rewrite Nat.add_0_r.
Qed.

(** A map filled by [forEach] holds, for each key, what the last element
    with this key set. *)
Lemma forEachIndexed_lookup {A V} `{Countable K} (keyOf : A -> nat -> K)
    (valueOf : A -> nat -> V) (array : list A) (k : K) :
  match forEachIndexed array
          (fun x i (map : gmap K V) => <[keyOf x i := valueOf x i]> map) ∅
        !! k with
  | Some v =>
      exists i x, array !! i = Some x /\ keyOf x i = k /\ v = valueOf x i /\
        forall j y, (i < j)%nat -> array !! j = Some y -> keyOf y j <> k
  | None => forall i x, array !! i = Some x -> keyOf x i <> k
  end.
Proof.
  induction array as [|x array IH] using rev_ind.
  - unfold forEachIndexed. simpl. rewrite lookup_empty. by intros i x.
  - rewrite forEachIndexed_snoc.
    destruct (decide (keyOf x (length array) = k)) as [Hk|Hk].
    + subst k. rewrite lookup_insert_eq.
      exists (length array), x.
      split; [by rewrite lookup_app_r, Nat.sub_diag by lia|].
      split; [done|]. split; [done|].
      intros j y Hj Hy. apply lookup_lt_Some in Hy.
      rewrite length_app in Hy. simpl in Hy. lia.
    + rewrite lookup_insert_ne by done.
      destruct (forEachIndexed array _ ∅ !! k) as [v|].
      * destruct IH as (i & y & Hi & Hy & Hv & Hlast).
        exists i, y. split; [by apply lookup_app_l_Some|].
        split; [done|]. split; [done|].
        intros j z Hj Hz.
        destruct (decide (j < length array)%nat) as [Hlt|Hge].
        -- rewrite lookup_app_l in Hz by done. by eapply Hlast.
        -- rewrite lookup_app_r in Hz by lia.
           destruct (j - length array)%nat as [|n] eqn:Hn; [|done].
           injection Hz as <-. by replace j with (length array) by lia.
      * intros i y Hi.
        destruct (decide (i < length array)%nat) as [Hlt|Hge].
        -- rewrite lookup_app_l in Hi by done. by eapply IH.
        -- rewrite lookup_app_r in Hi by lia.
           destruct (i - length array)%nat as [|n] eqn:Hn; [|done].
           injection Hi as <-. by replace i with (length array) by lia.
Qed.

(** X13: the index [countryCodeMap] gives for a code is that of the last
    country option with this code; [entityKey] holds at this index the name
    and code of that option, and [countryCodeToNameMap] gives its name.  A
    code of no option has no entry in either map.  In the same way
    [countryMap] leads from a name to an option of this name. *)
Theorem countryCodeMap_points_back countryOptions c :
  match countryCodeMap countryOptions !! c with
  | Some index =>
      exists country,
        countryOptions !! index = Some country /\
        code country = c /\
        (forall j other, (index < j)%nat ->
           countryOptions !! j = Some other -> code other <> c) /\
        countryCodeToNameMap countryOptions !! c = Some (name country) /\
        entityKey countryOptions !! index =
          Some {| em_name := name country; em_code := c; em_id := index |}
  | None =>
      (c ∉ (code <$> countryOptions)) /\
      countryCodeToNameMap countryOptions !! c = None
  end /\
  match countryMap countryOptions !! c with
  | Some index =>
      exists country,
        countryOptions !! index = Some country /\ name country = c
  | None => c ∉ (name <$> countryOptions)
  end.
Proof.
  split.
  - pose proof (forEachIndexed_lookup (fun x _ => code x) (fun _ i => i)
                  countryOptions c) as Hcode.
    pose proof (forEachIndexed_lookup (fun x _ => code x) (fun x _ => name x)
                  countryOptions c) as Hname.
    change (forEachIndexed _ _ _) with (countryCodeMap countryOptions)
      in Hcode.
    change (forEachIndexed _ _ _) with (countryCodeToNameMap countryOptions)
      in Hname.
    destruct (countryCodeMap countryOptions !! c) as [index|].
    + destruct Hcode as (i & country & Hi & Hc & -> & Hlast).
      exists country. split; [done|]. split; [done|]. split; [done|]. split.
      * destruct (countryCodeToNameMap countryOptions !! c) as [nm|].
        -- destruct Hname as (i' & country' & Hi' & Hc' & -> & Hlast').
           destruct (Nat.lt_trichotomy i i') as [Hlt|[Heq|Hgt]].
           ++ by destruct (Hlast i' country' Hlt Hi').
           ++ subst i'. rewrite Hi in Hi'. by injection Hi' as <-.
           ++ by destruct (Hlast' i country Hgt Hi).
        -- by destruct (Hname i country Hi).
      * pose proof (forEachIndexed_lookup (fun _ i => i)
                      (fun x i => {| em_name := name x; em_code := code x;
                                     em_id := i |})
                      countryOptions i) as Hkey.
        change (forEachIndexed _ _ _) with (entityKey countryOptions)
          in Hkey.
        destruct (entityKey countryOptions !! i) as [entry|].
        -- destruct Hkey as (i' & country' & Hi' & -> & -> & _).
           rewrite Hi in Hi'. injection Hi' as <-. by rewrite Hc.
        -- by destruct (Hkey i country Hi).
    + split.
      * intros (country & -> & Hin)%list_elem_of_fmap.
        apply list_elem_of_lookup in Hin as [i Hi].
        by destruct (Hcode i country Hi).
      * destruct (countryCodeToNameMap countryOptions !! c) as [nm|];
          [|done].
        destruct Hname as (i & country & Hi & Hc & _).
        by destruct (Hcode i country Hi).
  - pose proof (forEachIndexed_lookup (fun x _ => name x) (fun _ i => i)
                  countryOptions c) as Hname.
    change (forEachIndexed _ _ _) with (countryMap countryOptions) in Hname.
    destruct (countryMap countryOptions !! c) as [index|].
    + destruct Hname as (i & country & Hi & Hc & -> & _). by exists country.
    + intros (country & -> & Hin)%list_elem_of_fmap.
      apply list_elem_of_lookup in Hin as [i Hi].
      by destruct (Hname i country Hi).
Qed.

Lemma countryCodeMap_points_back_witness :
  countryCodeMap sampleOptions !! "GHA" = Some 1%nat /\
  countryCodeToNameMap sampleOptions !! "GHA" = Some "Ghana" /\
  entityKey sampleOptions !! 1%nat =
    Some {| em_name := "Ghana"; em_code := "GHA"; em_id := 1 |}.
Proof.
  destruct (countryCodeMap_points_back sampleOptions "GHA") as [Hcode _].
  assert (Hindex : countryCodeMap sampleOptions !! "GHA" = Some 1%nat)
    by (vm_compute; reflexivity).
  rewrite Hindex in Hcode.
  destruct Hcode as (country & Hcountry & _ & _ & Hname & Hkey).
  injection Hcountry as <-.
  split; [exact Hindex|]. split; [exact Hname | exact Hkey].
Defined.

(** ** Objects as ordered lists of properties *)

Lemma get_set {V} (k k' : string) (v : V) obj :
  JSObject.get k' (JSObject.set k v obj) =
    if decide (k = k') then Some v else JSObject.get k' obj.
Proof.
  induction obj as [|[k0 v0] obj IH]; simpl.
  - done.
  - destruct (decide (k0 = k)) as [->|Hne]; simpl.
    + by destruct (decide (k = k')).
    + rewrite IH. destruct (decide (k0 = k')) as [->|]; [|done].
      by rewrite decide_False by congruence.
Qed.

Lemma has_get {V} (k : string) (obj : JSObject.t V) :
  JSObject.has k obj = true <-> is_Some (JSObject.get k obj).
Proof. unfold JSObject.has. apply bool_decide_eq_true. Qed.

Lemma has_get_None {V} (k : string) (obj : JSObject.t V) :
  JSObject.has k obj = false <-> JSObject.get k obj = None.
Proof.
  unfold JSObject.has. rewrite bool_decide_eq_false.
  rewrite <- eq_None_not_Some. tauto.
Qed.

Lemma get_pick_from {V} (object result : JSObject.t V) paths k :
  JSObject.get k
    (foldl (fun result path =>
              match JSObject.get path object with
              | Some value => JSObject.set path value result
              | None => result
              end) result paths)
  = match (if decide (k ∈ paths) then JSObject.get k object else None) with
    | Some v => Some v
    | None => JSObject.get k result
    end.
Proof.
  revert result. induction paths as [|c paths IH]; intros result; simpl.
  - by destruct (decide (k ∈ [])) as [?%elem_of_nil|].
  - rewrite IH.
    destruct (decide (k ∈ paths)) as [Hin|Hout].
    + rewrite decide_True by (apply elem_of_cons; tauto).
      destruct (JSObject.get k object) as [v|] eqn:Hk; [done|].
      destruct (JSObject.get c object) as [w|] eqn:Hc; [|done].
      rewrite get_set. destruct (decide (c = k)) as [->|]; congruence.
    + destruct (decide (c = k)) as [->|Hne].
      * rewrite decide_True by (apply elem_of_cons; tauto).
        destruct (JSObject.get k object) as [v|] eqn:Hk; [|done].
        rewrite get_set. by rewrite decide_True.
      * rewrite decide_False by (rewrite elem_of_cons; intros [?|?]; auto).
        destruct (JSObject.get c object) as [w|] eqn:Hc; [|done].
        rewrite get_set. by rewrite decide_False.
Qed.

Lemma get_pick {V} (object : JSObject.t V) paths k :
  JSObject.get k (JSObject.pick object paths) =
    if decide (k ∈ paths) then JSObject.get k object else None.
Proof.
  unfold JSObject.pick. rewrite get_pick_from. simpl.
  by destruct (if decide (k ∈ paths) then _ else _).
Qed.

(** Assigning a value to each of [codes] in turn leaves the other
    properties alone and gives each of [codes] one. *)
Lemma get_assigned {V} (valueFor : JSObject.t V -> V) codes obj k :
  let assigned :=
    foldl (fun obj code => JSObject.set code (valueFor obj) obj) obj codes in
  (k ∉ codes -> JSObject.get k assigned = JSObject.get k obj) /\
  (k ∈ codes -> is_Some (JSObject.get k assigned)) /\
  (is_Some (JSObject.get k obj) -> is_Some (JSObject.get k assigned)).
Proof.
  revert obj. induction codes as [|c codes IH]; intros obj; simpl.
  - split; [done|]. split; [|done]. by intros ?%elem_of_nil.
  - destruct (IH (JSObject.set c (valueFor obj) obj)) as (Hout & Hin & Hkeep).
    assert (Hstep : is_Some (JSObject.get k obj) \/ c = k ->
              is_Some (JSObject.get k (JSObject.set c (valueFor obj) obj))).
    { rewrite get_set. destruct (decide (c = k)); [eauto|]. tauto. }
    split; [|split].
    + intros Hk. rewrite Hout by (intros ?; apply Hk; apply elem_of_cons; tauto).
      rewrite get_set. rewrite decide_False; [done|].
      intros ->. apply Hk. apply elem_of_cons. tauto.
    + intros [->|Hk]%elem_of_cons; [|by apply Hin].
      apply Hkeep, Hstep. tauto.
    + intros Hk. apply Hkeep, Hstep. tauto.
Qed.

(** ** The colours of the selected countries *)

Section Colours.

Variable countryOptions : list CountryOption.
Variable getLeastUsedColor : list string -> list string -> option string.
Variable availableColors : list string.

Local Abbreviation countryCodeToColorMap :=
  (countryCodeToColorMap countryOptions getLeastUsedColor availableColors).
Local Abbreviation selectedCodes params :=
  (code <$> selectedCountryOptions countryOptions params).

Lemma covered_spec params (cache : JSObject.t (option string)) :
  forallb (fun code => JSObject.has code cache) (selectedCodes params) = true
  <-> forall c, c ∈ selectedCodes params -> JSObject.has c cache = true.
Proof.
  rewrite forallb_forall. split; intros H c Hc; apply H;
    by apply list_elem_of_In.
Qed.

(** What the map holds after it was computed anew. *)
Lemma recomputed_get params cache c :
  forallb (fun code => JSObject.has code cache) (selectedCodes params)
    = false ->
  let after := countryCodeToColorMap params cache in
  (c ∈ selectedCodes params -> is_Some (JSObject.get c after)) /\
  (c ∈ selectedCodes params -> is_Some (JSObject.get c cache) ->
   JSObject.get c after = JSObject.get c cache) /\
  (c ∉ selectedCodes params -> JSObject.get c after = None).
Proof.
  intros Hnot. unfold CovidCountries.countryCodeToColorMap.
  rewrite Hnot. simpl.
  set (codes := code <$> selectedCountryOptions countryOptions params).
  set (newColorMap := JSObject.pick cache codes).
  set (codesWithoutColor := filter _ codes).
  destruct (get_assigned
              (fun obj => getLeastUsedColor availableColors (usedColors obj))
              codesWithoutColor newColorMap c) as (Hout & Hin & Hkeep).
  assert (Hwithout : c ∈ codesWithoutColor <->
                     c ∈ codes /\ JSObject.get c cache = None).
  { unfold codesWithoutColor. rewrite list_elem_of_filter, has_get_None.
    unfold newColorMap. rewrite get_pick.
    destruct (decide (c ∈ codes)); tauto. }
  split; [|split].
  - intros Hc. destruct (JSObject.get c cache) as [v|] eqn:Hv.
    + apply Hkeep. unfold newColorMap. rewrite get_pick.
      rewrite decide_True by done. by rewrite Hv.
    + apply Hin, Hwithout. tauto.
  - intros Hc [v Hv]. rewrite Hout.
    + unfold newColorMap. rewrite get_pick. by rewrite decide_True.
    + rewrite Hwithout. intros [_ Hnone]. congruence.
  - intros Hc. rewrite Hout by (rewrite Hwithout; tauto).
    unfold newColorMap. rewrite get_pick. by rewrite decide_False.
Qed.

(** Every selected code has a key afterwards, holding what it held. *)
Lemma selected_get params cache c :
  c ∈ selectedCodes params ->
  let after := countryCodeToColorMap params cache in
  JSObject.has c after = true /\
  (JSObject.has c cache = true ->
   JSObject.get c after = JSObject.get c cache).
Proof.
  intros Hc.
  destruct (forallb (fun code => JSObject.has code cache)
              (selectedCodes params)) eqn:Hcovered.
  - assert (countryCodeToColorMap params cache = cache) as ->.
    { unfold CovidCountries.countryCodeToColorMap. by rewrite Hcovered. }
    split; [|done]. by apply (covered_spec params cache).
  - destruct (recomputed_get params cache c Hcovered) as (Hhas & Hkeep & _).
    split; [by apply has_get, Hhas|].
    intros Hold%has_get. by apply Hkeep.
Qed.

(** X14: the colour map the getter returns has a key for every selected
    country, and a country that had a key keeps what it held: a colour once
    given is not changed while the country stays selected. *)
Theorem countryCodeToColorMap_keeps params cache country :
  country ∈ selectedCountryOptions countryOptions params ->
  let after := countryCodeToColorMap params cache in
  JSObject.has (code country) after = true /\
  (JSObject.has (code country) cache = true ->
   JSObject.get (code country) after = JSObject.get (code country) cache).
Proof.
  intros Hcountry. apply selected_get.
  apply list_elem_of_fmap. by exists country.
Qed.

(** X15: as long as every selected country has a key the map is returned
    as it is, keys of unselected countries included; once one is missing the
    new map has exactly the selected countries as keys.  Either way, asking
    again with the same selection returns the same map. *)
Theorem countryCodeToColorMap_prunes params cache :
  let after := countryCodeToColorMap params cache in
  ((forall c, c ∈ selectedCodes params -> JSObject.has c cache = true) ->
   after = cache) /\
  ((exists c, c ∈ selectedCodes params /\ JSObject.has c cache = false) ->
   forall k, JSObject.has k after = true <-> k ∈ selectedCodes params) /\
  countryCodeToColorMap params after = after.
Proof.
  simpl.
  assert (Hnoop : forall cache',
            (forall c, c ∈ selectedCodes params ->
                       JSObject.has c cache' = true) ->
            countryCodeToColorMap params cache' = cache').
  { intros cache' Hall. apply covered_spec in Hall.
    unfold CovidCountries.countryCodeToColorMap. by rewrite Hall. }
  split; [apply Hnoop|]. split.
  - intros (c & Hc & Hmissing) k.
    assert (Hnot : forallb (fun code => JSObject.has code cache)
                     (selectedCodes params) = false).
    { apply not_true_is_false. intros Hall.
      rewrite (proj1 (covered_spec params cache) Hall c Hc) in Hmissing.
      discriminate. }
    destruct (recomputed_get params cache k Hnot) as (Hhas & _ & Hnone).
    rewrite has_get. split.
    + intros Hk. destruct (decide (k ∈ selectedCodes params)); [done|].
      rewrite Hnone in Hk by done. by destruct Hk.
    + apply Hhas.
  - apply Hnoop. intros c Hc. by apply selected_get.
Qed.

End Colours.

Lemma sampleSelection_chile :
  {| name := "Chile"; code := "CHL" |}
    ∈ selectedCountryOptions sampleOptions sampleSelection.
Proof.
  apply list_elem_of_filter. split.
  - simpl. apply elem_of_union. left. by apply elem_of_singleton.
  - apply elem_of_cons. by left.
Qed.

Lemma countryCodeToColorMap_keeps_witness :
  JSObject.has "CHL"
    (countryCodeToColorMap sampleOptions sampleLeastUsed sampleColors
       sampleSelection [("CHL", Some "#c05917")]) = true /\
  JSObject.get "CHL"
    (countryCodeToColorMap sampleOptions sampleLeastUsed sampleColors
       sampleSelection [("CHL", Some "#c05917")]) = Some (Some "#c05917").
Proof.
  destruct (countryCodeToColorMap_keeps sampleOptions sampleLeastUsed
              sampleColors sampleSelection [("CHL", Some "#c05917")]
              {| name := "Chile"; code := "CHL" |} sampleSelection_chile)
    as [Hhas Hkeep].
  split; [exact Hhas | exact (Hkeep eq_refl)].
Defined.

Lemma countryCodeToColorMap_prunes_witness :
  (JSObject.has "GHA"
     (countryCodeToColorMap sampleOptions sampleLeastUsed sampleColors
        sampleSelection [("GHA", Some "#6d3e91")]) = true
   <-> "GHA" ∈ code <$> selectedCountryOptions sampleOptions sampleSelection)
  /\
  countryCodeToColorMap sampleOptions sampleLeastUsed sampleColors
    sampleSelection
    (countryCodeToColorMap sampleOptions sampleLeastUsed sampleColors
       sampleSelection [("GHA", Some "#6d3e91")])
  = countryCodeToColorMap sampleOptions sampleLeastUsed sampleColors
      sampleSelection [("GHA", Some "#6d3e91")].
Proof.
  destruct (countryCodeToColorMap_prunes sampleOptions sampleLeastUsed
              sampleColors sampleSelection [("GHA", Some "#6d3e91")])
    as (_ & Hprune & Hagain).
  split; [|exact Hagain]. apply Hprune.
  exists "CHL". split; [|reflexivity].
  apply list_elem_of_fmap. exists {| name := "Chile"; code := "CHL" |}.
  split; [reflexivity | exact sampleSelection_chile].
Defined.

End CovidCountriesLaws.

(* ===================================================================== *)
(** * Further properties of the search-indexing script *)
(* ===================================================================== *)

Module IndexToAlgoliaLaws.
Import IndexToAlgolia IndexToAlgoliaPlan.

Lemma strict_prefix_init {A} (finished : list A) c rest body (final : A) :
  finished ++ c :: rest = body ++ [final] ->
  exists rest', body = finished ++ rest'.
Proof.
  destruct rest as [|r rest _] using rev_ind.
  - intros [<- _]%app_inj_tail. exists []. by rewrite app_nil_r.
  - rewrite app_comm_cons, app_assoc.
    intros [<- _]%app_inj_tail. by eexists.
Qed.

(** ** Object ids *)

(** Decimal digits hold no dash: a text made of a number, a dash and a rest
    splits in one way only. *)
Lemma string_of_uint_dash d1 : forall d2 r1 r2,
  NilEmpty.string_of_uint d1 +:+ String "-" r1
  = NilEmpty.string_of_uint d2 +:+ String "-" r2 ->
  d1 = d2 /\ r1 = r2.
Proof.
  induction d1 as [|d1 IH|d1 IH|d1 IH|d1 IH|d1 IH|d1 IH|d1 IH|d1 IH|d1 IH
                   |d1 IH];
    intros [|d2|d2|d2|d2|d2|d2|d2|d2|d2|d2] r1 r2; simpl; intros Heq;
    try discriminate Heq;
    try (injection Heq as Heq; apply IH in Heq as [-> ->]; done).
  by injection Heq as ->.
Qed.

Lemma decimal_inj a b : JS.decimal a = JS.decimal b -> a = b.
Proof.
  unfold JS.decimal. intros Heq.
  assert (Hu : Nat.to_uint a = Nat.to_uint b).
  { apply (f_equal NilEmpty.uint_of_string) in Heq.
    rewrite !NilEmpty.usu in Heq. by injection Heq. }
  apply (f_equal Nat.of_uint) in Hu.
  by rewrite !DecimalNat.Unsigned.of_to in Hu.
Qed.

Lemma chunkObjectID_inj a i b j :
  chunkObjectID a i = chunkObjectID b j -> a = b /\ i = j.
Proof.
  unfold chunkObjectID, JS.decimal. simpl. intros Heq.
  apply string_of_uint_dash in Heq as [Ha Hi].
  split.
  - apply (f_equal Nat.of_uint) in Ha.
    by rewrite !DecimalNat.Unsigned.of_to in Ha.
  - injection Hi as Hi. by apply decimal_inj.
Qed.

Lemma NoDup_fmap_eq {A B} (f : A -> B) (l : list A) x y :
  NoDup (f <$> l) -> x ∈ l -> y ∈ l -> f x = f y -> x = y.
Proof.
  induction l as [|z l IH]; simpl; [by intros _ ?%elem_of_nil|].
  intros [Hz Hl]%NoDup_cons [-> | Hx]%elem_of_cons [-> | Hy]%elem_of_cons Heq;
    auto.
  - exfalso. apply Hz. rewrite Heq. by apply list_elem_of_fmap_2.
  - exfalso. apply Hz. rewrite <- Heq. by apply list_elem_of_fmap_2.
Qed.

(** ** Slice sizes *)

Lemma sliceAt_length {A} (l : list A) k :
  length (sliceAt l k) = (1000 `min` (length l - 1000 * k))%nat.
Proof. unfold sliceAt. by rewrite length_take, length_drop. Qed.

Lemma slices_sizes {A} (l : list A) :
  length <$> slices l = sliceSizes (length l).
Proof.
  unfold slices, sliceSizes. set (n := length l).
  rewrite <- list_fmap_compose.
  pose proof (Nat.div_mod_eq n 1000) as Hd.
  pose proof (Nat.mod_upper_bound n 1000) as Hm.
  assert (Hfull : forall k, (k < n / 1000)%nat ->
                    (length ∘ sliceAt l) k = 1000%nat).
  { intros k Hk. unfold compose. rewrite sliceAt_length. fold n. lia. }
  assert (Hcount : ((n + 999) / 1000 =
            n / 1000 + (if decide (n mod 1000 = 0) then 0 else 1))%nat).
  { destruct (decide (n mod 1000 = 0)%nat) as [Hz|Hnz].
    - rewrite Nat.add_0_r.
      replace (n + 999)%nat with (999 + (n / 1000) * 1000)%nat by lia.
      rewrite Nat.div_add by lia. by rewrite (Nat.div_small 999) by lia.
    - replace (n + 999)%nat
        with ((n mod 1000 - 1) + (n / 1000 + 1) * 1000)%nat by lia.
      rewrite Nat.div_add by lia.
      rewrite (Nat.div_small (n mod 1000 - 1)) by lia. lia. }
  rewrite Hcount, seq_app, fmap_app. f_equal.
  - apply list_eq. intros i. rewrite list_lookup_fmap.
    destruct (decide (i < n / 1000)%nat) as [Hi|Hi].
    + rewrite lookup_seq_lt by done. cbn [fmap option_fmap option_map].
      rewrite lookup_replicate_2 by done. f_equal. by apply Hfull.
    + rewrite lookup_seq_ge by lia. cbn [fmap option_fmap option_map].
      symmetry. apply lookup_replicate_None. lia.
  - destruct (decide (n mod 1000 = 0)%nat); [done|].
    change (seq (0 + n / 1000) 1) with [(n / 1000)%nat].
    rewrite list_fmap_singleton. f_equal. unfold compose.
    rewrite sliceAt_length. fold n. lia.
Qed.

Section Run.

Variable countries : list Country.
Variable wp_posts : list WpPost.
Variable fullPostOf : WpPost -> FullPost.
Variable formatted : FullPost -> FormattedPost.
Variable htmlToPlaintext : string -> string.
Variable chunkParagraphs : string -> nat -> list string.
Variable rejects : list Event -> Call -> bool.

Local Abbreviation chunksOf :=
  (chunksOf fullPostOf formatted htmlToPlaintext chunkParagraphs).
Local Abbreviation postRecords :=
  (postRecords fullPostOf formatted htmlToPlaintext chunkParagraphs).
Local Abbreviation allRecords :=
  (allRecords countries wp_posts fullPostOf formatted htmlToPlaintext
     chunkParagraphs).
Local Abbreviation plannedCalls :=
  (plannedCalls countries wp_posts fullPostOf formatted htmlToPlaintext
     chunkParagraphs).
Local Abbreviation indexToAlgolia :=
  (indexToAlgolia countries wp_posts fullPostOf formatted htmlToPlaintext
     chunkParagraphs rejects).
Local Abbreviation beforeMove :=
  (beforeMove countries wp_posts fullPostOf formatted htmlToPlaintext
     chunkParagraphs).
Local Abbreviation run_events :=
  (IndexToAlgoliaProofs.run_events countries wp_posts fullPostOf formatted
     htmlToPlaintext chunkParagraphs rejects).

Lemma beforeMove_writes c :
  c ∈ beforeMove -> writesTo c = None \/ writesTo c = Some "pages_tmp".
Proof.
  unfold IndexToAlgolia.beforeMove. rewrite !elem_of_app.
  intros [H|[H|H]].
  - repeat (apply elem_of_cons in H as [-> | H]; [simpl; tauto|]).
    by apply elem_of_nil in H.
  - apply list_elem_of_bind in H as (row & H & _).
    repeat (apply elem_of_cons in H as [-> | H]; [simpl; tauto|]).
    by apply elem_of_nil in H.
  - apply list_elem_of_fmap in H as (s & -> & _). simpl. tauto.
Qed.

(** X16: the final index is replaced if and only if the run completes.
    Every call before the concluding move writes to the temporary index
    only; the move resolves exactly in a run in which no call rejects, and so
    does the call of [wpdb.end]: a run that a rejection cuts short leaves the
    final index as it was, and the pool open. *)
Theorem final_index_replaced_iff_done :
  let run := indexToAlgolia [] in
  (forall c, Started c ∈ snd run -> writesTo c = Some "pages" ->
     c = moveIndex "pages_tmp" "pages") /\
  (Resolved (moveIndex "pages_tmp" "pages") ∈ snd run <-> fst run = Done tt) /\
  (poolEnded ∈ snd run <-> fst run = Done tt) /\
  (fst run = Done tt \/
   exists c, fst run = Aborted /\ last (snd run) = Some (Rejected c)).
Proof.
  intros run. unfold run.
  pose proof (IndexToAlgoliaProofs.plannedCalls_beforeMove countries wp_posts
                fullPostOf formatted htmlToPlaintext chunkParagraphs) as Hplan.
  pose proof (IndexToAlgoliaProofs.beforeMove_no_move countries wp_posts
                fullPostOf formatted htmlToPlaintext chunkParagraphs
                "pages_tmp" "pages") as Hnomove.
  split; [|destruct run_events
            as [Hrun|(finished & c & rest & Hp & _ & Hrun)];
           rewrite Hrun; cbn [fst snd]].
  - intros c Hc%IndexToAlgoliaProofs.run_started_planned Hw.
    rewrite Hplan in Hc. apply elem_of_app in Hc as [Hc|Hc].
    + apply beforeMove_writes in Hc as [Hc|Hc]; congruence.
    + apply elem_of_cons in Hc as [-> | Hc]; [done|].
      by apply elem_of_nil in Hc.
  - split; [|split; [|by left]].
    + split; [done|]. intros _. apply elem_of_app. left.
      apply IndexToAlgoliaProofs.elem_of_awaited.
      exists (moveIndex "pages_tmp" "pages"). split; [|by right].
      rewrite Hplan. apply elem_of_app. right. apply elem_of_cons. by left.
    + split; [done|]. intros _. apply elem_of_app. right.
      apply elem_of_cons. by left.
  - rewrite Hplan in Hp.
    symmetry in Hp. apply strict_prefix_init in Hp as [rest' Hbody].
    split; [|split].
    + split; [|discriminate]. intros Hin. exfalso.
      apply elem_of_app in Hin as [Hin|Hin].
      * apply IndexToAlgoliaProofs.elem_of_awaited in Hin
          as (c' & Hc' & [[=]|[= <-]]).
        apply Hnomove. rewrite Hbody. apply elem_of_app. by left.
      * repeat (apply elem_of_cons in Hin as [Hin|Hin]; [discriminate|]).
        by apply elem_of_nil in Hin.
    + split; [|discriminate]. intros Hin. exfalso.
      apply elem_of_app in Hin as [Hin|Hin].
      * by apply IndexToAlgoliaProofs.elem_of_awaited in Hin
          as (c' & Hc' & [[=]|[=]]).
      * repeat (apply elem_of_cons in Hin as [Hin|Hin]; [discriminate|]).
        by apply elem_of_nil in Hin.
    + right. exists c. split; [done|].
      change [Started c; Rejected c] with ([Started c] ++ [Rejected c]).
      by rewrite !app_assoc, last_snoc.
Qed.

(** X17: if the rows of [wp_posts] have distinct ids, no two post records
    have the same object id, so that none replaces another in the index: the
    id of a chunk record gives back its row and its chunk number. *)
Theorem post_objectIDs_distinct :
  NoDup (ID <$> wp_posts) ->
  (forall a i b j, chunkObjectID a i = chunkObjectID b j -> a = b /\ i = j) /\
  NoDup (objectID <$> (runSelect wp_posts publishedPostsQuery ≫= postRecords)).
Proof.
  intros Hids. split; [apply chunkObjectID_inj|].
  rewrite IndexToAlgoliaProofs.query_published.
  rewrite IndexToAlgoliaProofs.fmap_bind.
  apply NoDup_bind.
  - intros row1 row2 o [_ H1]%list_elem_of_filter [_ H2]%list_elem_of_filter.
    rewrite !IndexToAlgoliaProofs.objectID_postRecords.
    intros (i & -> & _)%list_elem_of_fmap (j & Heq & _)%list_elem_of_fmap.
    apply chunkObjectID_inj in Heq as [Heq _].
    by apply (NoDup_fmap_eq ID wp_posts).
  - intros row _. rewrite IndexToAlgoliaProofs.objectID_postRecords.
    apply NoDup_fmap_2_strong; [|apply NoDup_seq].
    intros i j _ _ Heq. by apply chunkObjectID_inj in Heq as [_ ?].
  - apply NoDup_filter. by apply NoDup_fmap_1 in Hids.
Qed.

(** X18: a run that completes uploads, in this order, as many full lists of
    1000 records as the records allow and then the remaining records, if any,
    where the records number one per country and one per text chunk of each
    published post or page.  With no country and no chunk it uploads nothing
    (and still moves the temporary index over the final one). *)
Theorem upload_sizes :
  let run := indexToAlgolia [] in
  let n := (length countries +
            sum_list (length ∘ chunksOf <$> filter published wp_posts))%nat in
  fst run = Done tt ->
  length allRecords = n /\
  length <$> uploaded "pages_tmp" (snd run) = sliceSizes n /\
  (n = 0%nat -> uploaded "pages_tmp" (snd run) = []) /\
  Started (moveIndex "pages_tmp" "pages") ∈ snd run.
Proof.
  intros run n Hdone. unfold run.
  assert (Hn : length allRecords = n).
  { unfold IndexToAlgolia.allRecords, n. rewrite length_app, length_fmap.
    f_equal. unfold IndexToAlgolia.publishedRows.
    induction (filter published wp_posts) as [|row rows IH]; [done|].
    rewrite bind_cons, length_app, fmap_cons, IH. simpl. f_equal.
    unfold IndexToAlgolia.postRecords. by rewrite length_imap. }
  assert (Hup : uploaded "pages_tmp" (snd (indexToAlgolia []))
                = slices allRecords).
  { rewrite (IndexToAlgoliaProofs.run_done _ _ _ _ _ _ _ Hdone).
    rewrite IndexToAlgoliaProofs.uploaded_app,
      IndexToAlgoliaProofs.uploaded_planned.
    apply app_nil_r. }
  split; [done|]. split; [|split].
  - by rewrite Hup, slices_sizes, Hn.
  - intros Hz. rewrite Hup. unfold slices. by rewrite Hn, Hz.
  - rewrite (IndexToAlgoliaProofs.run_done _ _ _ _ _ _ _ Hdone).
    apply elem_of_app. left. apply IndexToAlgoliaProofs.elem_of_awaited.
    exists (moveIndex "pages_tmp" "pages"). split; [|by left].
    rewrite IndexToAlgoliaProofs.plannedCalls_beforeMove.
    apply elem_of_app. right. apply elem_of_cons. by left.
Qed.

End Run.

Import SampleSite.

Lemma final_index_replaced_iff_done_witness :
  poolEnded ∈ snd (indexToAlgolia sampleCountries samplePosts sampleFullPost
                     sampleFormatted samplePlaintext (sampleChunks 2)
                     neverRejects []) /\
  Resolved (moveIndex "pages_tmp" "pages")
    ∈ snd (indexToAlgolia sampleCountries samplePosts sampleFullPost
             sampleFormatted samplePlaintext (sampleChunks 2)
             neverRejects []).
Proof.
  destruct (final_index_replaced_iff_done sampleCountries samplePosts
              sampleFullPost sampleFormatted samplePlaintext (sampleChunks 2)
              neverRejects) as (_ & Hmove & Hend & _).
  split; [apply Hend | apply Hmove]; vm_compute; reflexivity.
Defined.

Lemma post_objectIDs_distinct_witness :
  NoDup (objectID <$>
           (runSelect samplePosts publishedPostsQuery ≫=
              postRecords sampleFullPost sampleFormatted samplePlaintext
                (sampleChunks 2))).
Proof.
  apply (post_objectIDs_distinct samplePosts sampleFullPost sampleFormatted
           samplePlaintext (sampleChunks 2)).
  apply (bool_decide_unpack _). vm_compute. exact I.
Defined.

Lemma upload_sizes_witness :
  length <$>
    uploaded "pages_tmp"
      (snd (indexToAlgolia sampleCountries samplePosts sampleFullPost
              sampleFormatted samplePlaintext (sampleChunks 500)
              neverRejects []))
  = [1000; 1]%nat.
Proof.
  destruct (upload_sizes sampleCountries samplePosts sampleFullPost
              sampleFormatted samplePlaintext (sampleChunks 500)
              neverRejects) as (_ & Hsizes & _).
  - vm_compute. reflexivity.
  - rewrite Hsizes. vm_compute. reflexivity.
Defined.

End IndexToAlgoliaLaws.
